(** * Agri-Trust: content addressing, credential issuance, transparency log

    A shallow embedding of the core of [services/localDb] (the data layer of
    the Agri-Trust web application) and of the submission workflow
    [handleFinalSubmit] of [pages/FarmerInputPage.tsx], together with the
    properties the design document states about them.

    Layout: platform models first (the SHA-256 primitive of [js-sha256],
    [Date.prototype.toISOString], JSON values and [JSON.stringify]), then the
    data layer, then the submission workflow, then the theorems. *)

From Stdlib Require Import ZArith Ascii String List Permutation.
From stdpp Require Import base option list gmap strings.

Local Open Scope string_scope.
Local Open Scope Z_scope.

(* ===================================================================== *)
(** ** SHA-256, as computed by [sha256] of the [js-sha256] package        *)
(* ===================================================================== *)

(** Strings are sequences of bytes: the UTF-8 encoding that [js-sha256]
    hashes.  Words are 32-bit unsigned integers carried in [Z] with the
    wrap-around written out. *)
Module Sha256.

Definition mask32 : Z := 4294967295.

Definition add32 (x y : Z) : Z := Z.land (x + y) mask32.

Definition rotr (n x : Z) : Z :=
  Z.land (Z.lor (Z.shiftr x n) (Z.shiftl x (32 - n))) mask32.

Definition shr (n x : Z) : Z := Z.shiftr x n.

Definition not32 (x : Z) : Z := Z.lxor x mask32.

Definition Ch (x y z : Z) : Z := Z.lxor (Z.land x y) (Z.land (not32 x) z).
Definition Maj (x y z : Z) : Z :=
  Z.lxor (Z.lxor (Z.land x y) (Z.land x z)) (Z.land y z).
Definition Sigma0 (x : Z) : Z := Z.lxor (Z.lxor (rotr 2 x) (rotr 13 x)) (rotr 22 x).
Definition Sigma1 (x : Z) : Z := Z.lxor (Z.lxor (rotr 6 x) (rotr 11 x)) (rotr 25 x).
Definition sigma0 (x : Z) : Z := Z.lxor (Z.lxor (rotr 7 x) (rotr 18 x)) (shr 3 x).
Definition sigma1 (x : Z) : Z := Z.lxor (Z.lxor (rotr 17 x) (rotr 19 x)) (shr 10 x).

(** The round constants and the initial hash value are defined as the
    standard defines them: the first 32 bits of the fractional parts of the
    cube roots of the first 64 primes, and of the square roots of the first
    8 primes. *)
Definition is_prime (n : nat) : bool :=
  forallb (fun d => negb (Nat.eqb (n mod d) 0)) (seq 2 (n - 2)).

Definition primes : list Z :=
  map Z.of_nat (filter is_prime (seq 2 310)).

(** The largest [r] in [lo, hi) with [r * r * r <= n], by bisection. *)
Fixpoint cube_root (fuel : nat) (lo hi n : Z) : Z :=
  match fuel with
  | O => lo
  | S fuel' =>
      if hi - lo <=? 1 then lo
      else
        let mid := (lo + hi) / 2 in
        if mid * mid * mid <=? n then cube_root fuel' mid hi n
        else cube_root fuel' lo mid n
  end.

Definition K : list Z :=
  map (fun p => Z.land (cube_root 40 0 (Z.shiftl 1 36) (Z.shiftl p 96)) mask32) primes.

(** The eight working variables / chaining values. *)
Definition state : Type := (Z * Z * Z * Z * Z * Z * Z * Z)%type.

Definition frac_sqrt (p : Z) : Z := Z.land (Z.sqrt (Z.shiftl p 64)) mask32.

Definition H0 : state :=
  (frac_sqrt 2, frac_sqrt 3, frac_sqrt 5, frac_sqrt 7,
   frac_sqrt 11, frac_sqrt 13, frac_sqrt 17, frac_sqrt 19).

Definition bytes_of_string (s : string) : list Z :=
  map (fun c => Z.of_N (N_of_ascii c)) (list_ascii_of_string s).

(** Padding: a single 1 bit, zeros up to 56 mod 64, the bit length on
    eight bytes, big endian. *)
Definition be_bytes (n : nat) (x : Z) : list Z :=
  map (fun i => Z.land (Z.shiftr x (8 * Z.of_nat i)) 255) (rev (seq 0 n)).

Definition pad (msg : list Z) : list Z :=
  let len := Z.of_nat (length msg) in
  let zeros := Z.to_nat ((55 - len) mod 64) in
  msg ++ [128] ++ repeat 0 zeros ++ be_bytes 8 (8 * len).

Fixpoint words (fuel : nat) (bs : list Z) : list Z :=
  match fuel, bs with
  | S fuel', b0 :: b1 :: b2 :: b3 :: rest =>
      Z.lor (Z.shiftl b0 24) (Z.lor (Z.shiftl b1 16) (Z.lor (Z.shiftl b2 8) b3))
        :: words fuel' rest
  | _, _ => []
  end.

(** Message schedule, most recent word first. *)
Fixpoint expand (n : nat) (w : list Z) : list Z :=
  match n with
  | O => w
  | S n' =>
      let w2 := nth 1 w 0 in
      let w7 := nth 6 w 0 in
      let w15 := nth 14 w 0 in
      let w16 := nth 15 w 0 in
      expand n' (add32 (add32 (sigma1 w2) w7) (add32 (sigma0 w15) w16) :: w)
  end.

Definition schedule (block : list Z) : list Z :=
  rev (expand 48 (rev block)).

Definition round (st : state) (kw : Z * Z) : state :=
  let '(a, b, c, d, e, f, g, h) := st in
  let t1 := add32 (add32 (add32 h (Sigma1 e)) (add32 (Ch e f g) (fst kw))) (snd kw) in
  let t2 := add32 (Sigma0 a) (Maj a b c) in
  (add32 t1 t2, a, b, c, add32 d t1, e, f, g).

Definition add_state (s t : state) : state :=
  let '(a, b, c, d, e, f, g, h) := s in
  let '(a', b', c', d', e', f', g', h') := t in
  (add32 a a', add32 b b', add32 c c', add32 d d',
   add32 e e', add32 f f', add32 g g', add32 h h').

Definition compress (st : state) (block : list Z) : state :=
  add_state st (fold_left round (combine K (schedule block)) st).

Fixpoint blocks (fuel : nat) (ws : list Z) : list (list Z) :=
  match fuel, ws with
  | S fuel', _ :: _ => firstn 16 ws :: blocks fuel' (skipn 16 ws)
  | _, _ => []
  end.

Definition hash_words (ws : list Z) : state :=
  fold_left compress (blocks (length ws) ws) H0.

Definition hex_digit (n : Z) : ascii :=
  ascii_of_N (Z.to_N (if n <? 10 then 48 + n else 87 + n)).

Definition nibble (i x : Z) : ascii := hex_digit (Z.land (Z.shiftr x (4 * i)) 15).

Definition hex32 (x : Z) : string :=
  String (nibble 7 x) (String (nibble 6 x) (String (nibble 5 x) (String (nibble 4 x)
  (String (nibble 3 x) (String (nibble 2 x) (String (nibble 1 x) (String (nibble 0 x)
  EmptyString))))))).

Definition hex_state (st : state) : string :=
  let '(a, b, c, d, e, f, g, h) := st in
  hex32 a +:+ hex32 b +:+ hex32 c +:+ hex32 d +:+ hex32 e +:+ hex32 f +:+ hex32 g +:+ hex32 h.

(** [sha256(message)]: the lower-case hexadecimal digest. *)
Definition sha256 (message : string) : string :=
  let bs := pad (bytes_of_string message) in
  hex_state (hash_words (words (length bs) bs)).

End Sha256.

Import Sha256.


(* ===================================================================== *)
(** ** Strings and numbers of the host language                           *)
(* ===================================================================== *)

Module JsString.

Definition digit (d : Z) : ascii := ascii_of_N (Z.to_N (48 + d)).

Fixpoint digits (fuel : nat) (n : Z) (acc : string) : string :=
  match fuel with
  | O => acc
  | S fuel' =>
      let acc' := String (digit (n mod 10)) acc in
      if n <? 10 then acc' else digits fuel' (n / 10) acc'
  end.

(** Decimal numeral of [n >= 0]. *)
Definition decimal (n : Z) : string :=
  digits (S (Z.to_nat (Z.log2 n))) n "".

(** [Number.prototype.toString] on an integer-valued number below
    [10^21] in absolute value, where the digits are printed in full; it is
    also what [JSON.stringify] and template literals print for it.  The
    numbers that the program prints are years, months, days and draws
    below ten thousand. *)
Definition numberToString (n : Z) : string :=
  if n <? 0 then "-" +:+ decimal (- n) else decimal n.

Fixpoint replicate (n : nat) (c : ascii) : string :=
  match n with
  | O => ""
  | S n' => String c (replicate n' c)
  end.

(** [s.padStart(targetLength, c)] with a one-character filler. *)
Definition padStart (targetLength : nat) (c : ascii) (s : string) : string :=
  replicate (targetLength - String.length s) c +:+ s.

(** [s.slice(-n)]: the last [n] characters, the whole string when it is
    shorter. *)
Definition sliceLast (n : nat) (s : string) : string :=
  substring (String.length s - n) n s.

(** [s.split(c)[0]]: everything before the first [c]. *)
Fixpoint beforeFirst (c : ascii) (s : string) : string :=
  match s with
  | EmptyString => ""
  | String a rest => if Ascii.eqb a c then "" else String a (beforeFirst c rest)
  end.

Fixpoint join (sep : string) (l : list string) : string :=
  match l with
  | [] => ""
  | [x] => x
  | x :: rest => x +:+ sep +:+ join sep rest
  end.

End JsString.

(* ===================================================================== *)
(** ** [Date]: time values and their ISO rendering                        *)
(* ===================================================================== *)

(** A [Date] holds a time value, the number of milliseconds since the
    epoch.  The calendar fields follow the proleptic Gregorian calendar, as
    the language standard prescribes. *)
Module JsDate.
Import JsString.

Definition msPerDay : Z := 86400000.

Definition Day (t : Z) : Z := t / msPerDay.
Definition TimeWithinDay (t : Z) : Z := t mod msPerDay.

(** Year, month (1..12) and day of the month (1..31) of a day number. *)
Definition civil (day : Z) : Z * Z * Z :=
  let z := day + 719468 in
  let era := z / 146097 in
  let doe := z - era * 146097 in
  let yoe := (doe - doe / 1460 + doe / 36524 - doe / 146096) / 365 in
  let doy := doe - (365 * yoe + yoe / 4 - yoe / 100) in
  let mp := (5 * doy + 2) / 153 in
  let d := doy - (153 * mp + 2) / 5 + 1 in
  let m := if mp <? 10 then mp + 3 else mp - 9 in
  let y := yoe + era * 400 + (if m <=? 2 then 1 else 0) in
  (y, m, d).

Definition YearFromTime (t : Z) : Z := fst (fst (civil (Day t))).
(** Months count from 0, as [getMonth] does. *)
Definition MonthFromTime (t : Z) : Z := snd (fst (civil (Day t))) - 1.
Definition DateFromTime (t : Z) : Z := snd (civil (Day t)).
Definition HourFromTime (t : Z) : Z := TimeWithinDay t / 3600000.
Definition MinFromTime (t : Z) : Z := (TimeWithinDay t / 60000) mod 60.
Definition SecFromTime (t : Z) : Z := (TimeWithinDay t / 1000) mod 60.
Definition msFromTime (t : Z) : Z := TimeWithinDay t mod 1000.

Definition pad (width : nat) (n : Z) : string :=
  padStart width "0"%char (decimal n).

Definition isoYear (y : Z) : string :=
  if (0 <=? y) && (y <=? 9999) then pad 4 y
  else if y <? 0 then "-" +:+ pad 6 (- y)
  else "+" +:+ pad 6 y.

(** [new Date(t).toISOString()]. *)
Definition toISOString (t : Z) : string :=
  isoYear (YearFromTime t) +:+ "-" +:+ pad 2 (MonthFromTime t + 1) +:+ "-"
    +:+ pad 2 (DateFromTime t) +:+ "T" +:+ pad 2 (HourFromTime t) +:+ ":"
    +:+ pad 2 (MinFromTime t) +:+ ":" +:+ pad 2 (SecFromTime t) +:+ "."
    +:+ pad 3 (msFromTime t) +:+ "Z".

End JsDate.

(* ===================================================================== *)
(** ** Values, property access, [JSON.stringify]                          *)
(* ===================================================================== *)

(** The values that the data layer stores and hashes are plain data: what
    an object literal of strings, numbers, arrays and objects denotes and
    what [JSON.parse] returns.  Numbers are the integer-valued ones.  An
    object is its list of own properties in enumeration order. *)
#[warnings="-register-all"]
Inductive Value : Type :=
| VUndefined
| VNull
| VBool (b : bool)
| VNum (n : Z)
| VStr (s : string)
| VArr (items : list Value)
| VObj (props : list (string * Value)).

Inductive Exn : Type :=
| TypeError (message : string)
| Error (message : string).

(** The outcome of evaluating an expression: a value or a raised
    exception. *)
Inductive Result (A : Type) : Type :=
| Ok (a : A)
| Throw (e : Exn).

Arguments Ok {A} a.
Arguments Throw {A} e.

Module Js.
Import JsString.

Definition message (e : Exn) : string :=
  match e with
  | TypeError m => m
  | Error m => m
  end.

Definition bindR {A B : Type} (r : Result A) (k : A -> Result B) : Result B :=
  match r with
  | Ok a => k a
  | Throw e => Throw e
  end.

(** [ToBoolean]. *)
Definition truthy (v : Value) : bool :=
  match v with
  | VUndefined | VNull => false
  | VBool b => b
  | VNum n => negb (n =? 0)
  | VStr s => negb (String.eqb s "")
  | VArr _ | VObj _ => true
  end.

(** [a || b] on already evaluated operands. *)
Definition orElse (a b : Value) : Value := if truthy a then a else b.

Fixpoint lookupProp (k : string) (props : list (string * Value)) : Value :=
  match props with
  | [] => VUndefined
  | (k', v) :: rest => if String.eqb k k' then v else lookupProp k rest
  end.

(** [o[k] = v] on the own properties of an object: an existing property
    keeps its place, a new one goes last. *)
Fixpoint setProp (k : string) (v : Value) (props : list (string * Value))
  : list (string * Value) :=
  match props with
  | [] => [(k, v)]
  | (k', v') :: rest =>
      if String.eqb k k' then (k', v) :: rest else (k', v') :: setProp k v rest
  end.

(** [v.k] where [k] is not the name of a built-in member of [v]: not a
    member of [Object.prototype] or of the prototype of arrays, strings,
    numbers or booleans, not an array or string index and not [length].
    For such a name the read raises a [TypeError] on [undefined] and
    [null], gives the own property of an object, and [undefined] on any
    other value and when the object has no such property.  The program
    reads the fixed names [issuer], [proof], [created], [signatureValue],
    [credentialSubject], [cid], [batchId], [id] and [farmerId] this way;
    none of them is built in. *)
Definition get (v : Value) (k : string) : Result Value :=
  match v with
  | VUndefined =>
      Throw (TypeError ("Cannot read properties of undefined (reading '" +:+ k +:+ "')"))
  | VNull =>
      Throw (TypeError ("Cannot read properties of null (reading '" +:+ k +:+ "')"))
  | VObj props => Ok (lookupProp k props)
  | _ => Ok VUndefined
  end.

(** [v?.k]. *)
Definition optGet (v : Value) (k : string) : Value :=
  match v with
  | VObj props => lookupProp k props
  | _ => VUndefined
  end.

(** Whether an object has an own property of that name. *)
Definition hasOwn (k : string) (props : list (string * Value)) : bool :=
  existsb (fun p => String.eqb k (fst p)) props.

(** Results of expressions evaluated from the left: the first exception
    is the one raised. *)
Fixpoint sequenceR {A : Type} (l : list (Result A)) : Result (list A) :=
  match l with
  | [] => Ok []
  | r :: rest => bindR r (fun a => bindR (sequenceR rest) (fun l' => Ok (a :: l')))
  end.

Definition unprintable : Exn := TypeError "Cannot convert object to primitive value".

(** [ToString], as a template literal applies it.  An object of plain
    data prints through the inherited [toString] unless a property of its
    own hides it: such a property is not callable, the inherited [valueOf]
    returns the object itself, and the conversion raises.  An array prints
    its elements joined by commas, so it raises when one of them does. *)
Fixpoint toString (v : Value) : Result string :=
  match v with
  | VUndefined => Ok "undefined"
  | VNull => Ok "null"
  | VBool b => Ok (if b then "true" else "false")
  | VNum n => Ok (numberToString n)
  | VStr s => Ok s
  | VArr items =>
      bindR (sequenceR (map (fun x => match x with
                                      | VUndefined | VNull => Ok ""
                                      | _ => toString x
                                      end) items))
            (fun printed => Ok (join "," printed))
  | VObj props =>
      if hasOwn "toString" props then Throw unprintable else Ok "[object Object]"
  end.

(** [s === v] for a string [s]. *)
Definition strictEqString (s : string) (v : Value) : bool :=
  match v with
  | VStr s' => String.eqb s s'
  | _ => false
  end.

Definition hex4 (n : Z) : string :=
  String (Sha256.nibble 3 n) (String (Sha256.nibble 2 n)
    (String (Sha256.nibble 1 n) (String (Sha256.nibble 0 n) ""))).

Definition dquote : ascii := ascii_of_N 34.

Definition escapeChar (c : ascii) : string :=
  let n := Z.of_N (N_of_ascii c) in
  if n =? 34 then String "\"%char (String dquote "")
  else if n =? 92 then "\\"
  else if n =? 8 then "\b"
  else if n =? 12 then "\f"
  else if n =? 10 then "\n"
  else if n =? 13 then "\r"
  else if n =? 9 then "\t"
  else if n <? 32 then "\u" +:+ hex4 n
  else String c "".

Fixpoint escape (s : string) : string :=
  match s with
  | EmptyString => ""
  | String c rest => escapeChar c +:+ escape rest
  end.

(** [QuoteJSONString]. *)
Definition quote (s : string) : string :=
  String dquote "" +:+ escape s +:+ String dquote "".

(** [JSON.stringify]: [None] stands for the result [undefined].  A
    property whose value serialises to [undefined] is left out of an
    object; such an element of an array is printed as [null]. *)
Fixpoint stringify (v : Value) : option string :=
  match v with
  | VUndefined => None
  | VNull => Some "null"
  | VBool b => Some (if b then "true" else "false")
  | VNum n => Some (numberToString n)
  | VStr s => Some (quote s)
  | VArr items =>
      Some ("[" +:+ join "," (map (fun x => match stringify x with
                                              | Some s => s
                                              | None => "null"
                                              end) items) +:+ "]")
  | VObj props =>
      Some ("{" +:+ join "," (flat_map (fun p => match stringify (snd p) with
                                                   | Some s => [quote (fst p) +:+ ":" +:+ s]
                                                   | None => []
                                                   end) props) +:+ "}")
  end.

(** [a === b] where the operands are not one and the same object: two
    values of the same primitive type are compared, anything else
    differs. *)
Definition strictEq (a b : Value) : bool :=
  match a, b with
  | VUndefined, VUndefined => true
  | VNull, VNull => true
  | VBool x, VBool y => Bool.eqb x y
  | VNum x, VNum y => x =? y
  | VStr x, VStr y => String.eqb x y
  | _, _ => false
  end.

End Js.

(* ===================================================================== *)
(** ** What a storage key holds: JSON                                     *)
(* ===================================================================== *)

(** The values that a JSON text denotes.  The storage keeps text, so what
    is read back from it is always one of these. *)
#[warnings="-register-all"]
Inductive Json : Type :=
| JNull
| JBool (b : bool)
| JNum (n : Z)
| JStr (s : string)
| JArr (items : list Json)
| JObj (props : list (string * Json)).

(** [JSON.parse] of the text of a JSON value. *)
Fixpoint toValue (j : Json) : Value :=
  match j with
  | JNull => VNull
  | JBool b => VBool b
  | JNum n => VNum n
  | JStr s => VStr s
  | JArr items => VArr (map toValue items)
  | JObj props => VObj (map (fun p => (fst p, toValue (snd p))) props)
  end.

(** [JSON.parse(JSON.stringify(v))], [None] when [JSON.stringify] gives
    [undefined]: a property whose value is [undefined] is gone, such an
    element of an array has become [null]. *)
Fixpoint toJson (v : Value) : option Json :=
  match v with
  | VUndefined => None
  | VNull => Some JNull
  | VBool b => Some (JBool b)
  | VNum n => Some (JNum n)
  | VStr s => Some (JStr s)
  | VArr items =>
      Some (JArr (map (fun x => match toJson x with
                                | Some j => j
                                | None => JNull
                                end) items))
  | VObj props =>
      Some (JObj (flat_map (fun p => match toJson (snd p) with
                                     | Some j => [(fst p, j)]
                                     | None => []
                                     end) props))
  end.

(** An element of an array that is written to the storage. *)
Definition toJsonElement (v : Value) : Json :=
  match toJson v with
  | Some j => j
  | None => JNull
  end.

(* ===================================================================== *)
(** ** The persisted store and the host environment                       *)
(* ===================================================================== *)

Record Location : Type := {
  village : string;
  district : string;
  state : string;
  gps : option string
}.

Record Farmer : Type := {
  id : string;
  name : string;
  dateOfJoining : string;
  location : Location;
  createdAt : string;
  updatedAt : string
}.

(** The value of a consumer code in the index. *)
Record CodeMapping : Type := {
  cm_cid : string;
  cm_vcDigest : string;
  cm_batchId : string
}.

(** An entry of the transparency log; [previousHash = None] is [null]. *)
Record LogEntry : Type := {
  index : nat;
  digest : string;
  previousHash : option string;
  timestamp : string;
  cid : string
}.

(** What [localStorage] holds under the keys of the data layer, as it
    parses.  The storage keeps JSON text: farmers, code mappings and log
    entries have the fields that their types name; batches, claims and
    drafts are whatever JSON values were written.  A key that was never
    written reads as the default its getter passes ([[]], [{}] or
    [undefined]). *)
Record Store : Type := {
  farmers : list Farmer;
  batches : list Json;
  claims : list Json;
  codes : gmap string CodeMapping;
  transparencyLog : list LogEntry;
  drafts : gmap string Json
}.

(** The calls of the submission workflow after which the next statement
    may not be reached because the call raised. *)
Inductive Step : Type :=
| SComputeCid
| SIssue
| SAppend
| SAddBatch
| SAddClaim (i : nat)
| SAddCodeMapping
| SClearDraft.

(** What the program reads from its host: the clock behind [new Date()]
    (a time value per read), the offset of local time, the identifiers
    [uuidv4()] returns, the draws behind [Math.random()], the calls that
    raise an exception of the host's own, which calls of
    [localStorage.setItem] raise (a full or disabled storage), counted
    from the first, and how the platform capitalises a word that starts
    with a character outside ASCII. *)
Record Host : Type := {
  clock : nat -> Z;
  localTZA : Z;
  uuids : nat -> string;
  randoms : nat -> Z;
  raises : Step -> option Exn;
  setItemFails : nat -> bool;
  capitalizeBeyondAscii : string -> string
}.

(** The mutable state: the store, how many reads of each source were made
    so far, and how many times [localStorage.setItem] was called. *)
Record World : Type := {
  store : Store;
  dateReads : nat;
  uuidReads : nat;
  randomReads : nat;
  writes : nat
}.

(** Computations that read and write the world and may raise.  A raised
    exception does not undo the writes made before it. *)
Definition M (A : Type) : Type := World -> Result A * World.

Definition ret {A : Type} (a : A) : M A := fun w => (Ok a, w).

Definition bind {A B : Type} (m : M A) (k : A -> M B) : M B :=
  fun w =>
    match m w with
    | (Ok a, w') => k a w'
    | (Throw e, w') => (Throw e, w')
    end.

Definition throw {A : Type} (e : Exn) : M A := fun w => (Throw e, w).

Definition liftR {A : Type} (r : Result A) : M A := fun w => (r, w).

Definition getStore : M Store := fun w => (Ok (store w), w).

(** The storage takes a new content; this is what [removeItem] and an
    accepted [setItem] do. *)
Definition putStore (s : Store) : M unit :=
  fun w => (Ok tt, {| store := s; dateReads := dateReads w;
                      uuidReads := uuidReads w; randomReads := randomReads w;
                      writes := writes w |}).

Notation "x <- m ;; k" := (bind m (fun x => k))
  (at level 100, m at next level, right associativity).
Notation "m ;; k" := (bind m (fun _ => k))
  (at level 100, right associativity).

Fixpoint forEach {A : Type} (f : nat -> A -> M unit) (i : nat) (l : list A) : M unit :=
  match l with
  | [] => ret tt
  | x :: rest => f i x ;; forEach f (S i) rest
  end.

Fixpoint mapM {A B : Type} (f : A -> M B) (l : list A) : M (list B) :=
  match l with
  | [] => ret []
  | x :: rest => y <- f x ;; ys <- mapM f rest ;; ret (y :: ys)
  end.

(** The members that every object inherits from [Object.prototype]. *)
Definition objectPrototypeNames : list string :=
  [ "constructor"; "__defineGetter__"; "__defineSetter__"; "hasOwnProperty";
    "__lookupGetter__"; "__lookupSetter__"; "isPrototypeOf";
    "propertyIsEnumerable"; "toString"; "valueOf"; "__proto__"; "toLocaleString" ].

Definition inheritedName (k : string) : bool :=
  existsb (String.eqb k) objectPrototypeNames.

(** What [codes[consumerCode]] gives when it is not [undefined]: a mapping
    stored under the code, or the member of [Object.prototype] of that
    name, which is a function or, for [__proto__], the prototype itself:
    truthy, and without a [cid], [vcDigest] or [batchId]. *)
Inductive Found : Type :=
| Mapping (mapping : CodeMapping)
| Inherited.

(** [codeMapping.cid], [codeMapping.vcDigest], [codeMapping.batchId]. *)
Definition foundCid (found : Found) : Value :=
  match found with
  | Mapping mapping => VStr (cm_cid mapping)
  | Inherited => VUndefined
  end.

Definition foundVcDigest (found : Found) : Value :=
  match found with
  | Mapping mapping => VStr (cm_vcDigest mapping)
  | Inherited => VUndefined
  end.

Definition foundBatchId (found : Found) : Value :=
  match found with
  | Mapping mapping => VStr (cm_batchId mapping)
  | Inherited => VUndefined
  end.

Section Program.

Variable host : Host.

Import JsString JsDate Js.

(** [new Date()]: the time value captured. *)
Definition newDate : M Z :=
  fun w => (Ok (clock host (dateReads w)),
            {| store := store w; dateReads := S (dateReads w);
               uuidReads := uuidReads w; randomReads := randomReads w;
               writes := writes w |}).

(** [new Date().toISOString()]. *)
Definition nowISO : M string := t <- newDate ;; ret (toISOString t).

Definition uuidv4 : M string :=
  fun w => (Ok (uuids host (uuidReads w)),
            {| store := store w; dateReads := dateReads w;
               uuidReads := S (uuidReads w); randomReads := randomReads w;
               writes := writes w |}).

(** [Math.floor(Math.random() * n)]: an integer in [0, n). *)
Definition randomBelow (n : Z) : M Z :=
  fun w => (Ok (randoms host (randomReads w) mod n),
            {| store := store w; dateReads := dateReads w;
               uuidReads := uuidReads w; randomReads := S (randomReads w);
               writes := writes w |}).

(** A call that the host may interrupt with an exception before it
    takes effect. *)
Definition attempt {A : Type} (s : Step) (m : M A) : M A :=
  match raises host s with
  | Some e => throw e
  | None => m
  end.

(* =================================================================== *)
(** ** [services/localDb]                                               *)
(* =================================================================== *)

(** [setLocalStorageItem], given the store with the new content under the
    key: [localStorage.setItem] is called once; when it raises, the
    exception is caught and logged, the storage keeps what it held and
    the caller goes on. *)
Definition setLocalStorageItem (written : Store) : M unit :=
  fun w => (Ok tt,
            {| store := if setItemFails host (writes w) then store w else written;
               dateReads := dateReads w; uuidReads := uuidReads w;
               randomReads := randomReads w; writes := S (writes w) |}).

(** *** Farmers, batches, claims *)

Definition getFarmers : M (list Farmer) := s <- getStore ;; ret (farmers s).

Definition getFarmerById (farmerId : string) : M (option Farmer) :=
  fs <- getFarmers ;; ret (find (fun f => String.eqb (id f) farmerId) fs).

Definition getBatches : M (list Value) := s <- getStore ;; ret (map toValue (batches s)).

Definition addBatch (batch : Value) : M unit :=
  batches0 <- getBatches ;;
  s <- getStore ;;
  setLocalStorageItem
    {| farmers := farmers s; batches := map toJsonElement (batches0 ++ [batch]);
       claims := claims s; codes := codes s;
       transparencyLog := transparencyLog s; drafts := drafts s |}.

Definition getClaims : M (list Value) := s <- getStore ;; ret (map toValue (claims s)).

Definition addClaim (claim : Value) : M unit :=
  claims0 <- getClaims ;;
  s <- getStore ;;
  setLocalStorageItem
    {| farmers := farmers s; batches := batches s;
       claims := map toJsonElement (claims0 ++ [claim]); codes := codes s;
       transparencyLog := transparencyLog s; drafts := drafts s |}.

(** *** Consumer codes *)

(** [codes[consumerCode]] on the object that the index parses to: an own
    property, else a member of [Object.prototype], else [undefined]
    ([None]). *)
Definition getCodeMapping (consumerCode : string) : M (option Found) :=
  s <- getStore ;;
  ret (match codes s !! consumerCode with
       | Some mapping => Some (Mapping mapping)
       | None => if inheritedName consumerCode then Some Inherited else None
       end).

(** [codes[consumerCode] = { cid, vcDigest, batchId }] defines or replaces
    an own property, except under the name [__proto__] on an object that
    has no own property of that name: there the assignment makes the
    mapping the prototype of the object, and the text written is that of
    the properties it had. *)
Definition addCodeMapping (consumerCode cid vcDigest batchId : string) : M unit :=
  s <- getStore ;;
  let mapping := {| cm_cid := cid; cm_vcDigest := vcDigest; cm_batchId := batchId |} in
  let assigned :=
    if String.eqb consumerCode "__proto__"
    then match codes s !! consumerCode with
         | Some _ => <[consumerCode := mapping]> (codes s)
         | None => codes s
         end
    else <[consumerCode := mapping]> (codes s) in
  setLocalStorageItem
    {| farmers := farmers s; batches := batches s; claims := claims s;
       codes := assigned;
       transparencyLog := transparencyLog s; drafts := drafts s |}.

(** *** Transparency log *)

Definition getTransparencyLog : M (list LogEntry) :=
  s <- getStore ;; ret (transparencyLog s).

Definition appendToTransparencyLog (vcDigest cid : string) : M nat :=
  log <- getTransparencyLog ;;
  let previousHash :=
    if (0 <? length log)%nat then digest <$> log !! (length log - 1)%nat else None in
  now <- nowISO ;;
  let newEntry :=
    {| index := length log; digest := vcDigest; previousHash := previousHash;
       timestamp := now; cid := cid |} in
  s <- getStore ;;
  setLocalStorageItem
    {| farmers := farmers s; batches := batches s; claims := claims s;
       codes := codes s; transparencyLog := log ++ [newEntry];
       drafts := drafts s |} ;;
  ret (index newEntry).

(** *** Drafts *)

(** [localStorage.removeItem]; it is not guarded and does not go through
    [setItem]. *)
Definition clearDraftBatch (farmerId : string) : M unit :=
  s <- getStore ;;
  putStore {| farmers := farmers s; batches := batches s; claims := claims s;
              codes := codes s; transparencyLog := transparencyLog s;
              drafts := delete farmerId (drafts s) |}.

(** *** Content addressing and credentials *)

(** [sha256(JSON.stringify(v))]; the hash function rejects [undefined]. *)
Definition sha256OfJson (v : Value) : Result string :=
  match stringify v with
  | Some text => Ok (sha256 text)
  | None => Throw (Error "input is invalid type")
  end.

Definition computeCid (data : Value) : Result string := sha256OfJson data.

Record Issued : Type := {
  vcObject : Value;
  vcDigest : string
}.

(** The body of [issueVerifiableCredential] once the timestamp and the
    identifier of the credential are drawn. *)
Definition issueVerifiableCredentialAt
    (timestamp uuid cid farmerId batchId : string) : Result Issued :=
  let issuerDid := "did:agritrust:" +:+ farmerId in
  let mockSignature :=
    sha256 (cid +:+ "-" +:+ timestamp +:+ "-" +:+ issuerDid +:+ "-"
              +:+ batchId +:+ "-secret-key") in
  let vcObject :=
    VObj
      [ ("@context", VArr [VStr "https://www.w3.org/2018/credentials/v1"]);
        ("type", VArr [VStr "VerifiableCredential"; VStr "AgriTrustBatchCredential"]);
        ("id", VStr ("vc:" +:+ uuid));
        ("issuer", VStr issuerDid);
        ("issuanceDate", VStr timestamp);
        ("credentialSubject",
          VObj [ ("id", VStr ("did:agritrust:batch:" +:+ batchId));
                 ("cid", VStr cid);
                 ("batchId", VStr batchId);
                 ("farmerId", VStr farmerId) ]);
        ("proof",
          VObj [ ("type", VStr "Ed25519Signature2020");
                 ("created", VStr timestamp);
                 ("verificationMethod", VStr (issuerDid +:+ "#key1"));
                 ("proofPurpose", VStr "assertionMethod");
                 ("signatureValue", VStr mockSignature) ]) ] in
  bindR (sha256OfJson vcObject)
        (fun d => Ok {| vcObject := vcObject; vcDigest := d |}).

Definition issueVerifiableCredential (cid farmerId batchId : string) : M Issued :=
  timestamp <- nowISO ;;
  uuid <- uuidv4 ;;
  liftR (issueVerifiableCredentialAt timestamp uuid cid farmerId batchId).

Definition validateVcSignature (vcObject : Value) : Result bool :=
  if negb (truthy (optGet (optGet vcObject "proof") "signatureValue"))
     || negb (truthy (optGet (optGet vcObject "proof") "created"))
     || negb (truthy (optGet vcObject "issuer"))
  then Ok false
  else
    bindR (get vcObject "issuer") (fun issuerDid =>
    bindR (get vcObject "credentialSubject") (fun subject =>
    bindR (get subject "cid") (fun cid =>
    bindR (get vcObject "credentialSubject") (fun subject' =>
    bindR (get subject' "batchId") (fun batchId =>
    bindR (get vcObject "proof") (fun proof =>
    bindR (get proof "created") (fun timestamp =>
    bindR (toString cid) (fun cidText =>
    bindR (toString timestamp) (fun timestampText =>
    bindR (toString issuerDid) (fun issuerText =>
    bindR (toString batchId) (fun batchText =>
    let expectedMockSignature :=
      sha256 (cidText +:+ "-" +:+ timestampText +:+ "-"
                +:+ issuerText +:+ "-" +:+ batchText +:+ "-secret-key") in
    bindR (get vcObject "proof") (fun proof' =>
    bindR (get proof' "signatureValue") (fun signatureValue =>
    Ok (strictEqString expectedMockSignature signatureValue)))))))))))))).

Record LogCheck : Type := {
  exists_ : bool;
  consistent : bool
}.

Definition checkTransparencyLog (vcDigest expectedCid : string) : M LogCheck :=
  log <- getTransparencyLog ;;
  match find (fun e => String.eqb (digest e) vcDigest) log with
  | None => ret {| exists_ := false; consistent := false |}
  | Some entry =>
      if negb (String.eqb (cid entry) expectedCid)
      then ret {| exists_ := true; consistent := false |}
      else ret {| exists_ := true; consistent := true |}
  end.

End Program.

(* ===================================================================== *)
(** ** [pages/FarmerInputPage]: the submission workflow                   *)
(* ===================================================================== *)

(** What [handleFinalSubmit] reads from the component: the verdict of
    [validateAllInputs()], the signed-in farmer ([None] is [null]), and the
    form state [batchData] and [claims], each an object given by its own
    properties. *)
Record Submission : Type := {
  validateAllInputs : bool;
  userId : option string;
  batchData : list (string * Value);
  claimsState : list (list (string * Value))
}.

(** How the handler ends: the two early returns, the success message with
    the consumer code, or the message the [catch] block shows. *)
Inductive Outcome : Type :=
| Rejected
| NotSignedIn
| Submitted (consumerCode : string)
| Aborted (message : string).

Section Workflow.

Variable host : Host.

Import JsString JsDate Js.

(** [a || b] where evaluating [b] has effects. *)
Definition orElseM (a : Value) (b : M Value) : M Value :=
  if truthy a then ret a else b.

(** The [while (attempts < 100)] loop, [remaining] iterations before the
    budget is spent; the empty string is the initial [consumerCode]. *)
Fixpoint codeAttempts (remaining : nat) (year month day : string) : M string :=
  match remaining with
  | O => ret ""
  | S remaining' =>
      r <- randomBelow host 9000 ;;
      let rand := numberToString (1000 + r) in
      let tempCode := "AGRITRUST-" +:+ year +:+ month +:+ day +:+ "-" +:+ rand in
      mapping <- getCodeMapping tempCode ;;
      match mapping with
      | None => ret tempCode
      | Some _ => codeAttempts remaining' year month day
      end
  end.

(** Step 1 of the [try] block. *)
Definition generateConsumerCode : M string :=
  date <- newDate host ;;
  let localTime := date + localTZA host in
  let year := sliceLast 2 (numberToString (YearFromTime localTime)) in
  let month := padStart 2 "0" (numberToString (MonthFromTime localTime + 1)) in
  let day := padStart 2 "0" (numberToString (DateFromTime localTime)) in
  consumerCode <- codeAttempts 100 year month day ;;
  if String.eqb consumerCode ""
  then throw (Error "Failed to generate a unique consumer code after multiple attempts.")
  else ret consumerCode.

(** Step 2: the [finalBatch] object literal. *)
Definition buildFinalBatch (userId' finalBatchId consumerCode : string)
    (farmer : Farmer) (batchData' : list (string * Value))
  : M (list (string * Value)) :=
  let location' := lookupProp "location" batchData' in
  harvestDate <-
    orElseM (lookupProp "harvestDate" batchData')
            (now <- nowISO host ;; ret (VStr (beforeFirst "T" now))) ;;
  createdAt' <- nowISO host ;;
  updatedAt' <- nowISO host ;;
  ret [ ("id", VStr finalBatchId);
        ("farmerId", VStr userId');
        ("farmerName", VStr (name farmer));
        ("location",
          VObj [ ("village", orElse (optGet location' "village") (VStr ""));
                 ("district", orElse (optGet location' "district") (VStr ""));
                 ("state", orElse (optGet location' "state") (VStr ""));
                 ("gps", orElse (optGet location' "gps") VUndefined) ]);
        ("productName", orElse (lookupProp "productName" batchData') (VStr "Unknown Product"));
        ("variety", orElse (lookupProp "variety" batchData') (VStr "Unknown Variety"));
        ("harvestDate", harvestDate);
        ("soilTypeTexture", orElse (lookupProp "soilTypeTexture" batchData') (VStr "Not specified"));
        ("nitrogenLevel", orElse (lookupProp "nitrogenLevel" batchData') (VNum 0));
        ("phosphorusLevel", orElse (lookupProp "phosphorusLevel" batchData') (VNum 0));
        ("potassiumLevel", orElse (lookupProp "potassiumLevel" batchData') (VNum 0));
        ("micronutrients", orElse (lookupProp "micronutrients" batchData') (VStr "Not specified"));
        ("soilPh", orElse (lookupProp "soilPh" batchData') (VNum 7));
        ("humidity", orElse (lookupProp "humidity" batchData') (VNum 0));
        ("temperature", orElse (lookupProp "temperature" batchData') (VNum 0));
        ("inputsUsed", orElse (lookupProp "inputsUsed" batchData') (VArr []));
        ("certifications", orElse (lookupProp "certifications" batchData') (VArr []));
        ("lotSize", orElse (lookupProp "lotSize" batchData') (VStr "Not specified"));
        ("processingSteps", lookupProp "processingSteps" batchData');
        ("storageTransportNotes", lookupProp "storageTransportNotes" batchData');
        ("consumerCode", VStr consumerCode);
        ("cid", VStr "");
        ("vcDigest", VStr "");
        ("createdAt", VStr createdAt');
        ("updatedAt", VStr updatedAt') ].

(** Step 3: [{ ...claim, batchId, createdAt, updatedAt }]. *)
Definition finalizeClaim (finalBatchId : string) (claim : list (string * Value))
  : M (list (string * Value)) :=
  createdAt' <- orElseM (lookupProp "createdAt" claim)
                        (now <- nowISO host ;; ret (VStr now)) ;;
  updatedAt' <- nowISO host ;;
  ret (setProp "updatedAt" (VStr updatedAt')
         (setProp "createdAt" createdAt'
            (setProp "batchId" (VStr finalBatchId) claim))).

(** The body of the [try] block. *)
Definition submit (userId' : string) (batchData' : list (string * Value))
    (claims' : list (list (string * Value))) : M string :=
  (* 1. Generate unique consumer code *)
  consumerCode <- generateConsumerCode ;;
  farmer <- getFarmerById userId' ;;
  match farmer with
  | None => throw (Error "Farmer details missing for submission.")
  | Some farmer =>
      (* 2. Create final Batch object *)
      finalBatchId <- uuidv4 host ;;
      finalBatch <- buildFinalBatch userId' finalBatchId consumerCode farmer batchData' ;;
      (* 3. Update claims with batchId *)
      finalClaims <- mapM (finalizeClaim finalBatchId) claims' ;;
      (* 4. Compute CID for batch + claims content *)
      let combinedContentForCid :=
        VObj [ ("batch", VObj finalBatch); ("claims", VArr (map VObj finalClaims)) ] in
      cid <- attempt host SComputeCid (liftR (computeCid combinedContentForCid)) ;;
      let finalBatch := setProp "cid" (VStr cid) finalBatch in
      (* 5. Issue Verifiable Credential *)
      issued <- attempt host SIssue (issueVerifiableCredential host cid userId' finalBatchId) ;;
      let finalBatch := setProp "vcDigest" (VStr (vcDigest issued)) finalBatch in
      (* 6. Append to Transparency Log *)
      attempt host SAppend (appendToTransparencyLog host (vcDigest issued) cid) ;;
      (* 7. Save to local storage *)
      attempt host SAddBatch (addBatch host (VObj finalBatch)) ;;
      forEach (fun i claim => attempt host (SAddClaim i) (addClaim host (VObj claim)))
              0%nat finalClaims ;;
      attempt host SAddCodeMapping
              (addCodeMapping host consumerCode cid (vcDigest issued) finalBatchId) ;;
      (* 8. Clear draft and reset state *)
      attempt host SClearDraft (clearDraftBatch userId') ;;
      ret consumerCode
  end.

Definition handleFinalSubmit (sub : Submission) (w : World) : Outcome * World :=
  if negb (validateAllInputs sub) then (Rejected, w)
  else
    match userId sub with
    | None => (NotSignedIn, w)
    | Some userId' =>
        if String.eqb userId' "" then (NotSignedIn, w)
        else
          match submit userId' (batchData sub) (claimsState sub) w with
          | (Ok consumerCode, w') => (Submitted consumerCode, w')
          | (Throw err, w') =>
              (Aborted (if String.eqb (message err) ""
                        then "Failed to submit batch data."
                        else message err), w')
          end
    end.

End Workflow.

(* ===================================================================== *)
(** ** Vocabulary of the properties and sample data                       *)
(* ===================================================================== *)

Import JsString JsDate Js.

(** A host whose clock stands still and whose identifier source returns a
    fresh identifier at every draw. *)
Definition frozenClockHost : Host :=
  {| clock := fun _ => 1700000000000;
     localTZA := 0;
     uuids := fun n => if Nat.eqb n 0 then "1b9d6bcd-bbfd-4b2d-9b5d-ab8dfbbd4bed"
                       else "6ec0bd7f-11c0-43da-975e-2a8ad9ebae0b";
     randoms := fun _ => 0;
     raises := fun _ => None;
     setItemFails := fun _ => false;
     capitalizeBeyondAscii := fun word => word |}.

Definition emptyStore : Store :=
  {| farmers := []; batches := []; claims := []; codes := ∅;
     transparencyLog := []; drafts := ∅ |}.

Definition initialWorld : World :=
  {| store := emptyStore; dateReads := 0; uuidReads := 0; randomReads := 0; writes := 0 |}.




(** The condition of the [if] that opens [validateVcSignature]. *)
Definition guardRejects (vcObject : Value) : bool :=
  negb (truthy (optGet (optGet vcObject "proof") "signatureValue"))
  || negb (truthy (optGet (optGet vcObject "proof") "created"))
  || negb (truthy (optGet vcObject "issuer")).

(** A value on which a property can be read: neither [undefined] nor
    [null]. *)
Definition present (v : Value) : bool :=
  match v with
  | VUndefined | VNull => false
  | _ => true
  end.

(** A credential that carries the three guarded fields and nothing else. *)
Definition credentialWithoutSubject : Value :=
  VObj [ ("issuer", VStr "did:agritrust:20230115-greenacres-1234");
         ("proof",
           VObj [ ("created", VStr "2023-11-14T22:13:20.000Z");
                  ("signatureValue", VStr "00") ]) ].

Definition logOf (w : World) : list LogEntry := transparencyLog (store w).

(** The first entry in scan order whose digest is [vcDigest] is the entry
    at position [i]. *)
Definition firstMatch (log : list LogEntry) (vcDigest : string) (i : nat) (e : LogEntry)
  : Prop :=
  log !! i = Some e
  /\ digest e = vcDigest
  /\ forall j e', (j < i)%nat -> log !! j = Some e' -> digest e' <> vcDigest.


(** Sequential calls of [appendToTransparencyLog], one per pair
    [(vcDigest, cid)], returning the index each call returned. *)
Definition appendAll (host : Host) (items : list (string * string)) : M (list nat) :=
  mapM (fun item => appendToTransparencyLog host (fst item) (snd item)) items.

(** The chain invariant of the log: every entry sits at its own index and
    names the digest of the entry before it, the first one names none. *)
Definition chained (log : list LogEntry) : Prop :=
  forall i e, log !! i = Some e ->
    index e = i
    /\ previousHash e = match i with
                        | O => None
                        | S j => digest <$> log !! j
                        end.

(** Computations that leave the whole store, respectively the code index,
    as they found it, whatever they return. *)
Definition keepsStore {A : Type} (m : M A) : Prop :=
  forall w, store (snd (m w)) = store w.

Definition keepsCodes {A : Type} (m : M A) : Prop :=
  forall w, codes (store (snd (m w))) = codes (store w).

(** Computations that leave the code index as they found it whenever they
    raise. *)
Definition codesIntactOnThrow {A : Type} (m : M A) : Prop :=
  forall w e, fst (m w) = Throw e -> codes (store (snd (m w))) = codes (store w).

(** The code that attempt number [i] (from 0) of the generation loop tries
    when the workflow starts in world [w]. *)
Definition candidateCode (host : Host) (w : World) (i : nat) : string :=
  let localTime := clock host (dateReads w) + localTZA host in
  let year := sliceLast 2 (numberToString (YearFromTime localTime)) in
  let month := padStart 2 "0" (numberToString (MonthFromTime localTime + 1)) in
  let day := padStart 2 "0" (numberToString (DateFromTime localTime)) in
  let rand := numberToString (1000 + randoms host (randomReads w + i) mod 9000) in
  "AGRITRUST-" +:+ year +:+ month +:+ day +:+ "-" +:+ rand.

Definition codeGenerationExhausted : string :=
  "Failed to generate a unique consumer code after multiple attempts.".

(** Sample data: a registered farmer and a form with one claim. *)
Definition greenAcres : Farmer :=
  {| id := "20230115-greenacres-1234"; name := "Green Acres Farm";
     dateOfJoining := "2023-01-15";
     location := {| village := "Farmville"; district := "Rural";
                    state := "Karnataka"; gps := None |};
     createdAt := "2023-01-15T00:00:00.000Z";
     updatedAt := "2023-01-15T00:00:00.000Z" |}.

Definition applesForm : Submission :=
  {| validateAllInputs := true;
     userId := Some "20230115-greenacres-1234";
     batchData := [ ("productName", VStr "Apples") ];
     claimsState := [ [ ("id", VStr "claim-1"); ("type", VStr "Organic");
                        ("batchId", VStr "") ] ] |}.

Definition seededWorld : World :=
  {| store := {| farmers := [greenAcres]; batches := []; claims := []; codes := ∅;
                 transparencyLog := []; drafts := ∅ |};
     dateReads := 0; uuidReads := 0; randomReads := 0; writes := 0 |}.

(** A host on which the append to the log raises. *)
Definition logDownHost : Host :=
  {| clock := fun n => 1700000000000 + Z.of_nat n;
     localTZA := 19800000;
     uuids := fun n => "uuid-" +:+ numberToString (Z.of_nat n);
     randoms := fun n => 234 + Z.of_nat n;
     raises := fun s => match s with
                        | SAppend => Some (Error "log unavailable")
                        | _ => None
                        end;
     setItemFails := fun _ => false;
     capitalizeBeyondAscii := fun word => word |}.

(** A host on which the store of the batch raises, after the append. *)
Definition batchStoreDownHost : Host :=
  {| clock := fun n => 1700000000000 + Z.of_nat n;
     localTZA := 19800000;
     uuids := fun n => "uuid-" +:+ numberToString (Z.of_nat n);
     randoms := fun n => 234 + Z.of_nat n;
     raises := fun s => match s with
                        | SAddBatch => Some (Error "batch store unavailable")
                        | _ => None
                        end;
     setItemFails := fun _ => false;
     capitalizeBeyondAscii := fun word => word |}.

(** A host whose random source always returns the same draw, and a world
    in which the one code that draw leads to is taken. *)
Definition stuckRandomHost : Host :=
  {| clock := fun n => 1700000000000 + Z.of_nat n;
     localTZA := 19800000;
     uuids := fun n => "uuid-" +:+ numberToString (Z.of_nat n);
     randoms := fun _ => 234;
     raises := fun _ => None;
     setItemFails := fun _ => false;
     capitalizeBeyondAscii := fun word => word |}.

Definition codeTakenWorld : World :=
  {| store := {| farmers := [greenAcres]; batches := []; claims := [];
                 codes := {[ "AGRITRUST-231115-1234" :=
                               {| cm_cid := "c"; cm_vcDigest := "d"; cm_batchId := "b" |} ]};
                 transparencyLog := []; drafts := ∅ |};
     dateReads := 0; uuidReads := 0; randomReads := 0; writes := 0 |}.

(** A host whose storage is full: every [setItem] raises. *)
Definition fullStorageHost : Host :=
  {| clock := fun n => 1700000000000 + Z.of_nat n;
     localTZA := 19800000;
     uuids := fun n => "uuid-" +:+ numberToString (Z.of_nat n);
     randoms := fun n => 234 + Z.of_nat n;
     raises := fun _ => None;
     setItemFails := fun _ => true;
     capitalizeBeyondAscii := fun word => word |}.

(** Reading back one character of a quoted string: what [escapeChar]
    printed, and what follows it.  A closing quote reads as [None]. *)
Definition hexDigitValue (c : ascii) : option N :=
  let n := N_of_ascii c in
  if (48 <=? n)%N && (n <=? 57)%N then Some (n - 48)%N
  else if (97 <=? n)%N && (n <=? 102)%N then Some (n - 87)%N
  else None.

Definition unescapeChar (s : string) : option (ascii * string) :=
  match s with
  | EmptyString => None
  | String c rest =>
      if Ascii.eqb c "\"
      then match rest with
           | String "u" (String _ (String _ (String h (String l rest')))) =>
               match hexDigitValue h, hexDigitValue l with
               | Some x, Some y => Some (ascii_of_N (16 * x + y), rest')
               | _, _ => None
               end
           | String e rest' =>
               if Ascii.eqb e "\" then Some ("\"%char, rest')
               else if Ascii.eqb e dquote then Some (dquote, rest')
               else if Ascii.eqb e "b" then Some (ascii_of_N 8, rest')
               else if Ascii.eqb e "f" then Some (ascii_of_N 12, rest')
               else if Ascii.eqb e "n" then Some (ascii_of_N 10, rest')
               else if Ascii.eqb e "r" then Some (ascii_of_N 13, rest')
               else if Ascii.eqb e "t" then Some (ascii_of_N 9, rest')
               else None
           | EmptyString => None
           end
      else if Ascii.eqb c dquote then None
      else Some (c, rest)
  end.


(** The property that [JSON.stringify] prints for a property of an
    object, if any. *)
Definition printedProperty (p : string * Value) : list string :=
  match stringify (snd p) with
  | Some s => [quote (fst p) +:+ ":" +:+ s]
  | None => []
  end.

(** Induction on values through the arrays and objects they hold. *)
Section ValueInduction.

Variable P : Value -> Prop.
Hypothesis P_undefined : P VUndefined.
Hypothesis P_null : P VNull.
Hypothesis P_bool : forall b, P (VBool b).
Hypothesis P_num : forall n, P (VNum n).
Hypothesis P_str : forall s, P (VStr s).
Hypothesis P_arr : forall items, Forall P items -> P (VArr items).
Hypothesis P_obj : forall props, Forall (fun p => P (snd p)) props -> P (VObj props).

Fixpoint Value_nested_ind (v : Value) : P v :=
  match v with
  | VUndefined => P_undefined
  | VNull => P_null
  | VBool b => P_bool b
  | VNum n => P_num n
  | VStr s => P_str s
  | VArr items =>
      P_arr items
        ((fix all (l : list Value) : Forall P l :=
            match l with
            | [] => List.Forall_nil P
            | x :: rest => @List.Forall_cons _ _ x rest (Value_nested_ind x) (all rest)
            end) items)
  | VObj props =>
      P_obj props
        ((fix all (l : list (string * Value)) : Forall (fun p => P (snd p)) l :=
            match l with
            | [] => List.Forall_nil _
            | p :: rest => @List.Forall_cons _ _ p rest (Value_nested_ind (snd p)) (all rest)
            end) props)
  end.

End ValueInduction.

Section JsonInduction.

Variable P : Json -> Prop.
Hypothesis P_null : P JNull.
Hypothesis P_bool : forall b, P (JBool b).
Hypothesis P_num : forall n, P (JNum n).
Hypothesis P_str : forall s, P (JStr s).
Hypothesis P_arr : forall items, Forall P items -> P (JArr items).
Hypothesis P_obj : forall props, Forall (fun p => P (snd p)) props -> P (JObj props).

Fixpoint Json_nested_ind (j : Json) : P j :=
  match j with
  | JNull => P_null
  | JBool b => P_bool b
  | JNum n => P_num n
  | JStr s => P_str s
  | JArr items =>
      P_arr items
        ((fix all (l : list Json) : Forall P l :=
            match l with
            | [] => List.Forall_nil P
            | x :: rest => @List.Forall_cons _ _ x rest (Json_nested_ind x) (all rest)
            end) items)
  | JObj props =>
      P_obj props
        ((fix all (l : list (string * Json)) : Forall (fun p => P (snd p)) l :=
            match l with
            | [] => List.Forall_nil _
            | p :: rest => @List.Forall_cons _ _ p rest (Json_nested_ind (snd p)) (all rest)
            end) props)
  end.

End JsonInduction.

(** A value that a template literal can print. *)
Definition printable (v : Value) : bool :=
  match toString v with
  | Ok _ => true
  | Throw _ => false
  end.

(** A credential whose subject is present and holds as [cid] an object
    with a [toString] property of its own. *)
Definition credentialWithUnprintableCid : Value :=
  VObj [ ("issuer", VStr "did:agritrust:20230115-greenacres-1234");
         ("credentialSubject",
           VObj [ ("cid", VObj [ ("toString", VNum 1) ]);
                  ("batchId", VStr "batch-1") ]);
         ("proof",
           VObj [ ("created", VStr "2023-11-14T22:13:20.000Z");
                  ("signatureValue", VStr "00") ]) ].

(** The entry that [appendToTransparencyLog] builds in world [w]. *)
Definition newLogEntry (host : Host) (w : World) (vcDigest contentId : string) : LogEntry :=
  {| index := length (logOf w); digest := vcDigest;
     previousHash := digest <$> last (logOf w);
     timestamp := toISOString (clock host (dateReads w));
     cid := contentId |}.

(** The store with one more log entry. *)
Definition withLogEntry (s : Store) (e : LogEntry) : Store :=
  {| farmers := farmers s; batches := batches s; claims := claims s;
     codes := codes s; transparencyLog := transparencyLog s ++ [e];
     drafts := drafts s |}.

(** How many of the [count] calls of [setItem] from call number [from] on
    the storage accepts. *)
Definition acceptedWrites (host : Host) (from count : nat) : nat :=
  length (List.filter (fun n => negb (setItemFails host n)) (seq from count)).

(** The storage accepts the [count] calls of [setItem] from call number
    [from] on. *)
Definition acceptsWrites (host : Host) (from count : nat) : Prop :=
  forall n, (from <= n < from + count)%nat -> setItemFails host n = false.

(* ===================================================================== *)
(** ** [services/localDb]: the remaining accessors                        *)
(* ===================================================================== *)

(** [arr.find(p)] and [arr.filter(p)] for a predicate that may raise. *)
Fixpoint findR {A : Type} (p : A -> Result bool) (l : list A) : Result (option A) :=
  match l with
  | [] => Ok None
  | x :: rest => bindR (p x) (fun b => if b then Ok (Some x) else findR p rest)
  end.

Fixpoint filterR {A : Type} (p : A -> Result bool) (l : list A) : Result (list A) :=
  match l with
  | [] => Ok []
  | x :: rest =>
      bindR (p x) (fun b =>
      bindR (filterR p rest) (fun kept => Ok (if b then x :: kept else kept)))
  end.

(** [(x) => x.k === expected]. *)
Definition propEq (k : string) (expected : Value) (x : Value) : Result bool :=
  bindR (get x k) (fun v => Ok (strictEq v expected)).

Definition addFarmer (host : Host) (farmer : Farmer) : M unit :=
  farmers0 <- getFarmers ;;
  s <- getStore ;;
  setLocalStorageItem host
    {| farmers := farmers0 ++ [farmer]; batches := batches s;
       claims := claims s; codes := codes s;
       transparencyLog := transparencyLog s; drafts := drafts s |}.

(** The identifier is a string by the signature; the claims page passes
    what it read from the lookup, which can be [undefined]. *)
Definition getBatchById (batchId : Value) : M (option Value) :=
  bs <- getBatches ;; liftR (findR (propEq "id" batchId) bs).

Definition getClaimsByBatchId (batchId : Value) : M (list Value) :=
  cs <- getClaims ;; liftR (filterR (propEq "batchId" batchId) cs).



(** The credential that [issueVerifiableCredential] builds from the text
    of its converted arguments. *)
Definition credentialOf (timestamp uuid farmerText cidText batchText : string)
    (cid farmerId batchId : Value) : Value :=
  let issuerDid := "did:agritrust:" +:+ farmerText in
  let mockSignature :=
    sha256 (cidText +:+ "-" +:+ timestamp +:+ "-" +:+ issuerDid +:+ "-"
              +:+ batchText +:+ "-secret-key") in
  VObj
    [ ("@context", VArr [VStr "https://www.w3.org/2018/credentials/v1"]);
      ("type", VArr [VStr "VerifiableCredential"; VStr "AgriTrustBatchCredential"]);
      ("id", VStr ("vc:" +:+ uuid));
      ("issuer", VStr issuerDid);
      ("issuanceDate", VStr timestamp);
      ("credentialSubject",
        VObj [ ("id", VStr ("did:agritrust:batch:" +:+ batchText));
               ("cid", cid);
               ("batchId", batchId);
               ("farmerId", farmerId) ]);
      ("proof",
        VObj [ ("type", VStr "Ed25519Signature2020");
               ("created", VStr timestamp);
               ("verificationMethod", VStr (issuerDid +:+ "#key1"));
               ("proofPurpose", VStr "assertionMethod");
               ("signatureValue", VStr mockSignature) ]) ].

(** [issueVerifiableCredential] as it runs when the caller passes what it
    read from the lookup and from a stored batch: each argument is
    converted where a template literal uses it, in the order of the
    statements, and stored as it is in [credentialSubject].  The clock is
    read first; the identifier is drawn when the object is built, after
    the conversions. *)
Definition issueVerifiableCredentialOf (host : Host) (cid farmerId batchId : Value)
  : M Issued :=
  timestamp <- nowISO host ;;
  farmerText <- liftR (toString farmerId) ;;
  cidText <- liftR (toString cid) ;;
  batchText <- liftR (toString batchId) ;;
  uuid <- uuidv4 host ;;
  let vcObject :=
    credentialOf timestamp uuid farmerText cidText batchText cid farmerId batchId in
  vcDigest <- liftR (sha256OfJson vcObject) ;;
  ret {| vcObject := vcObject; vcDigest := vcDigest |}.

(** [checkTransparencyLog] as it runs on what the claims page read from
    the lookup. *)
Definition checkTransparencyLogOf (vcDigest expectedCid : Value) : M LogCheck :=
  log <- getTransparencyLog ;;
  match find (fun e => strictEq (VStr (digest e)) vcDigest) log with
  | None => ret {| exists_ := false; consistent := false |}
  | Some entry =>
      if negb (strictEq (VStr (cid entry)) expectedCid)
      then ret {| exists_ := true; consistent := false |}
      else ret {| exists_ := true; consistent := true |}
  end.

(* ===================================================================== *)
(** ** [pages/ClaimsPage]: what a consumer code leads to                  *)
(* ===================================================================== *)

Record VerificationStatus : Type := {
  vcValid : bool;
  logExists : bool;
  logConsistent : bool;
  vcMessage : string;
  logMessage : string
}.

(** What [fetchData] leaves on the page: the error it set, or the batch,
    its claims and the verification status. *)
Inductive Fetched : Type :=
| FetchError (message : string)
| FetchDone (batchData : Value) (claims : list Value) (status : VerificationStatus).

(** The body of the [try] block of [fetchData]. *)
Definition fetchBody (host : Host) (code : string) : M Fetched :=
  codeMapping <- getCodeMapping code ;;
  match codeMapping with
  | None => ret (FetchError "Invalid or unknown product hash key. No claims found.")
  | Some codeMapping =>
      fetchedBatch <- getBatchById (foundBatchId codeMapping) ;;
      match fetchedBatch with
      | None => ret (FetchError "Batch data not found for this product.")
      | Some fetchedBatch =>
          if negb (truthy fetchedBatch)
          then ret (FetchError "Batch data not found for this product.")
          else
            fetchedClaims <- getClaimsByBatchId (foundBatchId codeMapping) ;;
            farmerId <- liftR (get fetchedBatch "farmerId") ;;
            batchId <- liftR (get fetchedBatch "id") ;;
            issued <- issueVerifiableCredentialOf host (foundCid codeMapping)
                        farmerId batchId ;;
            isVcValid <- liftR (validateVcSignature (vcObject issued)) ;;
            check <- checkTransparencyLogOf (foundVcDigest codeMapping)
                       (foundCid codeMapping) ;;
            ret (FetchDone fetchedBatch fetchedClaims
                   {| vcValid := isVcValid;
                      logExists := exists_ check;
                      logConsistent := consistent check;
                      vcMessage := if isVcValid then "VC signature is valid."
                                   else "VC signature is INVALID.";
                      logMessage :=
                        if exists_ check && consistent check
                        then "VC digest found and consistent in transparency log."
                        else if exists_ check && negb (consistent check)
                             then "VC digest found but inconsistent in transparency log!"
                             else "VC digest NOT found in transparency log." |})
      end
  end.

(** [fetchData] for the route parameter [code] ([None] when the route has
    none). *)
Definition fetchData (host : Host) (code : option string) (w : World) : Fetched * World :=
  match code with
  | None => (FetchError "No product hash key provided.", w)
  | Some code =>
      if String.eqb code "" then (FetchError "No product hash key provided.", w)
      else
        match fetchBody host code w with
        | (Ok fetched, w') => (fetched, w')
        | (Throw err, w') =>
            (FetchError (if String.eqb (message err) ""
                         then "Failed to fetch claims data."
                         else message err), w')
        end
  end.

(* ===================================================================== *)
(** ** [pages/FarmerInputPage]: reading a nested field                    *)
(* ===================================================================== *)

(** [s.split(c)]: the pieces between the occurrences of [c]; never
    empty. *)
Fixpoint splitOn (c : ascii) (s : string) : list string :=
  match s with
  | EmptyString => [""]
  | String a rest =>
      if Ascii.eqb a c then "" :: splitOn c rest
      else match splitOn c rest with
           | [] => [String a ""]
           | piece :: pieces => String a piece :: pieces
           end
  end.

(** [path.split('.').reduce((acc, part) => acc && acc[part], obj)]. *)
Definition getNestedStep (acc : Result Value) (part : string) : Result Value :=
  bindR acc (fun acc => if truthy acc then get acc part else Ok acc).

Definition getNestedValue (obj : Value) (path : string) : Result Value :=
  fold_left getNestedStep (splitOn "." path) (Ok obj).

(** A host on which nothing raises. *)
Definition quietHost : Host :=
  {| clock := fun n => 1700000000000 + Z.of_nat n;
     localTZA := 19800000;
     uuids := fun n => "uuid-" +:+ numberToString (Z.of_nat n);
     randoms := fun n => 234 + Z.of_nat n;
     raises := fun _ => None;
     setItemFails := fun _ => false;
     capitalizeBeyondAscii := fun word => word |}.

(** The batch as it was hashed: the stored batch with the two digests
    blanked. *)
Definition blankDigests (batch : list (string * Value)) : list (string * Value) :=
  setProp "vcDigest" (VStr "") (setProp "cid" (VStr "") batch).

(** The answer of [checkTransparencyLog] as a function of the log. *)
Definition logAnswer (log : list LogEntry) (vcDigest expectedCid : string) : LogCheck :=
  match find (fun e => String.eqb (digest e) vcDigest) log with
  | None => {| exists_ := false; consistent := false |}
  | Some entry =>
      if negb (String.eqb (cid entry) expectedCid)
      then {| exists_ := true; consistent := false |}
      else {| exists_ := true; consistent := true |}
  end.

(** The exceptions that reading a property raises. *)
Definition cannotRead (e : Exn) : Prop :=
  exists what k,
    e = TypeError ("Cannot read properties of " +:+ what +:+ " (reading '" +:+ k +:+ "')").

Definition unknownCode : string := "Invalid or unknown product hash key. No claims found.".

Definition foundConsistent : string := "VC digest found and consistent in transparency log.".
Definition foundInconsistent : string := "VC digest found but inconsistent in transparency log!".
Definition notFound : string := "VC digest NOT found in transparency log.".

Definition farmerMissing : string := "Farmer details missing for submission.".

(** One store extends another: the farmers are the same, and batches,
    claims and log entries were only added behind the ones that were
    there. *)
Definition extends (before after : Store) : Prop :=
  farmers after = farmers before
  /\ batches before `prefix_of` batches after
  /\ claims before `prefix_of` claims after
  /\ transparencyLog before `prefix_of` transparencyLog after.

Definition extendsM {A : Type} (m : M A) : Prop :=
  forall w, extends (store w) (store (snd (m w))).

(** The log after is the log before, or the log before with one well
    linked entry behind it. *)
Definition logStep (before after : list LogEntry) : Prop :=
  after = before
  \/ exists e, after = (before ++ [e])%list
               /\ index e = length before
               /\ previousHash e = digest <$> last before.

Definition logStepM {A : Type} (m : M A) : Prop :=
  forall w, logStep (logOf w) (logOf (snd (m w))).

Definition keepsLog {A : Type} (m : M A) : Prop :=
  forall w, logOf (snd (m w)) = logOf w.

(** [/^AGRITRUST-\d{6}-\d{4}$/.test(s)]: the shape of a consumer code. *)
Definition isDigit (c : ascii) : bool :=
  let n := N_of_ascii c in (48 <=? n)%N && (n <=? 57)%N.

Fixpoint allDigits (s : string) : bool :=
  match s with
  | EmptyString => true
  | String c rest => isDigit c && allDigits rest
  end.

Definition matchesConsumerCode (s : string) : bool :=
  String.eqb (substring 0 10 s) "AGRITRUST-"
  && allDigits (substring 10 6 s)
  && String.eqb (substring 16 1 s) "-"
  && allDigits (substring 17 4 s)
  && Nat.eqb (String.length s) 21.

(** [obj[k] = v] when [obj] is an object. *)
Definition setIn (obj : Value) (k : string) (v : Value) : Value :=
  match obj with
  | VObj props => VObj (setProp k v props)
  | _ => obj
  end.

(** The credential after [vc.proof.signatureValue = v]. *)
Definition withSignature (vc v : Value) : Value :=
  setIn vc "proof" (setIn (optGet vc "proof") "signatureValue" v).

(** The checks that the proofs about numerals run over a whole range. *)
Definition twoDigitsOk (n : nat) : bool :=
  let s := padStart 2 "0" (numberToString (Z.of_nat n)) in
  Nat.eqb (String.length s) 2 && allDigits s.

Definition fourDigitsOk (n : nat) : bool :=
  let s := numberToString (1000 + Z.of_nat n) in
  Nat.eqb (String.length s) 4 && allDigits s.


(** Computations that do not call [setItem]. *)
Definition keepsWrites {A : Type} (m : M A) : Prop :=
  forall w, writes (snd (m w)) = writes w.

(** The store with one more batch, with more claims, with a code. *)
Definition withBatch (s : Store) (b : Json) : Store :=
  {| farmers := farmers s; batches := batches s ++ [b]; claims := claims s;
     codes := codes s; transparencyLog := transparencyLog s; drafts := drafts s |}.

Definition withClaims (s : Store) (cs : list Json) : Store :=
  {| farmers := farmers s; batches := batches s; claims := claims s ++ cs;
     codes := codes s; transparencyLog := transparencyLog s; drafts := drafts s |}.

Definition withCode (s : Store) (code : string) (mapping : CodeMapping) : Store :=
  {| farmers := farmers s; batches := batches s; claims := claims s;
     codes := <[code := mapping]> (codes s);
     transparencyLog := transparencyLog s; drafts := drafts s |}.

Definition withoutDraft (s : Store) (farmerId : string) : Store :=
  {| farmers := farmers s; batches := batches s; claims := claims s;
     codes := codes s; transparencyLog := transparencyLog s;
     drafts := delete farmerId (drafts s) |}.

(** The properties of an object as they are read back from the storage. *)
Definition storedProps (props : list (string * Value)) : list (string * Value) :=
  flat_map (fun p => match toJson (snd p) with
                     | Some j => [(fst p, toValue j)]
                     | None => []
                     end) props.


(* ===================================================================== *)
(** ** [constants]: farmer identifiers                                    *)
(* ===================================================================== *)

Definition isLower (c : ascii) : bool :=
  let n := N_of_ascii c in (97 <=? n)%N && (n <=? 122)%N.

Definition isUpper (c : ascii) : bool :=
  let n := N_of_ascii c in (65 <=? n)%N && (n <=? 90)%N.

Fixpoint allLower (s : string) : bool :=
  match s with
  | EmptyString => true
  | String c rest => isLower c && allLower rest
  end.

(** The pieces of a match from the left, each giving what is left of the
    string: exactly [n] digits, one given character, a run of lowercase
    letters as long as it gets. *)
Fixpoint dropDigits (n : nat) (s : string) : option string :=
  match n, s with
  | O, _ => Some s
  | S n', String c rest => if isDigit c then dropDigits n' rest else None
  | S _, EmptyString => None
  end.

Definition dropChar (c : ascii) (s : string) : option string :=
  match s with
  | String a rest => if Ascii.eqb a c then Some rest else None
  | EmptyString => None
  end.

Fixpoint dropLower (s : string) : string :=
  match s with
  | String c rest => if isLower c then dropLower rest else s
  | EmptyString => ""
  end.

(** [[a-z]+]. *)
Definition dropLower1 (s : string) : option string :=
  match s with
  | String c rest => if isLower c then Some (dropLower rest) else None
  | EmptyString => None
  end.

(** [FARMER_ID_REGEX.test(s)], the pattern being
    [/^\d{8}-[a-z]+-\d{4}$/].  What follows the run of letters is a
    hyphen, which is no letter, so the longest run is the only one that
    can match. *)
Definition matchesFarmerId (s : string) : bool :=
  match dropDigits 8 s with
  | None => false
  | Some afterDate =>
      match dropChar "-" afterDate with
      | None => false
      | Some fromName =>
          match dropLower1 fromName with
          | None => false
          | Some afterName =>
              match dropChar "-" afterName with
              | None => false
              | Some fromRand =>
                  match dropDigits 4 fromRand with
                  | None => false
                  | Some rest => String.eqb rest ""
                  end
              end
          end
      end
  end.

(** [s.split(/(?=[A-Z])/)]: a new piece starts at every capital letter
    but the first character. *)
Fixpoint splitBeforeUpper (s : string) : list string :=
  match s with
  | EmptyString => [""]
  | String a rest =>
      match rest with
      | EmptyString => [String a ""]
      | String b _ =>
          if isUpper b then String a "" :: splitBeforeUpper rest
          else match splitBeforeUpper rest with
               | [] => [String a ""]
               | piece :: pieces => String a piece :: pieces
               end
      end
  end.

(** [c.toUpperCase()] on a character of ASCII. *)
Definition toUpperCase (c : ascii) : ascii :=
  if isLower c then ascii_of_N (N_of_ascii c - 32) else c.

Definition isAscii (c : ascii) : bool := (N_of_ascii c <? 128)%N.

(** [word.charAt(0).toUpperCase() + word.slice(1)]: on a word that
    starts with a character of ASCII that character is mapped; how a word
    that starts with another character comes out is the platform's
    answer. *)
Definition capitalize (host : Host) (word : string) : string :=
  match word with
  | EmptyString => ""
  | String c rest =>
      if isAscii c then String (toUpperCase c) rest
      else capitalizeBeyondAscii host word
  end.

(** [deriveFarmerInfoFromId]: the pair of [name] and [dateOfJoining].
    The date part of the identifiers that the program builds and accepts
    is made of digits, so that cutting it by position is cutting it by
    character. *)
Definition deriveFarmerInfoFromId (host : Host) (farmerId : string) : string * string :=
  match splitOn "-" farmerId with
  | [datePart; namePart; _] =>
      let year := substring 0 4 datePart in
      let month := substring 4 2 datePart in
      let day := substring 6 2 datePart in
      let dateOfJoining' := year +:+ "-" +:+ month +:+ "-" +:+ day in
      let name' := join " " (map (capitalize host) (splitBeforeUpper namePart)) in
      (name', dateOfJoining')
  | _ => ("", "")
  end.

(* ===================================================================== *)
(** ** [pages/LoginPage]: signing in and registering                      *)
(* ===================================================================== *)

(** What [handleFarmerLogin] reads from the form: the text typed, and
    whether [trim()] leaves nothing of it. *)
Record LoginForm : Type := {
  farmerIdInput : string;
  farmerIdIsBlank : bool
}.

(** What [handleGenerateNewFarmerId] reads from the form: whether [trim()]
    leaves nothing of the name typed, and the name in lower case with its
    white space removed. *)
Record RegistrationForm : Type := {
  farmerNameIsBlank : bool;
  sanitizedName : string
}.

(** How a handler of the page ends: with a message under the identifier
    field, with a message for the whole form, or signed in as a farmer. *)
Inductive LoginOutcome : Type :=
| FarmerIdError (message : string)
| GeneralError (message : string)
| LoggedIn (userId : string).

Section Login.

Variable host : Host.

(** [handleFarmerLogin]; the page has no handler for an exception raised
    here. *)
Definition handleFarmerLogin (form : LoginForm) : M LoginOutcome :=
  if farmerIdIsBlank form then ret (FarmerIdError "Farmer ID cannot be empty.")
  else if negb (matchesFarmerId (farmerIdInput form))
  then ret (FarmerIdError "Invalid Farmer ID format. Expected YYYYMMDD-name-RAND4.")
  else
    farmer <- getFarmerById (farmerIdInput form) ;;
    match farmer with
    | None =>
        ret (FarmerIdError "Farmer ID not found. Please check your ID or generate a new one.")
    | Some _ => ret (LoggedIn (farmerIdInput form))
    end.

(** The [while] loop that looks for an identifier not yet taken, with
    [remaining] draws left; [stem] is the identifier up to the random
    suffix. *)
Fixpoint idAttempts (remaining : nat) (stem newFarmerId : string) : M string :=
  match remaining with
  | O => ret newFarmerId
  | S remaining' =>
      taken <- getFarmerById newFarmerId ;;
      match taken with
      | None => ret newFarmerId
      | Some _ =>
          r <- randomBelow host 9000 ;;
          let newRand := numberToString (1000 + r) in
          idAttempts remaining' stem (stem +:+ newRand)
      end
  end.

(** The body of the [try] block of [handleGenerateNewFarmerId]. *)
Definition register (sanitizedName' : string) : M string :=
  date <- newDate host ;;
  let localTime := date + localTZA host in
  let year := numberToString (YearFromTime localTime) in
  let month := padStart 2 "0" (numberToString (MonthFromTime localTime + 1)) in
  let day := padStart 2 "0" (numberToString (DateFromTime localTime)) in
  r <- randomBelow host 9000 ;;
  let rand := numberToString (1000 + r) in
  let stem := year +:+ month +:+ day +:+ "-" +:+ sanitizedName' +:+ "-" in
  newFarmerId <- idAttempts 10 stem (stem +:+ rand) ;;
  taken <- getFarmerById newFarmerId ;;
  match taken with
  | Some _ =>
      throw (Error "Could not generate a unique Farmer ID after multiple attempts. Please try again.")
  | None =>
      let info := deriveFarmerInfoFromId host newFarmerId in
      createdAt' <- nowISO host ;;
      updatedAt' <- nowISO host ;;
      addFarmer host {| id := newFarmerId;
                   name := fst info;
                   dateOfJoining := snd info;
                   location := {| village := "Unknown"; district := "Unknown";
                                  state := "Unknown"; gps := None |};
                   createdAt := createdAt';
                   updatedAt := updatedAt' |} ;;
      ret newFarmerId
  end.

Definition handleGenerateNewFarmerId (form : RegistrationForm) (w : World)
  : LoginOutcome * World :=
  if farmerNameIsBlank form then (FarmerIdError "Farmer name cannot be empty.", w)
  else
    match register (sanitizedName form) w with
    | (Ok newFarmerId, w') => (LoggedIn newFarmerId, w')
    | (Throw err, w') =>
        (GeneralError (if String.eqb (message err) ""
                       then "Failed to generate new Farmer ID."
                       else message err), w')
    end.

End Login.

(** The identifiers of the registered farmers. *)
Definition farmerIds (w : World) : list string := map id (farmers (store w)).


(** The descent that [getNestedValue] makes through the own properties of
    objects. *)
Fixpoint descend (v : Value) (parts : list string) : Value :=
  match parts with
  | [] => v
  | part :: rest => if truthy v then descend (optGet v part) rest else v
  end.

(** The descent reads properties of objects only, and none under a name
    that every object inherits. *)
Fixpoint readsObjects (v : Value) (parts : list string) : bool :=
  match parts with
  | [] => true
  | part :: rest =>
      if truthy v
      then match v with
           | VObj props => negb (inheritedName part) && readsObjects (lookupProp part props) rest
           | _ => false
           end
      else true
  end.

Fixpoint noChar (c : ascii) (s : string) : bool :=
  match s with
  | EmptyString => true
  | String a rest => negb (Ascii.eqb a c) && noChar c rest
  end.

(** The identifier up to its random suffix, for the local date that the
    next [new Date()] gives. *)
Definition farmerIdStem (host : Host) (w : World) (sanitizedName' : string) : string :=
  let localTime := clock host (dateReads w) + localTZA host in
  let year := numberToString (YearFromTime localTime) in
  let month := padStart 2 "0" (numberToString (MonthFromTime localTime + 1)) in
  let day := padStart 2 "0" (numberToString (DateFromTime localTime)) in
  year +:+ month +:+ day +:+ "-" +:+ sanitizedName' +:+ "-".

(** The identifier that registration tries at its [i]-th draw: the first
    one is number 0, the ten of the loop follow. *)
Definition candidateFarmerId (host : Host) (w : World) (sanitizedName' : string) (i : nat)
  : string :=
  farmerIdStem host w sanitizedName'
    +:+ numberToString (1000 + randoms host (randomReads w + i) mod 9000).

(** The record that registration stores under an identifier when the
    clock was read [reads] times before the two time stamps are taken. *)
Definition registeredFarmer (host : Host) (reads : nat) (newFarmerId : string) : Farmer :=
  {| id := newFarmerId;
     name := fst (deriveFarmerInfoFromId host newFarmerId);
     dateOfJoining := snd (deriveFarmerInfoFromId host newFarmerId);
     location := {| village := "Unknown"; district := "Unknown";
                    state := "Unknown"; gps := None |};
     createdAt := toISOString (clock host reads);
     updatedAt := toISOString (clock host (S reads)) |}.

(** The store with one more farmer. *)
Definition withFarmer (s : Store) (f : Farmer) : Store :=
  {| farmers := farmers s ++ [f]; batches := batches s; claims := claims s;
     codes := codes s; transparencyLog := transparencyLog s; drafts := drafts s |}.

(** Sample data: a form with a name, and a world in which the first
    identifier drawn for it is taken. *)
Definition raviForm : RegistrationForm :=
  {| farmerNameIsBlank := false; sanitizedName := "ravi" |}.

Definition raviTaken : Farmer :=
  {| id := "20231115-ravi-1234"; name := "Ravi"; dateOfJoining := "2023-11-15";
     location := {| village := "Unknown"; district := "Unknown";
                    state := "Unknown"; gps := None |};
     createdAt := "2023-11-15T00:00:00.000Z";
     updatedAt := "2023-11-15T00:00:00.000Z" |}.

Definition nameTakenWorld : World :=
  {| store := {| farmers := [greenAcres; raviTaken]; batches := []; claims := [];
                 codes := ∅; transparencyLog := []; drafts := ∅ |};
     dateReads := 0; uuidReads := 0; randomReads := 0; writes := 0 |}.

Definition noUniqueFarmerId : string :=
  "Could not generate a unique Farmer ID after multiple attempts. Please try again.".



Definition farmerIdNotFound : string :=
  "Farmer ID not found. Please check your ID or generate a new one.".


(* ===================================================================== *)
(** * Properties                                                          *)
(* ===================================================================== *)

Arguments sha256 : simpl never.
Arguments toISOString : simpl never.

(** ** The platform models against known values *)

Example round_constants_ends :
  length K = 64%nat /\ nth 0 K 0 = 1116352408 /\ nth 63 K 0 = 3329325298.
Proof. vm_compute. repeat split; reflexivity. Qed.

Example sha256_empty :
  sha256 "" = "e3b0c44298fc1c149afbf4c8996fb92427ae41e4649b934ca495991b7852b855".
Proof. vm_compute. reflexivity. Qed.

Example sha256_abc :
  sha256 "abc" = "ba7816bf8f01cfea414140de5dae2223b00361a396177a9cb410ff61f20015ad".
Proof. vm_compute. reflexivity. Qed.

Example sha256_two_blocks :
  sha256 "abcdbcdecdefdefgefghfghighijhijkijkljklmklmnlmnomnopnopq"
  = "248d6a61d20638b8e5c026930c3e6039a33ce45964ff2167f6ecedd419db06c1".
Proof. vm_compute. reflexivity. Qed.

Example toISOString_epoch : toISOString 0 = "1970-01-01T00:00:00.000Z".
Proof. vm_compute. reflexivity. Qed.

Example toISOString_2023 : toISOString 1700000000000 = "2023-11-14T22:13:20.000Z".
Proof. vm_compute. reflexivity. Qed.

Example toISOString_leap_day : toISOString 1709251199999 = "2024-02-29T23:59:59.999Z".
Proof. vm_compute. reflexivity. Qed.

Example toISOString_before_epoch : toISOString (-1) = "1969-12-31T23:59:59.999Z".
Proof. vm_compute. reflexivity. Qed.

Example toISOString_expanded_year :
  toISOString 253402300800000 = "+010000-01-01T00:00:00.000Z".
Proof. vm_compute. reflexivity. Qed.

Example stringify_skips_undefined :
  stringify (VObj [("a", VNum 1); ("b", VArr [VStr "x"; VUndefined; VNum (-20)]);
                   ("c", VUndefined); ("d", VObj [])])
  = Some (String.concat "" ["{"; quote "a"; ":1,"; quote "b"; ":["; quote "x";
                            ",null,-20],"; quote "d"; ":{}}"]).
Proof. vm_compute. reflexivity. Qed.

(** ** Strings that are never empty *)

Lemma eqb_empty_false_of_length (s : string) (n : nat) :
  String.length s = S n -> String.eqb s "" = false.
Proof. destruct s; [discriminate | reflexivity]. Qed.

(** A digest is 64 hexadecimal characters. *)
Lemma sha256_length (message : string) : String.length (sha256 message) = 64%nat.
Proof.
  unfold sha256, hex_state.
  destruct (hash_words _) as [[[[[[[a b] c] d] e] f] g] h].
  reflexivity.
Qed.

Lemma sha256_nonempty (message : string) : String.eqb (sha256 message) "" = false.
Proof. exact (eqb_empty_false_of_length _ _ (sha256_length message)). Qed.

Lemma append_nonempty_r (s1 s2 : string) :
  String.eqb s2 "" = false -> String.eqb (s1 +:+ s2) "" = false.
Proof. destruct s1; [trivial | reflexivity]. Qed.

(** An ISO timestamp always carries its separators. *)
Lemma toISOString_nonempty (t : Z) : String.eqb (toISOString t) "" = false.
Proof. unfold toISOString. apply append_nonempty_r. reflexivity. Qed.

Lemma eqb_refl_true (s : string) : String.eqb s s = true.
Proof. apply String.eqb_refl. Qed.


(** ** Texts that can be read back *)

Lemma append_cons (c : ascii) (p s : string) : String c p +:+ s = String c (p +:+ s).
Proof. reflexivity. Qed.

Lemma append_nil_l (s : string) : "" +:+ s = s.
Proof. reflexivity. Qed.

Lemma append_assoc3 (a b c : string) : (a +:+ b) +:+ c = a +:+ (b +:+ c).
Proof.
  induction a as [| x a IH]; [reflexivity |].
  rewrite !append_cons, IH. reflexivity.
Qed.

Lemma append_inv_head (p x y : string) : p +:+ x = p +:+ y -> x = y.
Proof.
  induction p as [| c p IH]; [trivial |].
  rewrite !append_cons. intros [= H]. exact (IH H).
Qed.

(** What [escapeChar] prints for a character reads back as that
    character, whatever follows. *)
Lemma unescapeChar_escapeChar (c : ascii) (rest : string) :
  unescapeChar (escapeChar c +:+ rest) = Some (c, rest).
Proof.
  destruct c as [b0 b1 b2 b3 b4 b5 b6 b7].
  destruct b0, b1, b2, b3, b4, b5, b6, b7; reflexivity.
Qed.

Lemma unescapeChar_dquote (rest : string) : unescapeChar (String dquote rest) = None.
Proof. reflexivity. Qed.

(** The body of a quoted string determines the string and what follows
    the closing quote. *)
Lemma escape_inj_tail (a b r r' : string) :
  escape a +:+ String dquote r = escape b +:+ String dquote r' -> a = b /\ r = r'.
Proof.
  revert b. induction a as [| c a IH]; intros [| c' b] H; cbn [escape] in H.
  - rewrite !append_nil_l in H. injection H as H. auto.
  - rewrite append_nil_l, append_assoc3 in H.
    apply (f_equal unescapeChar) in H.
    rewrite unescapeChar_dquote, unescapeChar_escapeChar in H. discriminate.
  - rewrite append_nil_l, append_assoc3 in H.
    apply (f_equal unescapeChar) in H.
    rewrite unescapeChar_dquote, unescapeChar_escapeChar in H. discriminate.
  - rewrite !append_assoc3 in H.
    apply (f_equal unescapeChar) in H.
    rewrite !unescapeChar_escapeChar in H. injection H as -> H.
    destruct (IH b H) as [-> ->]. auto.
Qed.

Lemma quote_inj_tail (a b r r' : string) :
  quote a +:+ r = quote b +:+ r' -> a = b /\ r = r'.
Proof.
  unfold quote. rewrite !append_assoc3, !append_cons, !append_nil_l.
  intros [= H]. exact (escape_inj_tail a b r r' H).
Qed.

Lemma quote_inj (a b : string) : quote a = quote b -> a = b.
Proof.
  intros H. apply (f_equal (fun s => s +:+ "")) in H.
  exact (proj1 (quote_inj_tail a b "" "" H)).
Qed.

(** ** [join] and the text of an object *)



Lemma stringify_obj (props : list (string * Value)) :
  stringify (VObj props) = Some ("{" +:+ join "," (flat_map printedProperty props) +:+ "}").
Proof. reflexivity. Qed.



(* ===================================================================== *)
(** ** Credentials: issuance and verification                             *)
(* ===================================================================== *)

Section Credentials.

Variable host : Host.

(** Issuance reads the clock once, draws one identifier, and is the pure
    body at those two values; it never raises. *)
Lemma issueVerifiableCredential_unfold (cid farmerId batchId : string) (w : World) :
  issueVerifiableCredential host cid farmerId batchId w
  = (issueVerifiableCredentialAt (toISOString (clock host (dateReads w)))
       (uuids host (uuidReads w)) cid farmerId batchId,
     {| store := store w; dateReads := S (dateReads w);
        uuidReads := S (uuidReads w); randomReads := randomReads w;
        writes := writes w |}).
Proof. reflexivity. Qed.

Lemma issueVerifiableCredentialAt_ok (timestamp uuid cid farmerId batchId : string) :
  exists issued,
    issueVerifiableCredentialAt timestamp uuid cid farmerId batchId = Ok issued.
Proof. eexists. reflexivity. Qed.

(** The verifier accepts what the issuer builds from a non-empty
    timestamp. *)
Lemma validate_issued_at (timestamp uuid cid farmerId batchId : string) (issued : Issued) :
  String.eqb timestamp "" = false ->
  issueVerifiableCredentialAt timestamp uuid cid farmerId batchId = Ok issued ->
  validateVcSignature (vcObject issued) = Ok true.
Proof.
  intros Hts Hissue. injection Hissue as <-.
  unfold validateVcSignature. cbn.
  rewrite sha256_nonempty, Hts. cbn.
  rewrite eqb_refl_true. reflexivity.
Qed.

End Credentials.

(** C1.  Round trip: for every content digest, farmer identifier and batch
    identifier, in every state of the world and for whatever the clock
    and the identifier source return, [issueVerifiableCredential] returns a
    credential and [validateVcSignature] returns [true] on it. *)
Theorem validate_after_issue (host : Host) (cid farmerId batchId : string) (w : World) :
  exists issued w',
    issueVerifiableCredential host cid farmerId batchId w = (Ok issued, w')
    /\ validateVcSignature (vcObject issued) = Ok true.
Proof.
  rewrite issueVerifiableCredential_unfold.
  destruct (issueVerifiableCredentialAt_ok (toISOString (clock host (dateReads w)))
              (uuids host (uuidReads w)) cid farmerId batchId) as [issued Hissued].
  rewrite Hissued. eexists _, _. split; [reflexivity |].
  eapply validate_issued_at; [apply toISOString_nonempty | exact Hissued].
Qed.

(** *** Re-issuance *)

Lemma string_neq_of_eqb (a b : string) : String.eqb a b = false -> a <> b.
Proof. intros H. apply String.eqb_neq. exact H. Qed.

(** Two issuances in a row for the same [cid], [farmerId] and [batchId]
    that capture the same timestamp return different credential objects and
    different digests: the [id] of a credential is drawn afresh. *)
Lemma reissue_same_timestamp_differs :
  exists a b w1 w2,
    issueVerifiableCredential frozenClockHost "cid" "20230115-greenacres-1234" "batch-1"
      initialWorld = (Ok a, w1)
    /\ issueVerifiableCredential frozenClockHost "cid" "20230115-greenacres-1234" "batch-1"
         w1 = (Ok b, w2)
    /\ optGet (vcObject a) "issuanceDate" = optGet (vcObject b) "issuanceDate"
    /\ optGet (optGet (vcObject a) "proof") "created"
       = optGet (optGet (vcObject b) "proof") "created"
    /\ vcObject a <> vcObject b
    /\ vcDigest a <> vcDigest b.
Proof.
  destruct (issueVerifiableCredentialAt_ok "2023-11-14T22:13:20.000Z"
              "1b9d6bcd-bbfd-4b2d-9b5d-ab8dfbbd4bed"
              "cid" "20230115-greenacres-1234" "batch-1") as [a Ha].
  destruct (issueVerifiableCredentialAt_ok "2023-11-14T22:13:20.000Z"
              "6ec0bd7f-11c0-43da-975e-2a8ad9ebae0b"
              "cid" "20230115-greenacres-1234" "batch-1") as [b Hb].
  exists a, b,
    {| store := emptyStore; dateReads := 1; uuidReads := 1; randomReads := 0; writes := 0 |},
    {| store := emptyStore; dateReads := 2; uuidReads := 2; randomReads := 0; writes := 0 |}.
  rewrite !issueVerifiableCredential_unfold.
  change (toISOString (clock frozenClockHost _)) with (toISOString 1700000000000).
  rewrite toISOString_2023. cbn [uuids frozenClockHost dateReads uuidReads initialWorld Nat.eqb].
  rewrite Ha, Hb.
  split; [reflexivity |]. split; [reflexivity |].
  vm_compute in Ha, Hb. injection Ha as <-. injection Hb as <-.
  cbn [vcObject vcDigest].
  split; [reflexivity |]. split; [reflexivity |].
  split.
  - intros H. injection H as H. discriminate H.
  - apply string_neq_of_eqb. vm_compute. reflexivity.
Qed.

(** The JSON text of a credential determines the identifier drawn for
    it. *)
Lemma credential_text_determines_uuid
    (timestamp uuid1 uuid2 cid farmerId batchId : string) (a b : Issued) :
  issueVerifiableCredentialAt timestamp uuid1 cid farmerId batchId = Ok a ->
  issueVerifiableCredentialAt timestamp uuid2 cid farmerId batchId = Ok b ->
  stringify (vcObject a) = stringify (vcObject b) ->
  uuid1 = uuid2.
Proof.
  intros Ha Hb. injection Ha as <-. injection Hb as <-. cbn [vcObject].
  set (signature := sha256 _).
  intros H. apply (f_equal (default "")) in H. revert H.
  rewrite !stringify_obj. cbn [default flat_map app].
  unfold printedProperty. cbn [fst snd stringify app join map flat_map].
  rewrite !append_assoc3. intros H.
  repeat (apply append_inv_head in H).
  apply quote_inj_tail in H as [H _].
  exact (append_inv_head "vc:" uuid1 uuid2 H).
Qed.

(** C3, as the code has it.  The result of an issuance is a function of
    [cid], [farmerId], [batchId], the timestamp captured and the identifier
    drawn, and of nothing else in the world.  Two issuances that capture
    the same timestamp agree on every field of the credential but [id];
    the credential objects are identical exactly when the identifiers
    drawn are, and so are the JSON texts of which the digests are the
    SHA-256; with the same identifier the digests are identical. *)
Theorem issue_determined_by_timestamp_and_uuid
    (host1 host2 : Host) (w1 w2 : World) (cid farmerId batchId : string) :
  toISOString (clock host1 (dateReads w1)) = toISOString (clock host2 (dateReads w2)) ->
  exists a b texta textb,
    fst (issueVerifiableCredential host1 cid farmerId batchId w1) = Ok a
    /\ fst (issueVerifiableCredential host2 cid farmerId batchId w2) = Ok b
    /\ (forall k, k <> "id" -> optGet (vcObject a) k = optGet (vcObject b) k)
    /\ optGet (vcObject a) "id" = VStr ("vc:" +:+ uuids host1 (uuidReads w1))
    /\ optGet (vcObject b) "id" = VStr ("vc:" +:+ uuids host2 (uuidReads w2))
    /\ stringify (vcObject a) = Some texta /\ vcDigest a = sha256 texta
    /\ stringify (vcObject b) = Some textb /\ vcDigest b = sha256 textb
    /\ (uuids host1 (uuidReads w1) = uuids host2 (uuidReads w2)
        <-> vcObject a = vcObject b)
    /\ (uuids host1 (uuidReads w1) = uuids host2 (uuidReads w2)
        <-> texta = textb)
    /\ (uuids host1 (uuidReads w1) = uuids host2 (uuidReads w2)
        -> vcDigest a = vcDigest b).
Proof.
  intros Hts. rewrite !issueVerifiableCredential_unfold. cbn [fst].
  rewrite <- Hts.
  set (timestamp := toISOString (clock host1 (dateReads w1))).
  set (uuid1 := uuids host1 (uuidReads w1)).
  set (uuid2 := uuids host2 (uuidReads w2)).
  destruct (issueVerifiableCredentialAt timestamp uuid1 cid farmerId batchId)
    as [a | e] eqn:Ha; [| discriminate Ha].
  destruct (issueVerifiableCredentialAt timestamp uuid2 cid farmerId batchId)
    as [b | e] eqn:Hb; [| discriminate Hb].
  pose proof (credential_text_determines_uuid _ _ _ _ _ _ _ _ Ha Hb) as Hinj.
  assert (Hsame : uuid1 = uuid2 -> a = b).
  { intros Hu. rewrite Hu in Ha. rewrite Ha in Hb. injection Hb as ->. reflexivity. }
  pose proof Ha as Ha'. pose proof Hb as Hb'.
  unfold issueVerifiableCredentialAt in Ha', Hb'. cbv zeta in Ha', Hb'.
  destruct (sha256OfJson _) as [da | ?] eqn:Hda in Ha'; [| discriminate Ha'].
  destruct (sha256OfJson _) as [db | ?] eqn:Hdb in Hb'; [| discriminate Hb'].
  cbn [bindR] in Ha', Hb'. injection Ha' as Ha'. injection Hb' as Hb'.
  unfold sha256OfJson in Hda, Hdb.
  destruct (stringify _) as [texta |] eqn:Hta in Hda; [| discriminate Hda].
  destruct (stringify _) as [textb |] eqn:Htb in Hdb; [| discriminate Hdb].
  injection Hda as Hda. injection Hdb as Hdb.
  exists a, b, texta, textb.
  split; [reflexivity |]. split; [reflexivity |].
  subst a b. cbn [vcObject vcDigest].
  split; [| split; [reflexivity | split; [reflexivity |]]].
  - intros k Hk. cbn [optGet lookupProp].
    destruct (String.eqb k "@context"); [reflexivity |].
    destruct (String.eqb k "type"); [reflexivity |].
    destruct (String.eqb k "id") eqn:Hid.
    + apply String.eqb_eq in Hid. contradiction.
    + reflexivity.
  - split; [exact Hta |]. split; [symmetry; exact Hda |].
    split; [exact Htb |]. split; [symmetry; exact Hdb |].
    split; [| split].
    + split.
      * intros Hu. exact (f_equal vcObject (Hsame Hu)).
      * intros Hobj. apply Hinj. cbn [vcObject]. rewrite Hobj. reflexivity.
    + split.
      * intros Hu. pose proof (f_equal vcObject (Hsame Hu)) as Hobj.
        cbn [vcObject] in Hobj. rewrite Hobj in Hta. rewrite Hta in Htb.
        injection Htb as ->. reflexivity.
      * intros Htext. apply Hinj. cbn [vcObject]. rewrite Hta, Htb, Htext. reflexivity.
    + intros Hu. exact (f_equal vcDigest (Hsame Hu)).
Qed.

Lemma issue_determined_by_timestamp_and_uuid_witness :
  exists a b,
    fst (issueVerifiableCredential frozenClockHost "cid" "farmer" "batch" initialWorld) = Ok a
    /\ fst (issueVerifiableCredential frozenClockHost "cid" "farmer" "batch"
              {| store := emptyStore; dateReads := 7; uuidReads := 1; randomReads := 0;
                 writes := 0 |})
       = Ok b
    /\ (forall k, k <> "id" -> optGet (vcObject a) k = optGet (vcObject b) k)
    /\ optGet (vcObject a) "id" = VStr "vc:1b9d6bcd-bbfd-4b2d-9b5d-ab8dfbbd4bed"
    /\ optGet (vcObject b) "id" = VStr "vc:6ec0bd7f-11c0-43da-975e-2a8ad9ebae0b"
    /\ vcObject a <> vcObject b.
Proof.
  destruct (issue_determined_by_timestamp_and_uuid frozenClockHost frozenClockHost
              initialWorld
              {| store := emptyStore; dateReads := 7; uuidReads := 1; randomReads := 0;
                 writes := 0 |}
              "cid" "farmer" "batch" eq_refl)
    as (a & b & texta & textb & Ha & Hb & Hk & Hida & Hidb & _ & _ & _ & _ & Hobj & _).
  exists a, b. repeat split; try assumption.
  intros Heq. apply Hobj in Heq. discriminate Heq.
Defined.

(* ===================================================================== *)
(** ** Content addressing                                                 *)
(* ===================================================================== *)






(* ===================================================================== *)
(** ** The verifier on arbitrary input                                    *)
(* ===================================================================== *)

Lemma validate_guard (vcObject : Value) :
  guardRejects vcObject = true -> validateVcSignature vcObject = Ok false.
Proof.
  unfold guardRejects, validateVcSignature. intros H. rewrite H. reflexivity.
Qed.

(** A field that is missing, [undefined], [null] or empty makes the guard
    reject. *)
Lemma validate_fails_closed (vcObject : Value) :
  truthy (optGet (optGet vcObject "proof") "signatureValue") = false
  \/ truthy (optGet (optGet vcObject "proof") "created") = false
  \/ truthy (optGet vcObject "issuer") = false ->
  validateVcSignature vcObject = Ok false.
Proof.
  intros H. apply validate_guard. unfold guardRejects.
  destruct H as [H | [H | H]]; rewrite H; cbn;
    repeat (rewrite ?orb_true_r, ?orb_true_l); reflexivity.
Qed.

Lemma get_present (v : Value) (k : string) :
  present v = true -> exists x, get v k = Ok x.
Proof. destruct v; cbn; intros H; try discriminate; eexists; reflexivity. Qed.

Lemma get_absent (v : Value) (k : string) :
  present v = false -> exists e, get v k = Throw e.
Proof. destruct v; cbn; intros H; try discriminate; eexists; reflexivity. Qed.

(** Past the guard the credential is an object with a [proof] object. *)
Lemma guard_passes_shape (vcObject : Value) :
  guardRejects vcObject = false ->
  exists props proofProps,
    vcObject = VObj props /\ lookupProp "proof" props = VObj proofProps.
Proof.
  unfold guardRejects. intros H.
  apply orb_false_elim in H as [H Hissuer].
  apply orb_false_elim in H as [Hsig _].
  apply negb_false_iff in Hissuer, Hsig.
  destruct vcObject as [| | | | | |props]; try discriminate Hissuer.
  cbn [optGet] in Hsig.
  destruct (lookupProp "proof" props) as [| | | | | |proofProps] eqn:Hproof;
    try discriminate Hsig.
  eauto.
Qed.

(** C6, at the input that separates the code from the contract: with
    [issuer], [proof.created] and [proof.signatureValue] present and
    [credentialSubject] missing the verifier does not return [false], it
    raises a [TypeError]. *)
Theorem validate_throws_without_subject :
  validateVcSignature credentialWithoutSubject
  = Throw (TypeError "Cannot read properties of undefined (reading 'cid')").
Proof. reflexivity. Qed.

(** The only exception that the conversion to a string raises is the
    one of an object that cannot be printed. *)
Lemma toString_Throw (v : Value) (e : Exn) : toString v = Throw e -> e = unprintable.
Proof.
  revert e. induction v as [| | b | n | s | items IH | props _] using Value_nested_ind;
    intros e; cbn [toString]; try discriminate.
  - induction IH as [| x rest Hx _ IHrest]; cbn [map sequenceR bindR]; [discriminate |].
    destruct x; cbn [bindR] in *;
      try (destruct (sequenceR _) as [printed | e'] eqn:Hrest; cbn [bindR] in *;
           [discriminate | intros [= <-]; apply IHrest; reflexivity]).
    + destruct (toString (VArr items)) as [text | e'] eqn:Hitem; cbn [bindR].
      * destruct (sequenceR _) as [printed | e''] eqn:Hrest; cbn [bindR] in *;
          [discriminate | intros [= <-]; apply IHrest; reflexivity].
      * intros [= <-]. apply Hx. reflexivity.
    + destruct (toString (VObj props)) as [text | e'] eqn:Hitem; cbn [bindR].
      * destruct (sequenceR _) as [printed | e''] eqn:Hrest; cbn [bindR] in *;
          [discriminate | intros [= <-]; apply IHrest; reflexivity].
      * intros [= <-]. apply Hx. reflexivity.
  - destruct (hasOwn "toString" props); [intros [= <-]; reflexivity | discriminate].
Qed.

Lemma printable_false (v : Value) : printable v = false -> toString v = Throw unprintable.
Proof.
  unfold printable. destruct (toString v) as [text | e] eqn:Hv; [discriminate |].
  intros _. rewrite (toString_Throw v e Hv). reflexivity.
Qed.

Lemma printable_true (v : Value) : printable v = true -> exists text, toString v = Ok text.
Proof.
  unfold printable. destruct (toString v) as [text | e]; [eauto | discriminate].
Qed.

(** Past the guard and with the subject present, the verifier reads its
    four values and prints them in the order of the template. *)
Lemma validate_past_guard (props : list (string * Value)) :
  guardRejects (VObj props) = false ->
  present (lookupProp "credentialSubject" props) = true ->
  validateVcSignature (VObj props)
  = bindR (toString (optGet (lookupProp "credentialSubject" props) "cid")) (fun cidText =>
    bindR (toString (optGet (lookupProp "proof" props) "created")) (fun timestampText =>
    bindR (toString (lookupProp "issuer" props)) (fun issuerText =>
    bindR (toString (optGet (lookupProp "credentialSubject" props) "batchId"))
      (fun batchText =>
    Ok (strictEqString
          (sha256 (cidText +:+ "-" +:+ timestampText +:+ "-"
                     +:+ issuerText +:+ "-" +:+ batchText +:+ "-secret-key"))
          (optGet (lookupProp "proof" props) "signatureValue")))))).
Proof.
  intros Hguard Hsubject.
  destruct (guard_passes_shape _ Hguard) as (props' & proofProps & [= <-] & Hproof).
  unfold validateVcSignature. fold (guardRejects (VObj props)). rewrite Hguard.
  cbn [get optGet bindR]. rewrite Hproof. cbn [get optGet bindR].
  destruct (lookupProp "credentialSubject" props); try discriminate Hsubject;
    reflexivity.
Qed.

(** A credential with its subject present on which the verifier raises:
    the [cid] is an object that hides the inherited [toString]. *)
Lemma validate_throws_on_unprintable_cid :
  guardRejects credentialWithUnprintableCid = false
  /\ present (optGet credentialWithUnprintableCid "credentialSubject") = true
  /\ validateVcSignature credentialWithUnprintableCid
     = Throw (TypeError "Cannot convert object to primitive value")
  /\ ~ (exists b, validateVcSignature credentialWithUnprintableCid = Ok b).
Proof.
  assert (H : validateVcSignature credentialWithUnprintableCid
              = Throw (TypeError "Cannot convert object to primitive value"))
    by reflexivity.
  repeat split; try reflexivity.
  intros [b Hb]. rewrite H in Hb. discriminate Hb.
Qed.

(** C10, as the code has it.  [validateVcSignature] returns a boolean
    exactly on the inputs on which the guard rejects, or
    [credentialSubject] is present and the four values that the template
    prints can be printed.  With the three guarded fields present and
    [credentialSubject] [undefined] or [null], the read of
    [credentialSubject.cid] raises; with [credentialSubject] present no
    read of a field fails, and the only exception is the one of a value
    that cannot be printed. *)
Theorem validate_returns_iff (vcObject : Value) :
  ((exists b, validateVcSignature vcObject = Ok b)
   <-> guardRejects vcObject = true
       \/ (present (optGet vcObject "credentialSubject") = true
           /\ printable (optGet (optGet vcObject "credentialSubject") "cid") = true
           /\ printable (optGet (optGet vcObject "proof") "created") = true
           /\ printable (optGet vcObject "issuer") = true
           /\ printable (optGet (optGet vcObject "credentialSubject") "batchId") = true))
  /\ (guardRejects vcObject = true -> validateVcSignature vcObject = Ok false)
  /\ (guardRejects vcObject = false ->
      present (optGet vcObject "credentialSubject") = false ->
      exists what,
        validateVcSignature vcObject
        = Throw (TypeError ("Cannot read properties of " +:+ what +:+ " (reading 'cid')")))
  /\ (guardRejects vcObject = false ->
      present (optGet vcObject "credentialSubject") = true ->
      (exists b, validateVcSignature vcObject = Ok b)
      \/ validateVcSignature vcObject = Throw unprintable).
Proof.
  assert (Hthrow : guardRejects vcObject = false ->
            present (optGet vcObject "credentialSubject") = false ->
            exists what,
              validateVcSignature vcObject
              = Throw (TypeError ("Cannot read properties of " +:+ what
                                    +:+ " (reading 'cid')"))).
  { intros Hguard Habsent.
    destruct (guard_passes_shape _ Hguard) as (props & proofProps & -> & Hproof).
    unfold validateVcSignature. fold (guardRejects (VObj props)). rewrite Hguard.
    cbn [get optGet bindR] in *.
    destruct (lookupProp "credentialSubject" props); try discriminate Habsent;
      cbn [get bindR]; [exists "undefined" | exists "null"]; reflexivity. }
  assert (Hpresent : guardRejects vcObject = false ->
            present (optGet vcObject "credentialSubject") = true ->
            (printable (optGet (optGet vcObject "credentialSubject") "cid") = true
             /\ printable (optGet (optGet vcObject "proof") "created") = true
             /\ printable (optGet vcObject "issuer") = true
             /\ printable (optGet (optGet vcObject "credentialSubject") "batchId") = true
             /\ exists b, validateVcSignature vcObject = Ok b)
            \/ ((printable (optGet (optGet vcObject "credentialSubject") "cid") = false
                 \/ printable (optGet (optGet vcObject "proof") "created") = false
                 \/ printable (optGet vcObject "issuer") = false
                 \/ printable (optGet (optGet vcObject "credentialSubject") "batchId")
                    = false)
                /\ validateVcSignature vcObject = Throw unprintable)).
  { intros Hguard Hsubject.
    destruct (guard_passes_shape _ Hguard) as (props & proofProps & -> & Hproof).
    cbn [optGet] in *. rewrite (validate_past_guard props Hguard Hsubject).
    destruct (printable (optGet (lookupProp "credentialSubject" props) "cid")) eqn:H1;
      [apply printable_true in H1 as [t1 H1]
      | right; split; [auto |]; rewrite (printable_false _ H1); reflexivity].
    rewrite H1. cbn [bindR].
    destruct (printable (optGet (lookupProp "proof" props) "created")) eqn:H2;
      [apply printable_true in H2 as [t2 H2]
      | right; split; [auto |]; rewrite (printable_false _ H2); reflexivity].
    rewrite H2. cbn [bindR].
    destruct (printable (lookupProp "issuer" props)) eqn:H3;
      [apply printable_true in H3 as [t3 H3]
      | right; split; [auto |]; rewrite (printable_false _ H3); reflexivity].
    rewrite H3. cbn [bindR].
    destruct (printable (optGet (lookupProp "credentialSubject" props) "batchId")) eqn:H4;
      [apply printable_true in H4 as [t4 H4]
      | right; split; [auto |]; rewrite (printable_false _ H4); reflexivity].
    rewrite H4. cbn [bindR]. left. repeat split; eauto. }
  split; [split |]; [| | split; [apply validate_guard | split; [exact Hthrow |]]].
  - intros [b Hb].
    destruct (guardRejects vcObject) eqn:Hguard; [left; reflexivity | right].
    destruct (present (optGet vcObject "credentialSubject")) eqn:Hsubject.
    + destruct (Hpresent eq_refl eq_refl) as [(H1 & H2 & H3 & H4 & _) | [_ Hfail]].
      * auto.
      * rewrite Hfail in Hb. discriminate Hb.
    + destruct (Hthrow eq_refl eq_refl) as [what Hm]. rewrite Hm in Hb. discriminate Hb.
  - intros [Hguard | (Hsubject & H1 & H2 & H3 & H4)].
    + exists false. apply validate_guard. exact Hguard.
    + destruct (guardRejects vcObject) eqn:Hguard.
      * exists false. apply validate_guard. exact Hguard.
      * destruct (Hpresent eq_refl Hsubject) as [(_ & _ & _ & _ & Hb) | [Hsome _]];
          [exact Hb |].
        destruct Hsome as [H | [H | [H | H]]]; congruence.
  - intros Hguard Hsubject.
    destruct (Hpresent Hguard Hsubject) as [(_ & _ & _ & _ & Hb) | [_ Hfail]]; auto.
Qed.

(* ===================================================================== *)
(** ** The code index                                                     *)
(* ===================================================================== *)


Lemma getCodeMapping_run (c : string) (w : World) :
  getCodeMapping c w
  = (Ok (match codes (store w) !! c with
         | Some mapping => Some (Mapping mapping)
         | None => if inheritedName c then Some Inherited else None
         end), w).
Proof. reflexivity. Qed.



(* ===================================================================== *)
(** ** The transparency log                                               *)
(* ===================================================================== *)

Lemma find_digest_Some (log : list LogEntry) (vcDigest : string) (e : LogEntry) :
  find (fun e => String.eqb (digest e) vcDigest) log = Some e
  <-> exists i, firstMatch log vcDigest i e.
Proof.
  induction log as [| x log IH]; cbn.
  - split; [discriminate |]. intros (i & Hi & _). destruct i; discriminate.
  - destruct (String.eqb (digest x) vcDigest) eqn:Hx.
    + apply String.eqb_eq in Hx. split.
      * intros [= <-]. exists 0%nat. split; [reflexivity |]. split; [exact Hx |].
        intros j e' Hj. lia.
      * intros (i & Hi & Hd & Hfirst). destruct i as [| i].
        -- cbn in Hi. congruence.
        -- exfalso. apply (Hfirst 0%nat x); [lia | reflexivity | exact Hx].
    + apply String.eqb_neq in Hx. rewrite IH. split.
      * intros (i & Hi & Hd & Hfirst). exists (S i). split; [exact Hi |].
        split; [exact Hd |]. intros [| j] e' Hj Hj'.
        -- cbn in Hj'. congruence.
        -- apply (Hfirst j e'); [lia | exact Hj'].
      * intros (i & Hi & Hd & Hfirst). destruct i as [| i].
        -- cbn in Hi. congruence.
        -- exists i. split; [exact Hi |]. split; [exact Hd |].
           intros j e' Hj Hj'. apply (Hfirst (S j) e'); [lia | exact Hj'].
Qed.

Lemma find_digest_None (log : list LogEntry) (vcDigest : string) :
  find (fun e => String.eqb (digest e) vcDigest) log = None
  <-> forall e, e ∈ log -> digest e <> vcDigest.
Proof.
  induction log as [| x log IH]; cbn.
  - split; [| reflexivity]. intros _ e He. inversion He.
  - destruct (String.eqb (digest x) vcDigest) eqn:Hx.
    + apply String.eqb_eq in Hx. split; [discriminate |].
      intros H. exfalso. apply (H x); [left | exact Hx].
    + apply String.eqb_neq in Hx. rewrite IH. split.
      * intros H e He. inversion He; subst; [exact Hx | apply H; assumption].
      * intros H e He. apply H. right. exact He.
Qed.

(** C4.  [checkTransparencyLog] reads the log and leaves the world as it
    is.  It answers [{exists: true, consistent: true}] exactly when the
    first entry in scan order whose digest is [vcDigest] stores
    [expectedCid], and [{exists: false, consistent: false}] exactly when no
    entry has that digest.  Entries with equal digests may coexist; the
    first one decides. *)
Theorem checkTransparencyLog_correct (w : World) (vcDigest expectedCid : string) :
  exists answer,
    checkTransparencyLog vcDigest expectedCid w = (Ok answer, w)
    /\ (answer = {| exists_ := true; consistent := true |}
        <-> exists i e, firstMatch (logOf w) vcDigest i e /\ cid e = expectedCid)
    /\ (answer = {| exists_ := false; consistent := false |}
        <-> forall e, e ∈ logOf w -> digest e <> vcDigest).
Proof.
  unfold checkTransparencyLog, getTransparencyLog, bind, getStore, ret. cbn.
  fold (logOf w).
  destruct (find (fun e => String.eqb (digest e) vcDigest) (logOf w)) as [entry |] eqn:Hfind.
  - pose proof (proj1 (find_digest_Some _ _ _) Hfind) as [i Hi].
    assert (Hnot : ~ forall e, e ∈ logOf w -> digest e <> vcDigest).
    { intros H. apply find_digest_None in H. congruence. }
    destruct (String.eqb (cid entry) expectedCid) eqn:Hcid; cbn.
    + apply String.eqb_eq in Hcid. eexists. split; [reflexivity |]. split.
      * split; [intros _; eauto | reflexivity].
      * split; [discriminate | intros H; contradiction].
    + apply String.eqb_neq in Hcid. eexists. split; [reflexivity |]. split.
      * split; [discriminate |]. intros (j & e & Hj & He). exfalso.
        apply find_digest_Some in Hfind.
        assert (Some e = Some entry) as [= ->].
        { rewrite <- (proj2 (find_digest_Some _ _ _) (ex_intro _ j Hj)).
          apply find_digest_Some. exact Hfind. }
        contradiction.
      * split; [discriminate | intros H; contradiction].
  - eexists. split; [reflexivity |]. split.
    + split; [discriminate |]. intros (i & e & Hi & _).
      assert (find (fun e => String.eqb (digest e) vcDigest) (logOf w) = Some e)
        by (apply find_digest_Some; eauto).
      congruence.
    + split; [intros _; apply find_digest_None; exact Hfind | reflexivity].
Qed.

(** With two entries of the same digest the first one decides. *)
Example checkTransparencyLog_duplicate_digest :
  let log := [ {| index := 0; digest := "d"; previousHash := None;
                  timestamp := "t0"; cid := "cid-a" |};
               {| index := 1; digest := "d"; previousHash := Some "d";
                  timestamp := "t1"; cid := "cid-b" |} ] in
  let w := {| store := {| farmers := []; batches := []; claims := []; codes := ∅;
                          transparencyLog := log; drafts := ∅ |};
              dateReads := 0; uuidReads := 0; randomReads := 0; writes := 0 |} in
  fst (checkTransparencyLog "d" "cid-a" w) = Ok {| exists_ := true; consistent := true |}
  /\ fst (checkTransparencyLog "d" "cid-b" w) = Ok {| exists_ := true; consistent := false |}.
Proof. split; reflexivity. Qed.
(** *** Appending *)

Section Appending.

Variable host : Host.

(** One call: it returns the length it found; the entry is stored when
    the storage accepts the write. *)
Lemma appendToTransparencyLog_spec (vcDigest cid : string) (w : World) :
  appendToTransparencyLog host vcDigest cid w
  = (Ok (length (logOf w)),
     {| store := if setItemFails host (writes w) then store w
                 else withLogEntry (store w) (newLogEntry host w vcDigest cid);
        dateReads := S (dateReads w); uuidReads := uuidReads w;
        randomReads := randomReads w; writes := S (writes w) |}).
Proof.
  unfold appendToTransparencyLog, getTransparencyLog, nowISO, newDate, bind, getStore,
    setLocalStorageItem, ret, logOf, withLogEntry, newLogEntry, logOf. cbn.
  replace (if (0 <? length (transparencyLog (store w)))%nat
           then digest <$> transparencyLog (store w) !! (length (transparencyLog (store w)) - 1)%nat
           else None)
    with (digest <$> last (transparencyLog (store w))); [reflexivity |].
  rewrite last_lookup.
  destruct (transparencyLog (store w)) as [| e log]; [reflexivity |].
  cbn [length Nat.pred]. replace (S (length log) - 1)%nat with (length log) by lia.
  reflexivity.
Qed.

Lemma chained_nil : chained [].
Proof. intros i e H. destruct i; discriminate. Qed.

Lemma chained_snoc (log : list LogEntry) (e : LogEntry) :
  chained log ->
  index e = length log ->
  previousHash e = digest <$> last log ->
  chained (log ++ [e])%list.
Proof.
  intros Hlog Hindex Hprev i x Hx.
  destruct (decide (i < length log)%nat) as [Hlt | Hge].
  - rewrite lookup_app_l in Hx by exact Hlt.
    destruct (Hlog i x Hx) as [Hi Hp]. split; [exact Hi |].
    rewrite Hp. destruct i as [| j]; [reflexivity |].
    rewrite lookup_app_l by lia. reflexivity.
  - rewrite lookup_app_r in Hx by lia.
    destruct (i - length log)%nat as [| n] eqn:Hdiff; [| destruct n; discriminate].
    injection Hx as <-. assert (i = length log) as -> by lia.
    split; [exact Hindex |]. rewrite Hprev, last_lookup.
    destruct log as [| y log]; [reflexivity |].
    cbn [length Nat.pred]. rewrite lookup_app_l by (cbn; lia). reflexivity.
Qed.

Lemma acceptedWrites_S (from count : nat) :
  acceptedWrites host from (S count)
  = ((if setItemFails host from then 0 else 1) + acceptedWrites host (S from) count)%nat.
Proof.
  unfold acceptedWrites. cbn [seq List.filter].
  destruct (setItemFails host from); reflexivity.
Qed.

(** The log after one call. *)
Lemma logOf_after_append (vcDigest cid : string) (w : World) :
  logOf (snd (appendToTransparencyLog host vcDigest cid w))
  = (logOf w ++ (if setItemFails host (writes w) then []
                 else [newLogEntry host w vcDigest cid]))%list.
Proof.
  rewrite appendToTransparencyLog_spec. cbn [snd]. unfold logOf at 1. cbn [store].
  destruct (setItemFails host (writes w)).
  - rewrite app_nil_r. reflexivity.
  - reflexivity.
Qed.

(** A run of appends: the lengths returned, the entries added behind the
    old log, one per accepted write, the invariant kept. *)
Lemma appendAll_run (items : list (string * string)) (w : World) :
  exists w' returned added,
    appendAll host items w = (Ok returned, w')
    /\ logOf w' = (logOf w ++ added)%list
    /\ length returned = length items
    /\ writes w' = (writes w + length items)%nat
    /\ length added = acceptedWrites host (writes w) (length items)
    /\ sublist (map (fun e => (digest e, cid e)) added) items
    /\ (chained (logOf w) -> chained (logOf w'))
    /\ (acceptsWrites host (writes w) (length items) ->
        returned = seq (length (logOf w)) (length items)
        /\ map (fun e => (digest e, cid e)) added = items).
Proof.
  revert w. induction items as [| [d c] items IH]; intros w.
  - exists w, [], []. rewrite app_nil_r, Nat.add_0_r.
    split; [reflexivity |]. split; [reflexivity |]. split; [reflexivity |].
    split; [reflexivity |]. split; [reflexivity |]. split; [constructor |].
    split; [trivial |]. intros _. split; reflexivity.
  - unfold appendAll in *. cbn [mapM fst snd]. unfold bind at 1.
    pose proof (logOf_after_append d c w) as Hlog1.
    rewrite appendToTransparencyLog_spec in *. cbn [snd] in Hlog1.
    set (w1 := {| store := _; dateReads := S (dateReads w) |}) in *.
    destruct (IH w1) as (w' & returned & added & Hrun & Hlog & Hlen & Hwrites & Hcount
                         & Hsub & Hchain & Hall).
    unfold bind. rewrite Hrun. cbn [ret].
    change (writes w1) with (S (writes w)) in *.
    exists w', (length (logOf w) :: returned),
      ((if setItemFails host (writes w) then [] else [newLogEntry host w d c]) ++ added)%list.
    split; [reflexivity |].
    split; [rewrite Hlog, Hlog1, <- app_assoc; reflexivity |].
    split; [cbn; rewrite Hlen; reflexivity |].
    split; [rewrite Hwrites; cbn [length]; lia |].
    split; [| split; [| split]].
    + cbn [length]. rewrite acceptedWrites_S, length_app, Hcount.
      destruct (setItemFails host (writes w)); reflexivity.
    + destruct (setItemFails host (writes w)); cbn [app map].
      * apply sublist_cons. exact Hsub.
      * apply sublist_skip. exact Hsub.
    + intros Hc. apply Hchain. rewrite Hlog1.
      destruct (setItemFails host (writes w)).
      * rewrite app_nil_r. exact Hc.
      * apply chained_snoc; [exact Hc | reflexivity | reflexivity].
    + intros Haccept.
      assert (H0 : setItemFails host (writes w) = false)
        by (apply Haccept; cbn [length]; lia).
      destruct Hall as [Hret Hitems].
      { intros n Hn. apply Haccept. cbn [length]. lia. }
      rewrite H0 in *. rewrite Hlog1, length_app in Hret. cbn [length] in Hret.
      split.
      * cbn [length seq]. f_equal. rewrite Hret. f_equal. lia.
      * cbn [app map]. rewrite Hitems. reflexivity.
Qed.

(** A run over [items1 ++ items2] is the run over [items1] followed by the
    run over [items2]. *)
Lemma appendAll_app (items1 items2 : list (string * string)) (w w1 w2 : World)
    (r1 r2 : list nat) :
  appendAll host items1 w = (Ok r1, w1) ->
  appendAll host items2 w1 = (Ok r2, w2) ->
  appendAll host (items1 ++ items2)%list w = (Ok (r1 ++ r2)%list, w2).
Proof.
  unfold appendAll. revert w r1.
  induction items1 as [| x items1 IH]; intros w r1 H1 H2.
  - cbn in H1. injection H1 as <- <-. exact H2.
  - cbn [mapM app] in *. unfold bind in *.
    destruct (appendToTransparencyLog host (fst x) (snd x) w) as [[n | err] wn];
      [| discriminate].
    destruct (mapM _ items1 wn) as [[r | err] wr] eqn:Hrest; [| discriminate].
    cbn [ret] in H1. injection H1 as <- <-.
    rewrite (IH wn r Hrest H2). reflexivity.
Qed.

End Appending.

(** Where the claim fails.  On a storage that is full, two appends from
    the empty log both return 0 and leave the log empty: no entry was
    appended. *)
Lemma appends_on_full_storage :
  appendAll fullStorageHost [("digest-0", "cid-0"); ("digest-1", "cid-1")] initialWorld
  = (Ok [0; 0]%nat,
     {| store := emptyStore; dateReads := 2; uuidReads := 0; randomReads := 0;
        writes := 2 |})
  /\ logOf (snd (appendAll fullStorageHost
                   [("digest-0", "cid-0"); ("digest-1", "cid-1")] initialWorld)) = [].
Proof. split; reflexivity. Qed.

(** C2, as the code has it.  Starting from an empty log, every call
    returns the length it found.  When the storage accepts its write, the
    call adds one entry behind the entries it found, with that length as
    index, the given digest and content digest, and the digest of the
    last entry as previous hash (none on the empty log); when the storage
    rejects the write, the log stays as it was.  The entries a call found
    are still the first entries of the final log.  After the run the log
    holds one entry per accepted write, in the order of the calls, and it
    is chained: entry [i] has index [i], the first entry has no previous
    hash and every later one has the digest of the entry before it.  When
    every write is accepted, the calls return 0, 1, ... and leave one
    entry per call. *)
Theorem appends_from_empty_are_chained
    (host : Host) (w : World) (items : list (string * string)) :
  logOf w = [] ->
  exists w' returned,
    appendAll host items w = (Ok returned, w')
    /\ length returned = length items
    /\ length (logOf w') = acceptedWrites host (writes w) (length items)
    /\ sublist (map (fun e => (digest e, cid e)) (logOf w')) items
    /\ (forall i e, logOf w' !! i = Some e ->
          index e = i
          /\ previousHash e = match i with
                              | O => None
                              | S j => digest <$> logOf w' !! j
                              end)
    /\ (forall k item, items !! k = Some item ->
          exists wk wk1,
            appendAll host (take k items) w = (Ok (take k returned), wk)
            /\ writes wk = (writes w + k)%nat
            /\ returned !! k = Some (length (logOf wk))
            /\ appendToTransparencyLog host (fst item) (snd item) wk
               = (Ok (length (logOf wk)), wk1)
            /\ logOf wk `prefix_of` logOf w'
            /\ (setItemFails host (writes wk) = true -> logOf wk1 = logOf wk)
            /\ (setItemFails host (writes wk) = false ->
                exists e,
                  logOf wk1 = (logOf wk ++ [e])%list
                  /\ index e = length (logOf wk)
                  /\ digest e = fst item
                  /\ cid e = snd item
                  /\ previousHash e = digest <$> last (logOf wk)
                  /\ logOf w' !! length (logOf wk) = Some e))
    /\ (acceptsWrites host (writes w) (length items) ->
        returned = seq 0 (length items)
        /\ length (logOf w') = length items
        /\ forall i e, logOf w' !! i = Some e -> items !! i = Some (digest e, cid e)).
Proof.
  intros Hempty.
  destruct (appendAll_run host items w)
    as (w' & returned & added & Hrun & Hlog & Hlen & Hwrites & Hcount & Hsub & Hchain & Hall).
  rewrite Hempty in Hlog, Hchain, Hall. cbn [app length] in Hlog, Hall.
  specialize (Hchain chained_nil).
  exists w', returned. split; [exact Hrun |]. split; [exact Hlen |].
  split; [rewrite Hlog; exact Hcount |].
  split; [rewrite Hlog; exact Hsub |].
  split; [exact Hchain |]. split.
  - intros k item Hk.
    pose proof (lookup_lt_Some _ _ _ Hk) as Hklt.
    destruct (appendAll_run host (take k items) w)
      as (wk & rk & addedk & Hrunk & Hlogk & Hlenk & Hwritesk & _).
    rewrite length_take, Nat.min_l in Hlenk, Hwritesk by lia.
    pose proof (appendToTransparencyLog_spec host (fst item) (snd item) wk) as Hstep.
    pose proof (logOf_after_append host (fst item) (snd item) wk) as Hlog1.
    rewrite Hstep in Hlog1. cbn [snd] in Hlog1.
    set (wk1 := {| store := _; dateReads := S (dateReads wk) |}) in *.
    destruct (appendAll_run host (drop (S k) items) wk1)
      as (wend & rrest & addedrest & Hrunrest & Hlogrest & _).
    assert (Hone : appendAll host [item] wk = (Ok [length (logOf wk)], wk1)).
    { unfold appendAll. cbn [mapM]. unfold bind. rewrite Hstep. reflexivity. }
    pose proof (appendAll_app host _ _ _ _ _ _ _ Hone Hrunrest) as Htail.
    pose proof (appendAll_app host _ _ _ _ _ _ _ Hrunk Htail) as Hwhole.
    cbn [app] in Hwhole.
    rewrite <- (take_drop_middle items k item Hk) in Hrun at 1.
    rewrite Hwhole in Hrun. injection Hrun as <- <-.
    exists wk, wk1.
    split; [rewrite take_app_length' by (symmetry; exact Hlenk); exact Hrunk |].
    split; [exact Hwritesk |].
    split; [rewrite lookup_app_r by lia; rewrite Hlenk, Nat.sub_diag; reflexivity |].
    split; [exact Hstep |].
    split; [rewrite Hlogrest, Hlog1, <- app_assoc; apply prefix_app_r; reflexivity |].
    split.
    + intros Hfail. rewrite Hlog1, Hfail, app_nil_r. reflexivity.
    + intros Hok. rewrite Hok in Hlog1.
      exists (newLogEntry host wk (fst item) (snd item)).
      split; [exact Hlog1 |]. do 4 (split; [reflexivity |]).
      rewrite Hlogrest, Hlog1, <- app_assoc.
      rewrite lookup_app_r by lia. rewrite Nat.sub_diag. reflexivity.
  - intros Haccept. destruct (Hall Haccept) as [Hret Hitems].
    split; [exact Hret |].
    assert (Hlength : length (logOf w') = length items).
    { rewrite Hlog, <- Hitems, length_map. reflexivity. }
    split; [exact Hlength |].
    intros i e Hi. rewrite <- Hitems, <- Hlog.
    rewrite list_lookup_fmap, Hi. reflexivity.
Qed.

Lemma appends_from_empty_are_chained_witness :
  exists w',
    appendAll frozenClockHost [("digest-0", "cid-0"); ("digest-1", "cid-1")] initialWorld
    = (Ok [0; 1]%nat, w')
    /\ length (logOf w') = 2%nat.
Proof.
  destruct (appends_from_empty_are_chained frozenClockHost initialWorld
              [("digest-0", "cid-0"); ("digest-1", "cid-1")] eq_refl)
    as (w' & returned & Hrun & _ & _ & _ & _ & _ & Hall).
  destruct Hall as (Hret & Hlen & _); [intros n _; reflexivity |].
  exists w'. rewrite Hrun, Hret. split; [reflexivity | exact Hlen].
Defined.

(* ===================================================================== *)
(** ** The submission workflow                                            *)
(* ===================================================================== *)

Section WorkflowProperties.

Variable host : Host.

(** *** What each step leaves untouched *)

Lemma keepsStore_keepsCodes {A : Type} (m : M A) : keepsStore m -> keepsCodes m.
Proof. intros H w. rewrite H. reflexivity. Qed.

Lemma keepsStore_ret {A : Type} (a : A) : keepsStore (ret a).
Proof. intros w. reflexivity. Qed.

Lemma keepsStore_throw {A : Type} (e : Exn) : keepsStore (@throw A e).
Proof. intros w. reflexivity. Qed.

Lemma keepsStore_liftR {A : Type} (r : Result A) : keepsStore (liftR r).
Proof. intros w. reflexivity. Qed.

Lemma keepsStore_bind {A B : Type} (m : M A) (k : A -> M B) :
  keepsStore m -> (forall a, keepsStore (k a)) -> keepsStore (bind m k).
Proof.
  intros Hm Hk w. unfold bind. specialize (Hm w).
  destruct (m w) as [[a | e] w1]; cbn in *.
  - rewrite Hk. exact Hm.
  - exact Hm.
Qed.

Lemma keepsCodes_bind {A B : Type} (m : M A) (k : A -> M B) :
  keepsCodes m -> (forall a, keepsCodes (k a)) -> keepsCodes (bind m k).
Proof.
  intros Hm Hk w. unfold bind. specialize (Hm w).
  destruct (m w) as [[a | e] w1]; cbn in *.
  - rewrite Hk. exact Hm.
  - exact Hm.
Qed.

Lemma keepsStore_getStore : keepsStore getStore.
Proof. intros w. reflexivity. Qed.

Lemma keepsStore_newDate : keepsStore (newDate host).
Proof. intros w. reflexivity. Qed.

Lemma keepsStore_nowISO : keepsStore (nowISO host).
Proof. intros w. reflexivity. Qed.

Lemma keepsStore_uuidv4 : keepsStore (uuidv4 host).
Proof. intros w. reflexivity. Qed.

Lemma keepsStore_randomBelow (n : Z) : keepsStore (randomBelow host n).
Proof. intros w. reflexivity. Qed.

Lemma keepsStore_getCodeMapping (c : string) : keepsStore (getCodeMapping c).
Proof. intros w. reflexivity. Qed.

Lemma keepsStore_getFarmerById (farmerId : string) : keepsStore (getFarmerById farmerId).
Proof. intros w. reflexivity. Qed.

Lemma keepsStore_issue (cid farmerId batchId : string) :
  keepsStore (issueVerifiableCredential host cid farmerId batchId).
Proof. intros w. rewrite issueVerifiableCredential_unfold. reflexivity. Qed.

Lemma keepsStore_orElseM (a : Value) (b : M Value) :
  keepsStore b -> keepsStore (orElseM a b).
Proof. intros Hb. unfold orElseM. destruct (truthy a); [apply keepsStore_ret | exact Hb]. Qed.

Lemma keepsStore_mapM {A B : Type} (f : A -> M B) (l : list A) :
  (forall x, keepsStore (f x)) -> keepsStore (mapM f l).
Proof.
  intros Hf. induction l as [| x l IH]; cbn [mapM].
  - apply keepsStore_ret.
  - apply keepsStore_bind; [apply Hf |]. intros y.
    apply keepsStore_bind; [exact IH |]. intros ys. apply keepsStore_ret.
Qed.

Lemma keepsStore_attempt {A : Type} (s : Step) (m : M A) :
  keepsStore m -> keepsStore (attempt host s m).
Proof. intros Hm. unfold attempt. destruct (raises host s); [apply keepsStore_throw | exact Hm]. Qed.

Lemma keepsCodes_attempt {A : Type} (s : Step) (m : M A) :
  keepsCodes m -> keepsCodes (attempt host s m).
Proof.
  intros Hm. unfold attempt. destruct (raises host s); [| exact Hm].
  apply keepsStore_keepsCodes, keepsStore_throw.
Qed.

Lemma keepsCodes_append (vcDigest cid : string) :
  keepsCodes (appendToTransparencyLog host vcDigest cid).
Proof.
  intros w. rewrite appendToTransparencyLog_spec. cbn [snd store].
  destruct (setItemFails host (writes w)); reflexivity.
Qed.

Lemma keepsCodes_addBatch (batch : Value) : keepsCodes (addBatch host batch).
Proof. intros w. cbn. destruct (setItemFails host (writes w)); reflexivity. Qed.

Lemma keepsCodes_addClaim (claim : Value) : keepsCodes (addClaim host claim).
Proof. intros w. cbn. destruct (setItemFails host (writes w)); reflexivity. Qed.

Lemma keepsCodes_clearDraftBatch (farmerId : string) : keepsCodes (clearDraftBatch farmerId).
Proof. intros w. reflexivity. Qed.

Lemma keepsCodes_forEach {A : Type} (f : nat -> A -> M unit) (l : list A) (i : nat) :
  (forall j x, keepsCodes (f j x)) -> keepsCodes (forEach f i l).
Proof.
  intros Hf. revert i. induction l as [| x l IH]; intros i; cbn [forEach].
  - apply keepsStore_keepsCodes, keepsStore_ret.
  - apply keepsCodes_bind; [apply Hf |]. intros _. apply IH.
Qed.

Lemma keepsStore_codeAttempts (remaining : nat) (year month day : string) :
  keepsStore (codeAttempts host remaining year month day).
Proof.
  induction remaining as [| n IH]; cbn [codeAttempts].
  - apply keepsStore_ret.
  - apply keepsStore_bind; [apply keepsStore_randomBelow |]. intros r.
    apply keepsStore_bind; [apply keepsStore_getCodeMapping |]. intros [mapping |].
    + exact IH.
    + apply keepsStore_ret.
Qed.

Lemma keepsStore_generateConsumerCode : keepsStore (generateConsumerCode host).
Proof.
  unfold generateConsumerCode.
  apply keepsStore_bind; [apply keepsStore_newDate |]. intros date.
  apply keepsStore_bind; [apply keepsStore_codeAttempts |]. intros c.
  destruct (String.eqb c ""); [apply keepsStore_throw | apply keepsStore_ret].
Qed.

Lemma keepsStore_buildFinalBatch (userId' finalBatchId consumerCode : string)
    (farmer : Farmer) (batchData' : list (string * Value)) :
  keepsStore (buildFinalBatch host userId' finalBatchId consumerCode farmer batchData').
Proof.
  unfold buildFinalBatch.
  apply keepsStore_bind.
  - apply keepsStore_orElseM. apply keepsStore_bind; [apply keepsStore_nowISO |].
    intros now. apply keepsStore_ret.
  - intros h. apply keepsStore_bind; [apply keepsStore_nowISO |]. intros c.
    apply keepsStore_bind; [apply keepsStore_nowISO |]. intros u. apply keepsStore_ret.
Qed.

Lemma keepsStore_finalizeClaim (finalBatchId : string) (claim : list (string * Value)) :
  keepsStore (finalizeClaim host finalBatchId claim).
Proof.
  unfold finalizeClaim.
  apply keepsStore_bind.
  - apply keepsStore_orElseM. apply keepsStore_bind; [apply keepsStore_nowISO |].
    intros now. apply keepsStore_ret.
  - intros c. apply keepsStore_bind; [apply keepsStore_nowISO |]. intros u.
    apply keepsStore_ret.
Qed.

(** *** Failure before the index is written *)

Lemma keepsCodes_intact {A : Type} (m : M A) : keepsCodes m -> codesIntactOnThrow m.
Proof. intros H w e _. apply H. Qed.

Lemma intact_bind {A B : Type} (m : M A) (k : A -> M B) :
  keepsCodes m -> (forall a, codesIntactOnThrow (k a)) -> codesIntactOnThrow (bind m k).
Proof.
  intros Hm Hk w e. unfold bind. specialize (Hm w).
  destruct (m w) as [[a | e'] w1]; cbn in *.
  - intros Hthrow. rewrite (Hk a w1 e Hthrow). exact Hm.
  - intros _. exact Hm.
Qed.

(** The last two steps: the write of the index and the clearing of the
    draft.  They raise only before the index is written, provided clearing
    the draft does not raise. *)
Lemma intact_commit (consumerCode cid vcDigest batchId userId' : string) :
  raises host SClearDraft = None ->
  codesIntactOnThrow
    (attempt host SAddCodeMapping (addCodeMapping host consumerCode cid vcDigest batchId) ;;
     attempt host SClearDraft (clearDraftBatch userId') ;;
     ret consumerCode).
Proof.
  intros Hclear w e. unfold attempt, bind. rewrite Hclear.
  destruct (raises host SAddCodeMapping) as [err |]; cbn.
  - intros _. reflexivity.
  - discriminate.
Qed.

Lemma intact_submit (userId' : string) (batchData' : list (string * Value))
    (claims' : list (list (string * Value))) :
  raises host SClearDraft = None ->
  codesIntactOnThrow (submit host userId' batchData' claims').
Proof.
  intros Hclear. unfold submit.
  apply intact_bind; [apply keepsStore_keepsCodes, keepsStore_generateConsumerCode |].
  intros consumerCode.
  apply intact_bind; [apply keepsStore_keepsCodes, keepsStore_getFarmerById |].
  intros [farmer |]; [| apply keepsCodes_intact, keepsStore_keepsCodes, keepsStore_throw].
  apply intact_bind; [apply keepsStore_keepsCodes, keepsStore_uuidv4 |]. intros finalBatchId.
  apply intact_bind; [apply keepsStore_keepsCodes, keepsStore_buildFinalBatch |].
  intros finalBatch.
  apply intact_bind;
    [apply keepsStore_keepsCodes, keepsStore_mapM; intros x; apply keepsStore_finalizeClaim |].
  intros finalClaims.
  apply intact_bind;
    [apply keepsStore_keepsCodes, keepsStore_attempt, keepsStore_liftR |].
  intros cid.
  apply intact_bind; [apply keepsStore_keepsCodes, keepsStore_attempt, keepsStore_issue |].
  intros issued.
  apply intact_bind; [apply keepsCodes_attempt, keepsCodes_append |]. intros _.
  apply intact_bind; [apply keepsCodes_attempt, keepsCodes_addBatch |]. intros _.
  apply intact_bind;
    [apply keepsCodes_forEach; intros j x; apply keepsCodes_attempt, keepsCodes_addClaim |].
  intros _.
  apply intact_commit. exact Hclear.
Qed.

(** *** The code that is generated *)

(** A consumer code is not the name of a member that objects inherit. *)
Lemma inheritedName_code (suffix : string) : inheritedName ("AGRITRUST-" +:+ suffix) = false.
Proof. reflexivity. Qed.

(** One iteration of the loop. *)
Lemma codeAttempts_step (remaining : nat) (year month day : string) (w : World) :
  codeAttempts host (S remaining) year month day w
  = let w1 := {| store := store w; dateReads := dateReads w; uuidReads := uuidReads w;
                 randomReads := S (randomReads w); writes := writes w |} in
    let tempCode :=
      "AGRITRUST-" +:+ year +:+ month +:+ day +:+ "-"
        +:+ numberToString (1000 + randoms host (randomReads w) mod 9000) in
    match codes (store w) !! tempCode with
    | None => (Ok tempCode, w1)
    | Some _ => codeAttempts host remaining year month day w1
    end.
Proof.
  cbn [codeAttempts]. unfold randomBelow, getCodeMapping, getStore, ret, bind.
  cbn [store]. rewrite inheritedName_code.
  destruct (codes (store w) !! _); reflexivity.
Qed.

(** The loop returns either the empty string or a code that the index
    does not hold. *)
Lemma codeAttempts_fresh (remaining : nat) (year month day : string) (w w1 : World)
    (c : string) :
  codeAttempts host remaining year month day w = (Ok c, w1) ->
  c = "" \/ (codes (store w) !! c = None /\ inheritedName c = false).
Proof.
  revert w. induction remaining as [| n IH]; intros w.
  - intros [= <- _]. left. reflexivity.
  - rewrite codeAttempts_step. cbv zeta.
    destruct (codes (store w) !! _) eqn:Hlookup.
    + intros H. apply IH in H. exact H.
    + intros [= <- _]. right. split; [exact Hlookup | apply inheritedName_code].
Qed.

Lemma generateConsumerCode_fresh (w w1 : World) (c : string) :
  generateConsumerCode host w = (Ok c, w1) ->
  codes (store w) !! c = None /\ inheritedName c = false.
Proof.
  unfold generateConsumerCode, bind, newDate.
  destruct (codeAttempts host 100 _ _ _ _) as [[code | e] w2] eqn:Hloop; [| discriminate].
  destruct (String.eqb code "") eqn:Hempty; [discriminate |].
  intros [= <- _]. apply codeAttempts_fresh in Hloop. cbn [store] in Hloop.
  destruct Hloop as [-> | H]; [discriminate | exact H].
Qed.

(** When every attempt meets a taken code, the loop spends its budget and
    returns the empty string, having changed nothing but the count of
    random draws. *)
Lemma codeAttempts_exhausted (remaining : nat) (year month day : string) (w : World) :
  (forall i, (i < remaining)%nat ->
     is_Some (codes (store w) !!
                ("AGRITRUST-" +:+ year +:+ month +:+ day +:+ "-"
                   +:+ numberToString (1000 + randoms host (randomReads w + i) mod 9000)))) ->
  codeAttempts host remaining year month day w
  = (Ok "", {| store := store w; dateReads := dateReads w; uuidReads := uuidReads w;
               randomReads := randomReads w + remaining; writes := writes w |}).
Proof.
  revert w. induction remaining as [| n IH]; intros w Htaken.
  - cbn [codeAttempts]. unfold ret. rewrite Nat.add_0_r. destruct w; reflexivity.
  - rewrite codeAttempts_step. cbv zeta.
    destruct (Htaken 0%nat ltac:(lia)) as [mapping Hmapping].
    rewrite Nat.add_0_r in Hmapping. rewrite Hmapping.
    rewrite IH.
    + cbn [store dateReads uuidReads randomReads].
      replace (S (randomReads w) + n)%nat with (randomReads w + S n)%nat by lia.
      reflexivity.
    + intros i Hi. cbn [store randomReads].
      replace (S (randomReads w) + i)%nat with (randomReads w + S i)%nat by lia.
      apply Htaken. lia.
Qed.

End WorkflowProperties.

(** C7.  When the submission aborts and the abort is not in the clearing of
    the draft (the one step behind the write of the index), the code index
    is what it was before the submission: every code that was unknown is
    still unknown, the code that the workflow generated among them. *)
Theorem aborted_submission_not_visible
    (host : Host) (sub : Submission) (w : World) (message : string) :
  fst (handleFinalSubmit host sub w) = Aborted message ->
  raises host SClearDraft = None ->
  codes (store (snd (handleFinalSubmit host sub w))) = codes (store w)
  /\ (forall c, fst (getCodeMapping c w) = Ok None ->
        fst (getCodeMapping c (snd (handleFinalSubmit host sub w))) = Ok None)
  /\ (forall c w1, generateConsumerCode host w = (Ok c, w1) ->
        fst (getCodeMapping c (snd (handleFinalSubmit host sub w))) = Ok None).
Proof.
  intros Haborted Hclear.
  assert (Hcodes : codes (store (snd (handleFinalSubmit host sub w))) = codes (store w)).
  { unfold handleFinalSubmit in *.
    destruct (negb (validateAllInputs sub)); [discriminate |].
    destruct (userId sub) as [userId' |]; [| discriminate].
    destruct (String.eqb userId' ""); [discriminate |].
    pose proof (intact_submit host userId' (batchData sub) (claimsState sub) Hclear w) as H.
    destruct (submit host userId' (batchData sub) (claimsState sub) w) as [[c | e] w'];
      [discriminate |].
    cbn [fst snd] in *. apply (H e). reflexivity. }
  split; [exact Hcodes |]. split.
  - intros c Hc. rewrite getCodeMapping_run in *. cbn [fst] in *.
    rewrite Hcodes. exact Hc.
  - intros c w1 Hgen. rewrite getCodeMapping_run. cbn [fst]. rewrite Hcodes.
    destruct (generateConsumerCode_fresh host w w1 c Hgen) as [-> ->]. reflexivity.
Qed.

Lemma aborted_submission_not_visible_witness :
  fst (handleFinalSubmit logDownHost applesForm seededWorld) = Aborted "log unavailable"
  /\ codes (store (snd (handleFinalSubmit logDownHost applesForm seededWorld)))
     = codes (store seededWorld).
Proof.
  assert (H : fst (handleFinalSubmit logDownHost applesForm seededWorld)
              = Aborted "log unavailable") by (vm_compute; reflexivity).
  split; [exact H |].
  exact (proj1 (aborted_submission_not_visible logDownHost applesForm seededWorld
                  "log unavailable" H eq_refl)).
Defined.

(** The residue of an abort behind the append: the log keeps the entry of
    the submission that no code leads to. *)
Example aborted_submission_leaves_log_entry :
  fst (handleFinalSubmit batchStoreDownHost applesForm seededWorld)
  = Aborted "batch store unavailable"
  /\ length (logOf (snd (handleFinalSubmit batchStoreDownHost applesForm seededWorld))) = 1%nat
  /\ codes (store (snd (handleFinalSubmit batchStoreDownHost applesForm seededWorld))) = ∅.
Proof. vm_compute. repeat split; reflexivity. Qed.

(** C8.  When each of the 100 attempts of the generation loop meets a code
    that the index holds, the submission ends with the message of the
    exhausted budget and the store is what it was: batches, claims, code
    index and transparency log are unchanged. *)
Theorem exhausted_budget_writes_nothing
    (host : Host) (sub : Submission) (w : World) (userId' : string) :
  validateAllInputs sub = true ->
  userId sub = Some userId' ->
  userId' <> "" ->
  (forall i, (i < 100)%nat -> is_Some (codes (store w) !! candidateCode host w i)) ->
  fst (handleFinalSubmit host sub w) = Aborted codeGenerationExhausted
  /\ store (snd (handleFinalSubmit host sub w)) = store w
  /\ batches (store (snd (handleFinalSubmit host sub w))) = batches (store w)
  /\ claims (store (snd (handleFinalSubmit host sub w))) = claims (store w)
  /\ codes (store (snd (handleFinalSubmit host sub w))) = codes (store w)
  /\ logOf (snd (handleFinalSubmit host sub w)) = logOf w.
Proof.
  intros Hvalid Huser Hnonempty Htaken.
  assert (H : handleFinalSubmit host sub w
              = (Aborted codeGenerationExhausted,
                 {| store := store w; dateReads := S (dateReads w);
                    uuidReads := uuidReads w; randomReads := randomReads w + 100;
                    writes := writes w |})).
  { unfold handleFinalSubmit. rewrite Hvalid, Huser. cbn [negb].
    apply String.eqb_neq in Hnonempty. rewrite Hnonempty.
    unfold submit. unfold bind at 1. unfold generateConsumerCode.
    unfold bind at 1. cbn [newDate]. unfold bind at 1.
    rewrite codeAttempts_exhausted.
    - reflexivity.
    - intros i Hi. cbn [store randomReads]. apply (Htaken i Hi). }
  rewrite H. cbn [fst snd store]. unfold logOf. cbn [store]. repeat split; reflexivity.
Qed.

Lemma exhausted_budget_writes_nothing_witness :
  fst (handleFinalSubmit stuckRandomHost applesForm codeTakenWorld)
  = Aborted codeGenerationExhausted
  /\ store (snd (handleFinalSubmit stuckRandomHost applesForm codeTakenWorld))
     = store codeTakenWorld.
Proof.
  assert (Htaken : forall i, (i < 100)%nat ->
            is_Some (codes (store codeTakenWorld) !! candidateCode stuckRandomHost codeTakenWorld i)).
  { intros i _.
    change (candidateCode stuckRandomHost codeTakenWorld i)
      with (candidateCode stuckRandomHost codeTakenWorld 0).
    vm_compute. eexists. reflexivity. }
  destruct (exhausted_budget_writes_nothing stuckRandomHost applesForm codeTakenWorld
              "20230115-greenacres-1234" eq_refl eq_refl ltac:(discriminate) Htaken)
    as (Hout & Hstore & _).
  split; [exact Hout | exact Hstore].
Defined.

(* ===================================================================== *)
(** ** Values in the storage                                              *)
(* ===================================================================== *)

(** What was parsed from the storage is written back as it is. *)
Lemma toJson_toValue (j : Json) : toJson (toValue j) = Some j.
Proof.
  induction j as [| b | n | s | items IH | props IH] using Json_nested_ind;
    cbn [toValue toJson]; try reflexivity.
  - f_equal. f_equal. induction IH as [| x rest Hx _ IHrest]; [reflexivity |].
    cbn [map]. rewrite Hx, IHrest. reflexivity.
  - f_equal. f_equal. induction IH as [| [k x] rest Hx _ IHrest]; [reflexivity |].
    cbn [map flat_map fst snd] in *. rewrite Hx, IHrest. reflexivity.
Qed.

Lemma toJsonElement_toValue (j : Json) : toJsonElement (toValue j) = j.
Proof. unfold toJsonElement. rewrite toJson_toValue. reflexivity. Qed.

Lemma map_toJsonElement_toValue (l : list Json) : map toJsonElement (map toValue l) = l.
Proof.
  induction l as [| j l IH]; [reflexivity |].
  cbn [map]. rewrite toJsonElement_toValue, IH. reflexivity.
Qed.

Lemma toJson_None (v : Value) : toJson v = None <-> v = VUndefined.
Proof. destruct v; cbn; split; intros H; try discriminate; reflexivity. Qed.

Lemma stringify_None (v : Value) : stringify v = None <-> v = VUndefined.
Proof. destruct v; cbn; split; intros H; try discriminate; reflexivity. Qed.

(** What is read back prints as what was written. *)
Lemma stringify_toJson (v : Value) (j : Json) :
  toJson v = Some j -> stringify (toValue j) = stringify v.
Proof.
  revert j. induction v as [| | b | n | s | items IH | props IH] using Value_nested_ind;
    intros j; cbn [toJson]; try discriminate; intros [= <-]; cbn [toValue stringify];
    try reflexivity.
  - assert (map (fun x => match stringify x with Some s => s | None => "null" end)
              (map toValue (map (fun x => match toJson x with Some j => j | None => JNull end)
                              items))
            = map (fun x => match stringify x with Some s => s | None => "null" end) items)
      as ->; [| reflexivity].
    induction IH as [| x rest Hx _ IHrest]; [reflexivity |].
    cbn [map]. rewrite IHrest. f_equal.
    destruct (toJson x) as [jx |] eqn:Hjx.
    + rewrite (Hx jx eq_refl). reflexivity.
    + apply toJson_None in Hjx. subst x. reflexivity.
  - assert (flat_map (fun p : string * Value =>
                        match stringify (snd p) with
                        | Some s => [quote (fst p) +:+ ":" +:+ s]
                        | None => []
                        end)
              (map (fun p : string * Json => (fst p, toValue (snd p)))
                 (flat_map (fun p : string * Value =>
                              match toJson (snd p) with
                              | Some j => [(fst p, j)]
                              | None => []
                              end) props))
            = flat_map (fun p : string * Value =>
                          match stringify (snd p) with
                          | Some s => [quote (fst p) +:+ ":" +:+ s]
                          | None => []
                          end) props)
      as ->; [| reflexivity].
    induction IH as [| [k x] rest Hx _ IHrest]; [reflexivity |].
    cbn [flat_map fst snd] in *. rewrite map_app, flat_map_app, IHrest. f_equal.
    destruct (toJson x) as [jx |] eqn:Hjx.
    + cbn [map flat_map fst snd app]. rewrite (Hx jx eq_refl).
      rewrite app_nil_r. reflexivity.
    + apply toJson_None in Hjx. subst x. reflexivity.
Qed.

Lemma stringify_toJsonElement (v : Value) :
  v <> VUndefined -> stringify (toValue (toJsonElement v)) = stringify v.
Proof.
  intros Hv. unfold toJsonElement.
  destruct (toJson v) as [j |] eqn:Hj; [exact (stringify_toJson v j Hj) |].
  apply toJson_None in Hj. contradiction.
Qed.

Lemma toValue_toJsonElement_obj (props : list (string * Value)) :
  toValue (toJsonElement (VObj props)) = VObj (storedProps props).
Proof.
  unfold toJsonElement, storedProps. cbn [toJson toValue]. f_equal.
  induction props as [| [k v] props IH]; [reflexivity |].
  cbn [flat_map fst snd]. rewrite map_app, IH. f_equal.
  destruct (toJson v); reflexivity.
Qed.

(** A property that holds a string is read back as it was written. *)
Lemma lookupProp_storedProps (k s : string) (props : list (string * Value)) :
  lookupProp k props = VStr s -> lookupProp k (storedProps props) = VStr s.
Proof.
  unfold storedProps.
  induction props as [| [k' v'] props IH]; [discriminate |].
  cbn [lookupProp flat_map fst snd].
  destruct (String.eqb k k') eqn:Hk.
  - intros ->. cbn [toJson toValue app lookupProp]. rewrite Hk. reflexivity.
  - intros H. destruct (toJson v'); cbn [app lookupProp]; [rewrite Hk |]; exact (IH H).
Qed.

(** Setting a property that holds a string commutes with the storage. *)
Lemma storedProps_setProp (k old new : string) (props : list (string * Value)) :
  lookupProp k props = VStr old ->
  storedProps (setProp k (VStr new) props) = setProp k (VStr new) (storedProps props).
Proof.
  unfold storedProps.
  induction props as [| [k' v'] props IH]; [discriminate |].
  cbn [lookupProp setProp flat_map fst snd].
  destruct (String.eqb k k') eqn:Hk.
  - intros ->. cbn [flat_map fst snd toJson toValue app setProp]. rewrite Hk. reflexivity.
  - intros H. cbn [flat_map fst snd]. rewrite (IH H).
    destruct (toJson v'); cbn [app setProp]; [rewrite Hk |]; reflexivity.
Qed.

(* ===================================================================== *)
(** ** Writes that the storage accepts or rejects                         *)
(* ===================================================================== *)

Section Writes.

Variable host : Host.

Lemma addBatch_run (batch : Value) (w : World) :
  addBatch host batch w
  = (Ok tt,
     {| store := if setItemFails host (writes w) then store w
                 else withBatch (store w) (toJsonElement batch);
        dateReads := dateReads w; uuidReads := uuidReads w;
        randomReads := randomReads w; writes := S (writes w) |}).
Proof.
  unfold addBatch, getBatches, bind, getStore, ret, setLocalStorageItem, withBatch.
  cbn [store]. rewrite map_app, map_toJsonElement_toValue. reflexivity.
Qed.

Lemma addClaim_run (claim : Value) (w : World) :
  addClaim host claim w
  = (Ok tt,
     {| store := if setItemFails host (writes w) then store w
                 else withClaims (store w) [toJsonElement claim];
        dateReads := dateReads w; uuidReads := uuidReads w;
        randomReads := randomReads w; writes := S (writes w) |}).
Proof.
  unfold addClaim, getClaims, bind, getStore, ret, setLocalStorageItem, withClaims.
  cbn [store]. rewrite map_app, map_toJsonElement_toValue. reflexivity.
Qed.

Lemma addCodeMapping_run (c cid vcDigest batchId : string) (w : World) :
  String.eqb c "__proto__" = false ->
  addCodeMapping host c cid vcDigest batchId w
  = (Ok tt,
     {| store := if setItemFails host (writes w) then store w
                 else withCode (store w) c
                        {| cm_cid := cid; cm_vcDigest := vcDigest; cm_batchId := batchId |};
        dateReads := dateReads w; uuidReads := uuidReads w;
        randomReads := randomReads w; writes := S (writes w) |}).
Proof.
  intros Hc.
  unfold addCodeMapping, bind, getStore, setLocalStorageItem, withCode.
  cbn [store]. rewrite Hc. reflexivity.
Qed.

Lemma addFarmer_run (farmer : Farmer) (w : World) :
  addFarmer host farmer w
  = (Ok tt,
     {| store := if setItemFails host (writes w) then store w
                 else withFarmer (store w) farmer;
        dateReads := dateReads w; uuidReads := uuidReads w;
        randomReads := randomReads w; writes := S (writes w) |}).
Proof. reflexivity. Qed.

Lemma clearDraftBatch_run (farmerId : string) (w : World) :
  clearDraftBatch farmerId w
  = (Ok tt,
     {| store := withoutDraft (store w) farmerId;
        dateReads := dateReads w; uuidReads := uuidReads w;
        randomReads := randomReads w; writes := writes w |}).
Proof. reflexivity. Qed.

(** *** Computations that do not write *)

Lemma keepsWrites_ret {A : Type} (a : A) : keepsWrites (ret a).
Proof. intros w. reflexivity. Qed.

Lemma keepsWrites_throw {A : Type} (e : Exn) : keepsWrites (@throw A e).
Proof. intros w. reflexivity. Qed.

Lemma keepsWrites_liftR {A : Type} (r : Result A) : keepsWrites (liftR r).
Proof. intros w. reflexivity. Qed.

Lemma keepsWrites_bind {A B : Type} (m : M A) (k : A -> M B) :
  keepsWrites m -> (forall a, keepsWrites (k a)) -> keepsWrites (bind m k).
Proof.
  intros Hm Hk w. unfold bind. specialize (Hm w).
  destruct (m w) as [[a | e] w1]; cbn in *.
  - rewrite Hk. exact Hm.
  - exact Hm.
Qed.

Lemma keepsWrites_run {A : Type} (m : M A) (w w' : World) (r : Result A) :
  keepsWrites m -> m w = (r, w') -> writes w' = writes w.
Proof. intros Hm Hrun. specialize (Hm w). rewrite Hrun in Hm. exact Hm. Qed.

Lemma keepsWrites_nowISO : keepsWrites (nowISO host).
Proof. intros w. reflexivity. Qed.

Lemma keepsWrites_newDate : keepsWrites (newDate host).
Proof. intros w. reflexivity. Qed.

Lemma keepsWrites_uuidv4 : keepsWrites (uuidv4 host).
Proof. intros w. reflexivity. Qed.

Lemma keepsWrites_randomBelow (n : Z) : keepsWrites (randomBelow host n).
Proof. intros w. reflexivity. Qed.

Lemma keepsWrites_getCodeMapping (c : string) : keepsWrites (getCodeMapping c).
Proof. intros w. reflexivity. Qed.

Lemma keepsWrites_getFarmerById (farmerId : string) : keepsWrites (getFarmerById farmerId).
Proof. intros w. reflexivity. Qed.

Lemma keepsWrites_issue (cid farmerId batchId : string) :
  keepsWrites (issueVerifiableCredential host cid farmerId batchId).
Proof. intros w. rewrite issueVerifiableCredential_unfold. reflexivity. Qed.

Lemma keepsWrites_orElseM (a : Value) (b : M Value) :
  keepsWrites b -> keepsWrites (orElseM a b).
Proof. intros Hb. unfold orElseM. destruct (truthy a); [apply keepsWrites_ret | exact Hb]. Qed.

Lemma keepsWrites_mapM {A B : Type} (f : A -> M B) (l : list A) :
  (forall x, keepsWrites (f x)) -> keepsWrites (mapM f l).
Proof.
  intros Hf. induction l as [| x l IH]; cbn [mapM].
  - apply keepsWrites_ret.
  - apply keepsWrites_bind; [apply Hf |]. intros y.
    apply keepsWrites_bind; [exact IH |]. intros ys. apply keepsWrites_ret.
Qed.

Lemma keepsWrites_attempt {A : Type} (s : Step) (m : M A) :
  keepsWrites m -> keepsWrites (attempt host s m).
Proof.
  intros Hm. unfold attempt. destruct (raises host s); [apply keepsWrites_throw | exact Hm].
Qed.

Lemma keepsWrites_codeAttempts (remaining : nat) (year month day : string) :
  keepsWrites (codeAttempts host remaining year month day).
Proof.
  induction remaining as [| n IH]; cbn [codeAttempts].
  - apply keepsWrites_ret.
  - apply keepsWrites_bind; [apply keepsWrites_randomBelow |]. intros r.
    apply keepsWrites_bind; [apply keepsWrites_getCodeMapping |]. intros [mapping |].
    + exact IH.
    + apply keepsWrites_ret.
Qed.

Lemma keepsWrites_generateConsumerCode : keepsWrites (generateConsumerCode host).
Proof.
  unfold generateConsumerCode.
  apply keepsWrites_bind; [apply keepsWrites_newDate |]. intros date.
  apply keepsWrites_bind; [apply keepsWrites_codeAttempts |]. intros c.
  destruct (String.eqb c ""); [apply keepsWrites_throw | apply keepsWrites_ret].
Qed.

Lemma keepsWrites_buildFinalBatch (userId' finalBatchId consumerCode : string)
    (farmer : Farmer) (batchData' : list (string * Value)) :
  keepsWrites (buildFinalBatch host userId' finalBatchId consumerCode farmer batchData').
Proof.
  unfold buildFinalBatch.
  apply keepsWrites_bind.
  - apply keepsWrites_orElseM. apply keepsWrites_bind; [apply keepsWrites_nowISO |].
    intros now. apply keepsWrites_ret.
  - intros h. apply keepsWrites_bind; [apply keepsWrites_nowISO |]. intros c.
    apply keepsWrites_bind; [apply keepsWrites_nowISO |]. intros u. apply keepsWrites_ret.
Qed.

Lemma keepsWrites_finalizeClaim (finalBatchId : string) (claim : list (string * Value)) :
  keepsWrites (finalizeClaim host finalBatchId claim).
Proof.
  unfold finalizeClaim.
  apply keepsWrites_bind.
  - apply keepsWrites_orElseM. apply keepsWrites_bind; [apply keepsWrites_nowISO |].
    intros now. apply keepsWrites_ret.
  - intros c. apply keepsWrites_bind; [apply keepsWrites_nowISO |]. intros u.
    apply keepsWrites_ret.
Qed.

End Writes.

(** The text of an object of two properties is made of the texts of their
    values. *)
Lemma stringify_pair (k1 k2 : string) (a a' b b' : Value) :
  stringify a = stringify a' -> stringify b = stringify b' ->
  stringify (VObj [(k1, a); (k2, b)]) = stringify (VObj [(k1, a'); (k2, b')]).
Proof.
  intros Ha Hb. rewrite !stringify_obj. cbn [flat_map fst snd]. unfold printedProperty.
  cbn [fst snd]. rewrite Ha, Hb. reflexivity.
Qed.

Lemma toValue_toJsonElement_arr (items : list Value) :
  toValue (toJsonElement (VArr items)) = VArr (map toValue (map toJsonElement items)).
Proof. reflexivity. Qed.

(* ===================================================================== *)
(** * Further properties of the data layer and the pages                  *)
(* ===================================================================== *)

(** ** Running a computation step by step *)

Lemma bind_Ok_inv {A B : Type} (m : M A) (k : A -> M B) (w w' : World) (b : B) :
  bind m k w = (Ok b, w') ->
  exists a w1, m w = (Ok a, w1) /\ k a w1 = (Ok b, w').
Proof.
  unfold bind. destruct (m w) as [[a | e] w1]; [eauto | discriminate].
Qed.

Lemma attempt_Ok_inv {A : Type} (host : Host) (s : Step) (m : M A) (w w' : World) (a : A) :
  attempt host s m w = (Ok a, w') -> raises host s = None /\ m w = (Ok a, w').
Proof.
  unfold attempt. destruct (raises host s); [discriminate | auto].
Qed.

Lemma keepsStore_run {A : Type} (m : M A) (w w' : World) (r : Result A) :
  keepsStore m -> m w = (r, w') -> store w' = store w.
Proof. intros Hm Hrun. specialize (Hm w). rewrite Hrun in Hm. exact Hm. Qed.

(** ** Objects: reading what was set *)

Lemma lookupProp_setProp_eq (k : string) (v : Value) (props : list (string * Value)) :
  lookupProp k (setProp k v props) = v.
Proof.
  induction props as [| [k' v'] props IH]; cbn.
  - rewrite String.eqb_refl. reflexivity.
  - destruct (String.eqb k k') eqn:Hk; cbn; rewrite Hk; [reflexivity | exact IH].
Qed.

Lemma lookupProp_setProp_ne (k k' : string) (v : Value) (props : list (string * Value)) :
  k <> k' -> lookupProp k' (setProp k v props) = lookupProp k' props.
Proof.
  intros Hne. induction props as [| [k0 v0] props IH]; cbn.
  - destruct (String.eqb k' k) eqn:Hk; [| reflexivity].
    apply String.eqb_eq in Hk. congruence.
  - destruct (String.eqb k k0) eqn:Hk0; cbn.
    + apply String.eqb_eq in Hk0. subst k0.
      destruct (String.eqb k' k) eqn:Hk; [| reflexivity].
      apply String.eqb_eq in Hk. congruence.
    + destruct (String.eqb k' k0); [reflexivity | exact IH].
Qed.

(** ** A submission that succeeds *)

Section Submitted.

Variable host : Host.

Lemma generateConsumerCode_nonempty (w w' : World) (code : string) :
  generateConsumerCode host w = (Ok code, w') -> code <> "".
Proof.
  unfold generateConsumerCode. intros Hrun.
  apply bind_Ok_inv in Hrun as (date & w1 & _ & Hrun).
  apply bind_Ok_inv in Hrun as (c & w2 & _ & Hrun).
  destruct (String.eqb c "") eqn:Hc; [discriminate |].
  injection Hrun as <- _. apply String.eqb_neq. exact Hc.
Qed.

Lemma buildFinalBatch_fields (userId' finalBatchId consumerCode : string)
    (farmer : Farmer) (batchData' : list (string * Value)) (w w' : World)
    (finalBatch : list (string * Value)) :
  buildFinalBatch host userId' finalBatchId consumerCode farmer batchData' w
  = (Ok finalBatch, w') ->
  lookupProp "id" finalBatch = VStr finalBatchId
  /\ lookupProp "farmerId" finalBatch = VStr userId'
  /\ lookupProp "farmerName" finalBatch = VStr (name farmer)
  /\ lookupProp "consumerCode" finalBatch = VStr consumerCode
  /\ lookupProp "cid" finalBatch = VStr ""
  /\ lookupProp "vcDigest" finalBatch = VStr "".
Proof.
  unfold buildFinalBatch. intros Hrun.
  apply bind_Ok_inv in Hrun as (harvestDate & w1 & _ & Hrun).
  apply bind_Ok_inv in Hrun as (created & w2 & _ & Hrun).
  apply bind_Ok_inv in Hrun as (updated & w3 & _ & Hrun).
  injection Hrun as <- _. repeat split; reflexivity.
Qed.

Lemma buildFinalBatch_blank (userId' finalBatchId consumerCode : string)
    (farmer : Farmer) (batchData' : list (string * Value)) (w w' : World)
    (finalBatch : list (string * Value)) (v1 v2 : Value) :
  buildFinalBatch host userId' finalBatchId consumerCode farmer batchData' w
  = (Ok finalBatch, w') ->
  blankDigests (setProp "vcDigest" v2 (setProp "cid" v1 finalBatch)) = finalBatch.
Proof.
  unfold buildFinalBatch. intros Hrun.
  apply bind_Ok_inv in Hrun as (harvestDate & w1 & _ & Hrun).
  apply bind_Ok_inv in Hrun as (created & w2 & _ & Hrun).
  apply bind_Ok_inv in Hrun as (updated & w3 & _ & Hrun).
  injection Hrun as <- _. reflexivity.
Qed.

Lemma finalizeClaim_batchId (finalBatchId : string) (claim finalClaim : list (string * Value))
    (w w' : World) :
  finalizeClaim host finalBatchId claim w = (Ok finalClaim, w') ->
  lookupProp "batchId" finalClaim = VStr finalBatchId.
Proof.
  unfold finalizeClaim. intros Hrun.
  apply bind_Ok_inv in Hrun as (created & w1 & _ & Hrun).
  apply bind_Ok_inv in Hrun as (updated & w2 & _ & Hrun).
  injection Hrun as <- _.
  rewrite !lookupProp_setProp_ne by discriminate.
  apply lookupProp_setProp_eq.
Qed.

Lemma mapM_finalizeClaim (finalBatchId : string) (claims' finalClaims : list (list (string * Value)))
    (w w' : World) :
  mapM (finalizeClaim host finalBatchId) claims' w = (Ok finalClaims, w') ->
  length finalClaims = length claims'
  /\ Forall (fun c => lookupProp "batchId" c = VStr finalBatchId) finalClaims.
Proof.
  revert finalClaims w w'. induction claims' as [| claim claims' IH]; intros finalClaims w w';
    cbn [mapM].
  - intros [= <- _]. split; [reflexivity | constructor].
  - intros Hrun.
    apply bind_Ok_inv in Hrun as (c & w1 & Hc & Hrun).
    apply bind_Ok_inv in Hrun as (cs & w2 & Hcs & Hrun).
    injection Hrun as <- _.
    destruct (IH _ _ _ Hcs) as [Hlen Hall]. split; [cbn; lia |].
    constructor; [eapply finalizeClaim_batchId; exact Hc | exact Hall].
Qed.

(** The codes that the loop builds are no name of the prototype chain. *)
Lemma codeAttempts_not_proto (remaining : nat) (year month day : string) (w w' : World)
    (code : string) :
  codeAttempts host remaining year month day w = (Ok code, w') ->
  String.eqb code "__proto__" = false.
Proof.
  revert w w'. induction remaining as [| n IH]; intros w w'; cbn [codeAttempts].
  - intros [= <- _]. reflexivity.
  - intros Hrun.
    apply bind_Ok_inv in Hrun as (r & w1 & _ & Hrun).
    apply bind_Ok_inv in Hrun as (mapping & w2 & _ & Hrun).
    destruct mapping as [mapping |]; [exact (IH _ _ Hrun) |].
    injection Hrun as <- _. rewrite append_cons. reflexivity.
Qed.

Lemma generateConsumerCode_not_proto (w w' : World) (code : string) :
  generateConsumerCode host w = (Ok code, w') -> String.eqb code "__proto__" = false.
Proof.
  unfold generateConsumerCode. intros Hrun.
  apply bind_Ok_inv in Hrun as (date & w1 & _ & Hrun).
  apply bind_Ok_inv in Hrun as (c & w2 & Hloop & Hrun).
  destruct (String.eqb c "") eqn:Hc; [discriminate |].
  injection Hrun as <- _. exact (codeAttempts_not_proto _ _ _ _ _ _ _ Hloop).
Qed.

(** Storing the claims one by one appends them all, in order, and touches
    nothing else, when the storage accepts the writes. *)
Lemma forEach_addClaim (finalClaims : list (list (string * Value))) (i : nat) (w w' : World) :
  forEach (fun i claim => attempt host (SAddClaim i) (addClaim host (VObj claim)))
          i finalClaims w
  = (Ok tt, w') ->
  acceptsWrites host (writes w) (length finalClaims) ->
  store w' = withClaims (store w) (map (fun c => toJsonElement (VObj c)) finalClaims)
  /\ writes w' = (writes w + length finalClaims)%nat.
Proof.
  revert i w w'. induction finalClaims as [| claim rest IH]; intros i w w'; cbn [forEach map].
  - intros [= <-] _. unfold withClaims. rewrite app_nil_r. cbn [length].
    split; [destruct (store w); reflexivity | lia].
  - intros Hrun Hacc. apply bind_Ok_inv in Hrun as ([] & w1 & Hadd & Hrun).
    apply attempt_Ok_inv in Hadd as [_ Hadd].
    rewrite addClaim_run in Hadd. injection Hadd as <-.
    rewrite (Hacc (writes w)) in Hrun by (cbn [length]; lia).
    destruct (IH _ _ _ Hrun) as [Hstore Hwrites].
    + intros n Hn. apply Hacc. cbn [writes length] in *. lia.
    + rewrite Hstore, Hwrites. cbn [store writes length]. split; [| lia].
      unfold withClaims. cbn [farmers batches claims codes transparencyLog drafts].
      rewrite <- app_assoc. reflexivity.
Qed.

(** Everything a run of the [try] block that reaches its end went
    through, and what it leaves in a storage that accepts its writes: one
    for the log, one for the batch, one for each claim and one for the
    index. *)
Lemma submit_trace (userId' : string) (batchData' : list (string * Value))
    (claims' : list (list (string * Value))) (w w' : World) (code : string) :
  submit host userId' batchData' claims' w = (Ok code, w') ->
  acceptsWrites host (writes w) (3 + length claims') ->
  exists finalBatchId finalBatch finalClaims cid0 issued w6 w7,
    codes (store w) !! code = None
    /\ lookupProp "id" finalBatch = VStr finalBatchId
    /\ lookupProp "farmerId" finalBatch = VStr userId'
    /\ lookupProp "consumerCode" finalBatch = VStr code
    /\ lookupProp "cid" finalBatch = VStr ""
    /\ lookupProp "vcDigest" finalBatch = VStr ""
    /\ (forall v1 v2,
          blankDigests (setProp "vcDigest" v2 (setProp "cid" v1 finalBatch)) = finalBatch)
    /\ code <> ""
    /\ length finalClaims = length claims'
    /\ Forall (fun c => lookupProp "batchId" c = VStr finalBatchId) finalClaims
    /\ computeCid (VObj [ ("batch", VObj finalBatch);
                          ("claims", VArr (map VObj finalClaims)) ]) = Ok cid0
    /\ issueVerifiableCredential host cid0 userId' finalBatchId w6 = (Ok issued, w7)
    /\ store w6 = store w
    /\ store w'
       = {| farmers := farmers (store w);
            batches := (batches (store w)
                          ++ [toJsonElement
                                (VObj (setProp "vcDigest" (VStr (vcDigest issued))
                                         (setProp "cid" (VStr cid0) finalBatch)))])%list;
            claims := (claims (store w)
                         ++ map (fun c => toJsonElement (VObj c)) finalClaims)%list;
            codes := <[code := {| cm_cid := cid0; cm_vcDigest := vcDigest issued;
                                  cm_batchId := finalBatchId |}]> (codes (store w));
            transparencyLog :=
              (logOf w ++ [ {| index := length (logOf w); digest := vcDigest issued;
                               previousHash := digest <$> last (logOf w);
                               timestamp := toISOString (clock host (dateReads w7));
                               cid := cid0 |} ])%list;
            drafts := delete userId' (drafts (store w)) |}.
Proof.
  intros Hrun Hacc. unfold submit in Hrun.
  apply bind_Ok_inv in Hrun as (code' & w1 & Hgen & Hrun).
  pose proof (generateConsumerCode_fresh host _ _ _ Hgen) as [Hfresh _].
  pose proof (generateConsumerCode_nonempty _ _ _ Hgen) as Hnonempty.
  pose proof (generateConsumerCode_not_proto _ _ _ Hgen) as Hproto.
  pose proof (keepsStore_run _ _ _ _ (keepsStore_generateConsumerCode host) Hgen) as Hs1.
  pose proof (keepsWrites_run _ _ _ _ (keepsWrites_generateConsumerCode host) Hgen) as Hw1.
  apply bind_Ok_inv in Hrun as (farmer & w2 & Hfarmer & Hrun).
  pose proof (keepsStore_run _ _ _ _ (keepsStore_getFarmerById userId') Hfarmer) as Hs2.
  pose proof (keepsWrites_run _ _ _ _ (keepsWrites_getFarmerById userId') Hfarmer) as Hw2.
  destruct farmer as [farmer |]; [| discriminate].
  apply bind_Ok_inv in Hrun as (finalBatchId & w3 & Huuid & Hrun).
  pose proof (keepsStore_run _ _ _ _ (keepsStore_uuidv4 host) Huuid) as Hs3.
  pose proof (keepsWrites_run _ _ _ _ (keepsWrites_uuidv4 host) Huuid) as Hw3.
  apply bind_Ok_inv in Hrun as (finalBatch & w4 & Hbatch & Hrun).
  pose proof (keepsStore_run _ _ _ _ (keepsStore_buildFinalBatch host _ _ _ _ _) Hbatch) as Hs4.
  pose proof (keepsWrites_run _ _ _ _ (keepsWrites_buildFinalBatch host _ _ _ _ _) Hbatch) as Hw4.
  destruct (buildFinalBatch_fields _ _ _ _ _ _ _ _ Hbatch)
    as (Hid & Hfarm & _ & Hcc & Hcid0 & Hvc0).
  apply bind_Ok_inv in Hrun as (finalClaims & w5 & Hclaims & Hrun).
  pose proof (keepsStore_run _ _ _ _
                (keepsStore_mapM _ _ (keepsStore_finalizeClaim host finalBatchId)) Hclaims) as Hs5.
  pose proof (keepsWrites_run _ _ _ _
                (keepsWrites_mapM _ _ (keepsWrites_finalizeClaim host finalBatchId)) Hclaims)
    as Hw5.
  destruct (mapM_finalizeClaim _ _ _ _ _ Hclaims) as [Hlen Hall].
  apply bind_Ok_inv in Hrun as (cid0 & w6 & Hcid & Hrun).
  apply attempt_Ok_inv in Hcid as [_ Hcid].
  pose proof (keepsStore_run _ _ _ _ (keepsStore_liftR _) Hcid) as Hs6.
  pose proof (keepsWrites_run _ _ _ _ (keepsWrites_liftR _) Hcid) as Hw6.
  apply bind_Ok_inv in Hrun as (issued & w7 & Hissue & Hrun).
  apply attempt_Ok_inv in Hissue as [_ Hissue].
  pose proof (keepsStore_run _ _ _ _ (keepsStore_issue host _ _ _) Hissue) as Hs7.
  pose proof (keepsWrites_run _ _ _ _ (keepsWrites_issue host _ _ _) Hissue) as Hw7.
  assert (Hs : store w7 = store w) by congruence.
  assert (Hw : writes w7 = writes w) by congruence.
  apply bind_Ok_inv in Hrun as (n & w8 & Happend & Hrun).
  apply attempt_Ok_inv in Happend as [_ Happend].
  rewrite appendToTransparencyLog_spec in Happend.
  rewrite Hw, (Hacc (writes w)) in Happend by lia. injection Happend as _ <-.
  apply bind_Ok_inv in Hrun as ([] & w9 & Haddb & Hrun).
  apply attempt_Ok_inv in Haddb as [_ Haddb].
  rewrite addBatch_run in Haddb. cbn [writes store] in Haddb.
  rewrite (Hacc (S (writes w))) in Haddb by lia. injection Haddb as <-.
  apply bind_Ok_inv in Hrun as ([] & w10 & Hforeach & Hrun).
  apply forEach_addClaim in Hforeach;
    [| intros k Hk; apply Hacc; cbn [writes] in Hk; lia].
  destruct Hforeach as [Hs10 Hw10]. cbn [writes store] in Hs10, Hw10.
  apply bind_Ok_inv in Hrun as ([] & w11 & Haddc & Hrun).
  apply attempt_Ok_inv in Haddc as [_ Haddc].
  rewrite (addCodeMapping_run host _ _ _ _ _ Hproto) in Haddc.
  rewrite Hw10, (Hacc (S (S (writes w)) + length finalClaims)%nat) in Haddc by lia.
  injection Haddc as <-.
  apply bind_Ok_inv in Hrun as ([] & w12 & Hclear & Hrun).
  apply attempt_Ok_inv in Hclear as [_ Hclear].
  rewrite clearDraftBatch_run in Hclear. injection Hclear as <-.
  injection Hrun as <- <-.
  exists finalBatchId, finalBatch, finalClaims, cid0, issued, w6, w7.
  split; [exact Hfresh |].
  do 5 (split; [assumption |]).
  split; [intros v1 v2; eapply buildFinalBatch_blank; exact Hbatch |].
  do 3 (split; [assumption |]).
  split; [unfold liftR in Hcid; apply (f_equal fst) in Hcid; exact Hcid |].
  split; [exact Hissue |].
  split; [congruence |].
  cbn [store]. rewrite Hs10.
  unfold withoutDraft, withCode, withClaims, withBatch, withLogEntry, newLogEntry, logOf.
  cbn [store farmers batches claims codes transparencyLog drafts]. rewrite Hs. reflexivity.
Qed.

(** The [try] block is reached only with valid inputs and a signed-in
    farmer, and [Submitted] reports its result. *)
Lemma handleFinalSubmit_Submitted (sub : Submission) (w : World) (code : string) :
  fst (handleFinalSubmit host sub w) = Submitted code ->
  exists userId',
    userId sub = Some userId'
    /\ submit host userId' (batchData sub) (claimsState sub) w
       = (Ok code, snd (handleFinalSubmit host sub w)).
Proof.
  unfold handleFinalSubmit.
  destruct (negb (validateAllInputs sub)); [discriminate |].
  destruct (userId sub) as [userId' |]; [| discriminate].
  destruct (String.eqb userId' ""); [discriminate |].
  destruct (submit host userId' (batchData sub) (claimsState sub) w) as [[c | e] w'] eqn:Hrun;
    [| discriminate].
  cbn [fst snd]. intros [= ->]. exists userId'. split; [reflexivity | exact Hrun].
Qed.

End Submitted.



(** A submission reports success also when the storage took none of its
    writes: nothing but the removal of the draft has happened. *)
Example submitted_on_full_storage :
  fst (handleFinalSubmit fullStorageHost applesForm seededWorld)
  = Submitted "AGRITRUST-231115-1234"
  /\ store (snd (handleFinalSubmit fullStorageHost applesForm seededWorld))
     = withoutDraft (store seededWorld) "20231115-greenacres-0001".
Proof. vm_compute. split; reflexivity. Qed.

(** ** What the digests of a submission are digests of *)

Lemma issueVerifiableCredentialAt_digest
    (timestamp uuid cid farmerId batchId : string) (issued : Issued) :
  issueVerifiableCredentialAt timestamp uuid cid farmerId batchId = Ok issued ->
  sha256OfJson (vcObject issued) = Ok (vcDigest issued)
  /\ optGet (optGet (vcObject issued) "credentialSubject") "cid" = VStr cid
  /\ optGet (optGet (vcObject issued) "credentialSubject") "batchId" = VStr batchId
  /\ optGet (vcObject issued) "issuer" = VStr ("did:agritrust:" +:+ farmerId).
Proof.
  unfold issueVerifiableCredentialAt.
  set (credential := VObj _).
  destruct (sha256OfJson credential) as [d | e] eqn:Hd; [| discriminate].
  cbn [bindR]. intros [= <-]. cbn [vcObject vcDigest].
  split; [exact Hd |]. repeat split; reflexivity.
Qed.

(** X2.  After a successful submission into a storage that accepted its
    writes, the content digest in the index is the digest of the batch as
    it is read back, with [cid] and [vcDigest] blanked, together with the
    claims of the submission as they are read back, and the credential
    digest in the index is the digest of a credential that the verifier
    accepts and that names this content digest, this batch and this
    farmer. *)
Theorem submitted_digests (host : Host) (sub : Submission) (w : World) (code : string) :
  fst (handleFinalSubmit host sub w) = Submitted code ->
  acceptsWrites host (writes w) (3 + length (claimsState sub)) ->
  exists userId' mapping storedBatch storedProperties storedClaims credential,
    userId sub = Some userId'
    /\ fst (getCodeMapping code (snd (handleFinalSubmit host sub w)))
       = Ok (Some (Mapping mapping))
    /\ batches (store (snd (handleFinalSubmit host sub w)))
       = (batches (store w) ++ [storedBatch])%list
    /\ claims (store (snd (handleFinalSubmit host sub w)))
       = (claims (store w) ++ storedClaims)%list
    /\ toValue storedBatch = VObj storedProperties
    /\ computeCid (VObj [ ("batch", VObj (blankDigests storedProperties));
                          ("claims", VArr (map toValue storedClaims)) ])
       = Ok (cm_cid mapping)
    /\ lookupProp "cid" storedProperties = VStr (cm_cid mapping)
    /\ sha256OfJson credential = Ok (cm_vcDigest mapping)
    /\ validateVcSignature credential = Ok true
    /\ optGet (optGet credential "credentialSubject") "cid" = VStr (cm_cid mapping)
    /\ optGet (optGet credential "credentialSubject") "batchId" = VStr (cm_batchId mapping)
    /\ optGet credential "issuer" = VStr ("did:agritrust:" +:+ userId').
Proof.
  intros Hsub Hacc.
  destruct (handleFinalSubmit_Submitted host sub w code Hsub) as (userId' & Huser & Hrun).
  destruct (submit_trace host _ _ _ _ _ _ Hrun Hacc)
    as (finalBatchId & finalBatch & finalClaims & cid0 & issued & w6 & w7
        & _ & _ & _ & _ & Hcid0 & Hvc0 & Hblank & _ & _ & _ & Hcid & Hissue & _ & Hstore).
  rewrite issueVerifiableCredential_unfold in Hissue.
  apply (f_equal fst) in Hissue. cbn [fst] in Hissue.
  destruct (issueVerifiableCredentialAt_digest _ _ _ _ _ _ Hissue)
    as (Hdigest & Hsubjcid & Hsubjbatch & Hissuer).
  set (final := setProp "vcDigest" (VStr (vcDigest issued))
                  (setProp "cid" (VStr cid0) finalBatch)) in *.
  assert (Hfinalcid : lookupProp "cid" final = VStr cid0).
  { unfold final. rewrite lookupProp_setProp_ne by discriminate. apply lookupProp_setProp_eq. }
  exists userId',
    {| cm_cid := cid0; cm_vcDigest := vcDigest issued; cm_batchId := finalBatchId |},
    (toJsonElement (VObj final)), (storedProps final),
    (map (fun c => toJsonElement (VObj c)) finalClaims), (vcObject issued).
  split; [exact Huser |].
  split.
  { unfold getCodeMapping, bind, getStore, ret. cbn [fst]. rewrite Hstore. cbn [codes].
    rewrite lookup_insert_eq. reflexivity. }
  split; [rewrite Hstore; reflexivity |].
  split; [rewrite Hstore; reflexivity |].
  split; [apply toValue_toJsonElement_obj |].
  split.
  { unfold blankDigests.
    rewrite <- (storedProps_setProp "cid" cid0 "" final Hfinalcid).
    rewrite <- (storedProps_setProp "vcDigest" (vcDigest issued) "");
      [| rewrite lookupProp_setProp_ne by discriminate; apply lookupProp_setProp_eq].
    fold (blankDigests final). unfold final. rewrite Hblank.
    cbn [cm_cid]. rewrite <- Hcid. unfold computeCid, sha256OfJson.
    rewrite (stringify_pair "batch" "claims"
               (VObj (storedProps finalBatch)) (VObj finalBatch)
               (VArr (map toValue (map (fun c => toJsonElement (VObj c)) finalClaims)))
               (VArr (map VObj finalClaims))); [reflexivity | |].
    - rewrite <- toValue_toJsonElement_obj. apply stringify_toJsonElement. discriminate.
    - rewrite <- (map_map VObj toJsonElement), <- toValue_toJsonElement_arr.
      apply stringify_toJsonElement. discriminate. }
  split; [apply lookupProp_storedProps; exact Hfinalcid |].
  split; [exact Hdigest |].
  split.
  { eapply validate_issued_at; [apply toISOString_nonempty | exact Hissue]. }
  cbn [cm_cid cm_batchId]. repeat split; assumption.
Qed.

Lemma submitted_digests_witness :
  exists mapping,
    fst (getCodeMapping "AGRITRUST-231115-1234"
           (snd (handleFinalSubmit quietHost applesForm seededWorld)))
    = Ok (Some (Mapping mapping)).
Proof.
  assert (H : fst (handleFinalSubmit quietHost applesForm seededWorld)
              = Submitted "AGRITRUST-231115-1234") by (vm_compute; reflexivity).
  assert (Hacc : acceptsWrites quietHost (writes seededWorld)
                   (3 + length (claimsState applesForm))) by (intros n _; reflexivity).
  destruct (submitted_digests quietHost applesForm seededWorld "AGRITRUST-231115-1234" H Hacc)
    as (userId' & mapping & b & p & c & credential & _ & Hmapping & _).
  exists mapping. exact Hmapping.
Defined.

(** ** Looking a submission up again *)

Lemma find_app_last {A : Type} (p : A -> bool) (l : list A) (x : A) :
  p x = true ->
  exists y, find p (l ++ [x]) = Some y /\ p y = true
            /\ ((forall z, z ∈ l -> p z = false) -> y = x).
Proof.
  intros Hx. induction l as [| a l IH]; cbn.
  - rewrite Hx. exists x. repeat split; trivial.
  - destruct (p a) eqn:Ha.
    + exists a. repeat split; trivial. intros H.
      specialize (H a ltac:(left)). congruence.
    + destruct IH as (y & Hy & Hpy & Hlast). exists y. repeat split; trivial.
      intros H. apply Hlast. intros z Hz. apply H. right. exact Hz.
Qed.

(** X3.  Right after a successful submission into a storage that
    accepted its writes, the log check for the digests in the index finds
    the entry; it reports it inconsistent only if the log already held an
    entry with the same credential digest and another content digest. *)
Theorem submitted_then_check (host : Host) (sub : Submission) (w : World) (code : string) :
  fst (handleFinalSubmit host sub w) = Submitted code ->
  acceptsWrites host (writes w) (3 + length (claimsState sub)) ->
  exists mapping answer,
    fst (getCodeMapping code (snd (handleFinalSubmit host sub w)))
    = Ok (Some (Mapping mapping))
    /\ length (logOf (snd (handleFinalSubmit host sub w))) = S (length (logOf w))
    /\ fst (checkTransparencyLog (cm_vcDigest mapping) (cm_cid mapping)
              (snd (handleFinalSubmit host sub w))) = Ok answer
    /\ exists_ answer = true
    /\ (consistent answer = false ->
        exists older, older ∈ logOf w /\ digest older = cm_vcDigest mapping
                      /\ cid older <> cm_cid mapping)
    /\ ((forall older, older ∈ logOf w -> digest older <> cm_vcDigest mapping) ->
        consistent answer = true).
Proof.
  intros Hsub Hacc.
  destruct (handleFinalSubmit_Submitted host sub w code Hsub) as (userId' & Huser & Hrun).
  destruct (submit_trace host _ _ _ _ _ _ Hrun Hacc)
    as (finalBatchId & finalBatch & finalClaims & cid0 & issued & w6 & w7
        & _ & _ & _ & _ & _ & _ & _ & _ & _ & _ & _ & _ & _ & Hstore).
  set (w' := snd (handleFinalSubmit host sub w)) in *.
  set (entry := {| index := length (logOf w); digest := vcDigest issued;
                   previousHash := digest <$> last (logOf w);
                   timestamp := toISOString (clock host (dateReads w7)); cid := cid0 |}) in *.
  assert (Hlog : logOf w' = (logOf w ++ [entry])%list) by (unfold logOf; rewrite Hstore; reflexivity).
  assert (Hmapping : fst (getCodeMapping code w')
                     = Ok (Some (Mapping {| cm_cid := cid0; cm_vcDigest := vcDigest issued;
                                            cm_batchId := finalBatchId |}))).
  { unfold getCodeMapping, bind, getStore, ret. cbn [fst]. rewrite Hstore. cbn [codes].
    rewrite lookup_insert_eq. reflexivity. }
  exists {| cm_cid := cid0; cm_vcDigest := vcDigest issued; cm_batchId := finalBatchId |}.
  cbn [cm_cid cm_vcDigest].
  destruct (find_app_last (fun e => String.eqb (digest e) (vcDigest issued)) (logOf w) entry
              (String.eqb_refl _)) as (found & Hfound & Hdigest & Hlast).
  apply String.eqb_eq in Hdigest.
  unfold checkTransparencyLog, getTransparencyLog, bind, getStore, ret. cbn [fst].
  fold (logOf w'). rewrite Hlog, Hfound.
  assert (Hin : found = entry \/ found ∈ logOf w).
  { apply find_some in Hfound as [Hin _]. apply list_elem_of_In in Hin.
    apply elem_of_app in Hin as [Hin | Hin]; [right; exact Hin |].
    left. apply list_elem_of_singleton in Hin. exact Hin. }
  destruct (String.eqb (cid found) cid0) eqn:Hcid; cbn [negb].
  - eexists. split; [exact Hmapping |].
    split; [rewrite length_app; cbn; lia |].
    split; [reflexivity |]. cbn. split; [reflexivity |]. split; [discriminate | reflexivity].
  - apply String.eqb_neq in Hcid.
    eexists. split; [exact Hmapping |].
    split; [rewrite length_app; cbn; lia |].
    split; [reflexivity |]. cbn. split; [reflexivity |]. split.
    + intros _. destruct Hin as [-> | Hin]; [contradiction Hcid; reflexivity |].
      exists found. repeat split; assumption.
    + intros Hnone. exfalso. destruct Hin as [-> | Hin]; [apply Hcid; reflexivity |].
      apply (Hnone found Hin). exact Hdigest.
Qed.

Lemma submitted_then_check_witness :
  exists mapping,
    fst (getCodeMapping "AGRITRUST-231115-1234"
           (snd (handleFinalSubmit quietHost applesForm seededWorld)))
    = Ok (Some (Mapping mapping))
    /\ length (logOf (snd (handleFinalSubmit quietHost applesForm seededWorld))) = 1%nat.
Proof.
  assert (H : fst (handleFinalSubmit quietHost applesForm seededWorld)
              = Submitted "AGRITRUST-231115-1234") by (vm_compute; reflexivity).
  assert (Hacc : acceptsWrites quietHost (writes seededWorld)
                   (3 + length (claimsState applesForm))) by (intros n _; reflexivity).
  destruct (submitted_then_check quietHost applesForm seededWorld "AGRITRUST-231115-1234" H Hacc)
    as (mapping & answer & Hmapping & Hlen & _).
  exists mapping. split; [exact Hmapping | exact Hlen].
Defined.

(** ** The claims page *)

Lemma bind_Throw_inv {A B : Type} (m : M A) (k : A -> M B) (w w' : World) (e : Exn) :
  bind m k w = (Throw e, w') ->
  m w = (Throw e, w') \/ exists a w1, m w = (Ok a, w1) /\ k a w1 = (Throw e, w').
Proof.
  unfold bind. destruct (m w) as [[a | e'] w1]; [eauto | intros [= <- <-]; auto].
Qed.

Lemma liftR_Ok_inv {A : Type} (r : Result A) (w w' : World) (a : A) :
  liftR r w = (Ok a, w') -> r = Ok a /\ w' = w.
Proof. unfold liftR. intros [= -> <-]. auto. Qed.

Lemma liftR_Throw_inv {A : Type} (r : Result A) (w w' : World) (e : Exn) :
  liftR r w = (Throw e, w') -> r = Throw e.
Proof. unfold liftR. intros [= -> _]. reflexivity. Qed.

Lemma truthy_present (v : Value) : truthy v = true -> present v = true.
Proof. destruct v; cbn; intros H; try discriminate; reflexivity. Qed.

Section ClaimsPage.

Variable host : Host.

(** The verifier accepts what the issuer builds from values that print. *)
Lemma validate_credentialOf (timestamp uuid farmerText cidText batchText : string)
    (cid farmerId batchId : Value) :
  String.eqb timestamp "" = false ->
  toString cid = Ok cidText ->
  toString batchId = Ok batchText ->
  validateVcSignature
    (credentialOf timestamp uuid farmerText cidText batchText cid farmerId batchId)
  = Ok true.
Proof.
  intros Hts Hcid Hbatch. unfold validateVcSignature, credentialOf. cbn.
  rewrite sha256_nonempty, Hts. cbn. rewrite Hcid. cbn [bindR]. rewrite Hbatch. cbn [bindR].
  cbn. rewrite eqb_refl_true. reflexivity.
Qed.

Lemma issueVerifiableCredentialOf_Ok (cid farmerId batchId : Value) (w w' : World)
    (issued : Issued) :
  issueVerifiableCredentialOf host cid farmerId batchId w = (Ok issued, w') ->
  store w' = store w /\ validateVcSignature (vcObject issued) = Ok true.
Proof.
  unfold issueVerifiableCredentialOf. intros Hrun.
  apply bind_Ok_inv in Hrun as (timestamp & w1 & Hts & Hrun). injection Hts as <- <-.
  apply bind_Ok_inv in Hrun as (farmerText & w2 & Hf & Hrun).
  apply liftR_Ok_inv in Hf as [Hf ->].
  apply bind_Ok_inv in Hrun as (cidText & w3 & Hc & Hrun).
  apply liftR_Ok_inv in Hc as [Hc ->].
  apply bind_Ok_inv in Hrun as (batchText & w4 & Hb & Hrun).
  apply liftR_Ok_inv in Hb as [Hb ->].
  apply bind_Ok_inv in Hrun as (uuid & w5 & Hu & Hrun). injection Hu as <- <-.
  apply bind_Ok_inv in Hrun as (d & w6 & Hd & Hrun).
  apply liftR_Ok_inv in Hd as [Hd ->].
  injection Hrun as <- <-. cbn [store vcObject]. split; [reflexivity |].
  apply validate_credentialOf; [apply toISOString_nonempty | exact Hc | exact Hb].
Qed.

(** Issuing fails only on a value that does not print. *)
Lemma issueVerifiableCredentialOf_Throw (cid farmerId batchId : Value) (w w' : World)
    (e : Exn) :
  issueVerifiableCredentialOf host cid farmerId batchId w = (Throw e, w') ->
  e = unprintable.
Proof.
  unfold issueVerifiableCredentialOf. intros Hrun.
  apply bind_Throw_inv in Hrun as [Hrun | (timestamp & w1 & _ & Hrun)]; [discriminate |].
  apply bind_Throw_inv in Hrun as [Hrun | (farmerText & w2 & _ & Hrun)].
  { apply liftR_Throw_inv in Hrun. exact (toString_Throw _ _ Hrun). }
  apply bind_Throw_inv in Hrun as [Hrun | (cidText & w3 & _ & Hrun)].
  { apply liftR_Throw_inv in Hrun. exact (toString_Throw _ _ Hrun). }
  apply bind_Throw_inv in Hrun as [Hrun | (batchText & w4 & _ & Hrun)].
  { apply liftR_Throw_inv in Hrun. exact (toString_Throw _ _ Hrun). }
  apply bind_Throw_inv in Hrun as [Hrun | (uuid & w5 & _ & Hrun)]; [discriminate |].
  apply bind_Throw_inv in Hrun as [Hrun | (d & w6 & _ & Hrun)]; [| discriminate].
  apply liftR_Throw_inv in Hrun. unfold sha256OfJson, credentialOf in Hrun.
  rewrite stringify_obj in Hrun. discriminate.
Qed.


Lemma keepsStore_getBatchById (batchId : Value) : keepsStore (getBatchById batchId).
Proof.
  unfold getBatchById. apply keepsStore_bind; [intros w; reflexivity |].
  intros bs. apply keepsStore_liftR.
Qed.

Lemma keepsStore_getClaimsByBatchId (batchId : Value) :
  keepsStore (getClaimsByBatchId batchId).
Proof.
  unfold getClaimsByBatchId. apply keepsStore_bind; [intros w; reflexivity |].
  intros cs. apply keepsStore_liftR.
Qed.

Lemma checkTransparencyLog_run (vcDigest expectedCid : string) (w : World) :
  checkTransparencyLog vcDigest expectedCid w
  = (Ok (logAnswer (logOf w) vcDigest expectedCid), w).
Proof.
  unfold checkTransparencyLog, getTransparencyLog, bind, getStore, ret, logAnswer, logOf.
  cbn. destruct (find _ _) as [entry |]; [| reflexivity].
  destruct (negb _); reflexivity.
Qed.

(** On the digests of an entry of the index the check of the claims page
    is [checkTransparencyLog]. *)
Lemma checkTransparencyLogOf_strings (vcDigest expectedCid : string) (w : World) :
  checkTransparencyLogOf (VStr vcDigest) (VStr expectedCid) w
  = checkTransparencyLog vcDigest expectedCid w.
Proof. reflexivity. Qed.

(** On [undefined] it finds nothing. *)
Lemma checkTransparencyLogOf_undefined (expectedCid : Value) (w : World) :
  checkTransparencyLogOf VUndefined expectedCid w
  = (Ok {| exists_ := false; consistent := false |}, w).
Proof.
  unfold checkTransparencyLogOf, getTransparencyLog, bind, getStore, ret.
  replace (find (fun e => strictEq (VStr (digest e)) VUndefined) (transparencyLog (store w)))
    with (@None LogEntry); [reflexivity |].
  induction (transparencyLog (store w)) as [| e log IH]; [reflexivity | exact IH].
Qed.

Lemma checkTransparencyLogOf_total (vcDigest expectedCid : Value) (w : World) :
  exists answer, checkTransparencyLogOf vcDigest expectedCid w = (Ok answer, w).
Proof.
  unfold checkTransparencyLogOf, getTransparencyLog, bind, getStore, ret.
  destruct (find _ _) as [entry |]; [| eauto].
  destruct (negb _); eauto.
Qed.

Lemma keepsStore_checkTransparencyLog (vcDigest expectedCid : string) :
  keepsStore (checkTransparencyLog vcDigest expectedCid).
Proof. intros w. rewrite checkTransparencyLog_run. reflexivity. Qed.

Lemma keepsStore_checkTransparencyLogOf (vcDigest expectedCid : Value) :
  keepsStore (checkTransparencyLogOf vcDigest expectedCid).
Proof.
  intros w. destruct (checkTransparencyLogOf_total vcDigest expectedCid w) as [answer ->].
  reflexivity.
Qed.

Lemma keepsStore_issueOf (cid farmerId batchId : Value) :
  keepsStore (issueVerifiableCredentialOf host cid farmerId batchId).
Proof.
  unfold issueVerifiableCredentialOf.
  apply keepsStore_bind; [apply keepsStore_nowISO |]. intros timestamp.
  apply keepsStore_bind; [apply keepsStore_liftR |]. intros farmerText.
  apply keepsStore_bind; [apply keepsStore_liftR |]. intros cidText.
  apply keepsStore_bind; [apply keepsStore_liftR |]. intros batchText.
  apply keepsStore_bind; [apply keepsStore_uuidv4 |]. intros uuid.
  apply keepsStore_bind; [apply keepsStore_liftR |]. intros d.
  apply keepsStore_ret.
Qed.

Lemma keepsStore_fetchBody (code : string) : keepsStore (fetchBody host code).
Proof.
  unfold fetchBody.
  apply keepsStore_bind; [apply keepsStore_getCodeMapping |].
  intros [found |]; [| apply keepsStore_ret].
  apply keepsStore_bind; [apply keepsStore_getBatchById |].
  intros [fetchedBatch |]; [| apply keepsStore_ret].
  destruct (negb (truthy fetchedBatch)); [apply keepsStore_ret |].
  apply keepsStore_bind; [apply keepsStore_getClaimsByBatchId |]. intros fetchedClaims.
  apply keepsStore_bind; [apply keepsStore_liftR |]. intros farmerId.
  apply keepsStore_bind; [apply keepsStore_liftR |]. intros batchId.
  apply keepsStore_bind; [apply keepsStore_issueOf |]. intros issued.
  apply keepsStore_bind; [apply keepsStore_liftR |]. intros isVcValid.
  apply keepsStore_bind; [apply keepsStore_checkTransparencyLogOf |]. intros check.
  apply keepsStore_ret.
Qed.

Lemma getCodeMapping_Ok_inv (code : string) (w w' : World) (found : option Found) :
  getCodeMapping code w = (Ok found, w') ->
  w' = w
  /\ found = match codes (store w) !! code with
             | Some mapping => Some (Mapping mapping)
             | None => if inheritedName code then Some Inherited else None
             end.
Proof. unfold getCodeMapping, bind, getStore, ret. intros [= <- <-]. auto. Qed.

(** What a completed fetch went through. *)
Lemma fetchBody_Done (code : string) (w w' : World) (fetchedBatch : Value)
    (fetchedClaims : list Value) (status : VerificationStatus) :
  fetchBody host code w = (Ok (FetchDone fetchedBatch fetchedClaims status), w') ->
  exists found,
    getCodeMapping code w = (Ok (Some found), w)
    /\ findR (propEq "id" (foundBatchId found)) (map toValue (batches (store w)))
       = Ok (Some fetchedBatch)
    /\ truthy fetchedBatch = true
    /\ filterR (propEq "batchId" (foundBatchId found)) (map toValue (claims (store w)))
       = Ok fetchedClaims
    /\ vcValid status = true
    /\ vcMessage status = "VC signature is valid."
    /\ checkTransparencyLogOf (foundVcDigest found) (foundCid found) w
       = (Ok {| exists_ := logExists status; consistent := logConsistent status |}, w)
    /\ logMessage status
       = (if logExists status && logConsistent status
          then "VC digest found and consistent in transparency log."
          else if logExists status && negb (logConsistent status)
               then "VC digest found but inconsistent in transparency log!"
               else "VC digest NOT found in transparency log.").
Proof.
  unfold fetchBody. intros Hrun.
  apply bind_Ok_inv in Hrun as (found & w1 & Hmapping & Hrun).
  pose proof (getCodeMapping_Ok_inv _ _ _ _ Hmapping) as [-> _].
  destruct found as [found |]; [| discriminate].
  apply bind_Ok_inv in Hrun as (fetched & w2 & Hfound & Hrun).
  pose proof (keepsStore_run _ _ _ _ (keepsStore_getBatchById _) Hfound) as Hs2.
  unfold getBatchById, getBatches, bind, getStore, ret, liftR in Hfound.
  apply (f_equal fst) in Hfound. cbn [fst] in Hfound.
  destruct fetched as [fetched |]; [| discriminate].
  destruct (truthy fetched) eqn:Htruthy; cbn [negb] in Hrun; [| discriminate].
  apply bind_Ok_inv in Hrun as (kept & w3 & Hkept & Hrun).
  pose proof (keepsStore_run _ _ _ _ (keepsStore_getClaimsByBatchId _) Hkept) as Hs3.
  unfold getClaimsByBatchId, getClaims, bind, getStore, ret, liftR in Hkept.
  apply (f_equal fst) in Hkept. cbn [fst] in Hkept. rewrite Hs2 in Hkept.
  apply bind_Ok_inv in Hrun as (farmerId & w4 & Hf & Hrun).
  pose proof (keepsStore_run _ _ _ _ (keepsStore_liftR _) Hf) as Hs4.
  apply bind_Ok_inv in Hrun as (batchId & w5 & Hb & Hrun).
  pose proof (keepsStore_run _ _ _ _ (keepsStore_liftR _) Hb) as Hs5.
  apply bind_Ok_inv in Hrun as (issued & w6 & Hissue & Hrun).
  destruct (issueVerifiableCredentialOf_Ok _ _ _ _ _ _ Hissue) as [Hs6 Hvalid].
  apply bind_Ok_inv in Hrun as (isVcValid & w7 & Hv & Hrun).
  unfold liftR in Hv. rewrite Hvalid in Hv. injection Hv as <- <-.
  apply bind_Ok_inv in Hrun as (check & w8 & Hcheck & Hrun).
  injection Hrun as <- <- <- _.
  exists found. split; [exact Hmapping |]. split; [exact Hfound |].
  split; [exact Htruthy |].
  split; [exact Hkept |]. split; [reflexivity |]. split; [reflexivity |].
  split; [| reflexivity].
  cbn [logExists logConsistent].
  assert (Hs : store w6 = store w) by congruence.
  unfold checkTransparencyLogOf, getTransparencyLog, bind, getStore, ret in Hcheck |- *.
  rewrite Hs in Hcheck.
  destruct (find _ (transparencyLog (store w))) as [entry |].
  - destruct (negb _); injection Hcheck as <- _; reflexivity.
  - injection Hcheck as <- _. reflexivity.
Qed.

Lemma fetchData_Done (code : option string) (w : World) (fetchedBatch : Value)
    (fetchedClaims : list Value) (status : VerificationStatus) :
  fst (fetchData host code w) = FetchDone fetchedBatch fetchedClaims status ->
  exists c, code = Some c /\ c <> ""
    /\ fetchBody host c w
       = (Ok (FetchDone fetchedBatch fetchedClaims status), snd (fetchData host code w)).
Proof.
  unfold fetchData. destruct code as [c |]; [| discriminate].
  destruct (String.eqb c "") eqn:Hc; [discriminate |].
  destruct (fetchBody host c w) as [[fetched | e] w'] eqn:Hrun; [| discriminate].
  cbn [fst snd]. intros ->. exists c. apply String.eqb_neq in Hc. auto.
Qed.

End ClaimsPage.

(** X4.  The claims page only reads: whatever the code and the outcome,
    [fetchData] leaves the store as it found it. *)
Theorem fetchData_reads_only (host : Host) (code : option string) (w : World) :
  store (snd (fetchData host code w)) = store w.
Proof.
  unfold fetchData. destruct code as [c |]; [| reflexivity].
  destruct (String.eqb c ""); [reflexivity |].
  pose proof (keepsStore_fetchBody host c w) as H.
  destruct (fetchBody host c w) as [[fetched | e] w']; exact H.
Qed.

(** X5.  The signature check of the claims page cannot fail: whenever
    [fetchData] gets to the verification it reports the signature valid,
    because it validates a credential that it has just issued itself from
    the index entry and the stored batch. *)
Theorem fetchData_signature_always_valid (host : Host) (code : option string) (w : World)
    (fetchedBatch : Value) (fetchedClaims : list Value) (status : VerificationStatus) :
  fst (fetchData host code w) = FetchDone fetchedBatch fetchedClaims status ->
  vcValid status = true /\ vcMessage status = "VC signature is valid.".
Proof.
  intros Hdone.
  destruct (fetchData_Done host _ _ _ _ _ Hdone) as (c & _ & _ & Hrun).
  destruct (fetchBody_Done host _ _ _ _ _ _ Hrun)
    as (found & _ & _ & _ & _ & Hvalid & Hmsg & _).
  split; assumption.
Qed.

Lemma fetchData_signature_always_valid_witness :
  exists fetchedBatch fetchedClaims status,
    fst (fetchData quietHost (Some "AGRITRUST-231115-1234")
           (snd (handleFinalSubmit quietHost applesForm seededWorld)))
    = FetchDone fetchedBatch fetchedClaims status
    /\ vcValid status = true.
Proof.
  eexists _, _, _. split.
  - vm_compute. reflexivity.
  - refine (proj1 (fetchData_signature_always_valid quietHost
                     (Some "AGRITRUST-231115-1234")
                     (snd (handleFinalSubmit quietHost applesForm seededWorld)) _ _ _ _)).
    vm_compute. reflexivity.
Defined.

(** *** Which error means what *)

Lemma get_Throw (v : Value) (k : string) (e : Exn) : get v k = Throw e -> cannotRead e.
Proof.
  destruct v; cbn; intros [= <-].
  - exists "undefined", k. reflexivity.
  - exists "null", k. reflexivity.
Qed.

Lemma propEq_Throw (k : string) (expected x : Value) (e : Exn) :
  propEq k expected x = Throw e -> cannotRead e.
Proof.
  unfold propEq. destruct (get x k) as [v | e'] eqn:Hget; cbn; [discriminate |].
  intros [= <-]. eapply get_Throw. exact Hget.
Qed.

Lemma findR_Throw (k : string) (expected : Value) (l : list Value) (e : Exn) :
  findR (propEq k expected) l = Throw e -> cannotRead e.
Proof.
  induction l as [| x l IH]; cbn; [discriminate |].
  destruct (propEq k expected x) as [[|] | e'] eqn:Hx; cbn.
  - discriminate.
  - exact IH.
  - intros [= <-]. eapply propEq_Throw. exact Hx.
Qed.

Lemma filterR_Throw (k : string) (expected : Value) (l : list Value) (e : Exn) :
  filterR (propEq k expected) l = Throw e -> cannotRead e.
Proof.
  induction l as [| x l IH]; cbn; [discriminate |].
  destruct (propEq k expected x) as [b | e'] eqn:Hx; cbn.
  - destruct (filterR (propEq k expected) l) as [kept | e'']; cbn; [discriminate |].
    intros [= <-]. apply IH. reflexivity.
  - intros [= <-]. eapply propEq_Throw. exact Hx.
Qed.


Lemma cannotRead_message (e : Exn) :
  cannotRead e ->
  exists rest, message e = "Cannot read properties of " +:+ rest.
Proof. intros (what & k & ->). cbn [message]. eexists. reflexivity. Qed.

(** An exception that ends the fetch comes from reading a property of a
    stored batch or claim that is [null], or from printing a value of the
    stored batch that does not print. *)
Lemma fetchBody_Throw (host : Host) (code : string) (w w' : World) (e : Exn) :
  fetchBody host code w = (Throw e, w') -> cannotRead e \/ e = unprintable.
Proof.
  unfold fetchBody. intros Hrun.
  apply bind_Throw_inv in Hrun as [Hrun | (found & w1 & _ & Hrun)]; [discriminate |].
  destruct found as [found |]; [| discriminate].
  apply bind_Throw_inv in Hrun as [Hrun | (fetched & w2 & Hfound & Hrun)].
  { unfold getBatchById, getBatches, bind, getStore, ret, liftR in Hrun.
    injection Hrun as Hrun _. left. eapply findR_Throw. exact Hrun. }
  destruct fetched as [fetched |]; [| discriminate].
  destruct (truthy fetched) eqn:Htruthy; cbn [negb] in Hrun; [| discriminate].
  apply bind_Throw_inv in Hrun as [Hrun | (kept & w3 & _ & Hrun)].
  { unfold getClaimsByBatchId, getClaims, bind, getStore, ret, liftR in Hrun.
    injection Hrun as Hrun _. left. eapply filterR_Throw. exact Hrun. }
  apply bind_Throw_inv in Hrun as [Hrun | (farmerId & w4 & _ & Hrun)].
  { apply liftR_Throw_inv in Hrun. left. eapply get_Throw. exact Hrun. }
  apply bind_Throw_inv in Hrun as [Hrun | (batchId & w5 & _ & Hrun)].
  { apply liftR_Throw_inv in Hrun. left. eapply get_Throw. exact Hrun. }
  apply bind_Throw_inv in Hrun as [Hrun | (issued & w6 & Hissue & Hrun)].
  { right. eapply issueVerifiableCredentialOf_Throw. exact Hrun. }
  destruct (issueVerifiableCredentialOf_Ok _ _ _ _ _ _ _ Hissue) as [_ Hvalid].
  apply bind_Throw_inv in Hrun as [Hrun | (valid & w7 & _ & Hrun)].
  { apply liftR_Throw_inv in Hrun. rewrite Hvalid in Hrun. discriminate. }
  apply bind_Throw_inv in Hrun as [Hrun | (check & w8 & _ & Hrun)]; [| discriminate].
  destruct (checkTransparencyLogOf_total (foundVcDigest found) (foundCid found) w7)
    as [answer Hanswer].
  rewrite Hanswer in Hrun. discriminate.
Qed.

(** X6.  For a non-empty code the page shows the unknown-code error
    exactly when the index has no entry for the code and the code is no
    name that every object inherits; in that case nothing else is read
    and the world is untouched. *)
Theorem fetchData_unknown_code (host : Host) (code : string) (w : World) :
  code <> "" ->
  (fst (fetchData host (Some code) w) = FetchError unknownCode
   <-> codes (store w) !! code = None /\ inheritedName code = false)
  /\ (codes (store w) !! code = None -> inheritedName code = false ->
      snd (fetchData host (Some code) w) = w).
Proof.
  intros Hcode. apply String.eqb_neq in Hcode.
  unfold fetchData. rewrite Hcode.
  destruct (fetchBody host code w) as [[fetched | e] w'] eqn:Hrun; cbn [fst snd].
  - unfold fetchBody in Hrun.
    apply bind_Ok_inv in Hrun as (found & w1 & Hm & Hrun).
    apply getCodeMapping_Ok_inv in Hm as [-> Hfound].
    destruct (codes (store w) !! code) as [mapping |] eqn:Hlookup;
      [| destruct (inheritedName code) eqn:Hinherited]; subst found.
    + split; [| discriminate]. split; [| intros [? _]; discriminate].
      intros ->. exfalso.
      apply bind_Ok_inv in Hrun as (fetchedBatch & w2 & _ & Hrun).
      destruct fetchedBatch as [fetchedBatch |]; [| discriminate].
      destruct (negb (truthy fetchedBatch)); [discriminate |].
      apply bind_Ok_inv in Hrun as (kept & w3 & _ & Hrun).
      apply bind_Ok_inv in Hrun as (f & w4 & _ & Hrun).
      apply bind_Ok_inv in Hrun as (b & w5 & _ & Hrun).
      apply bind_Ok_inv in Hrun as (i & w6 & _ & Hrun).
      apply bind_Ok_inv in Hrun as (v & w7 & _ & Hrun).
      apply bind_Ok_inv in Hrun as (c & w8 & _ & Hrun).
      discriminate.
    + split; [| discriminate]. split; [| intros [_ ?]; discriminate].
      intros ->. exfalso.
      apply bind_Ok_inv in Hrun as (fetchedBatch & w2 & _ & Hrun).
      destruct fetchedBatch as [fetchedBatch |]; [| discriminate].
      destruct (negb (truthy fetchedBatch)); [discriminate |].
      apply bind_Ok_inv in Hrun as (kept & w3 & _ & Hrun).
      apply bind_Ok_inv in Hrun as (f & w4 & _ & Hrun).
      apply bind_Ok_inv in Hrun as (b & w5 & _ & Hrun).
      apply bind_Ok_inv in Hrun as (i & w6 & _ & Hrun).
      apply bind_Ok_inv in Hrun as (v & w7 & _ & Hrun).
      apply bind_Ok_inv in Hrun as (c & w8 & _ & Hrun).
      discriminate.
    + injection Hrun as <- <-. repeat split; trivial.
  - assert (Hfound : codes (store w) !! code = None /\ inheritedName code = false -> False).
    { intros [Hlookup Hinherited]. unfold fetchBody, getCodeMapping, bind, getStore, ret in Hrun.
      rewrite Hlookup, Hinherited in Hrun. discriminate. }
    split.
    + split; [| intros H; contradiction (Hfound H)].
      intros Hmsg. exfalso. injection Hmsg as Hmsg.
      apply fetchBody_Throw in Hrun as [Hrun | ->].
      * apply cannotRead_message in Hrun as [rest Hrest].
        rewrite Hrest in Hmsg. cbn in Hmsg. discriminate.
      * cbn in Hmsg. discriminate.
    + intros Hlookup Hinherited. contradiction (Hfound (conj Hlookup Hinherited)).
Qed.

Lemma fetchData_unknown_code_witness :
  fst (fetchData quietHost (Some "AGRITRUST-000000-0000") seededWorld) = FetchError unknownCode.
Proof.
  apply (proj1 (fetchData_unknown_code quietHost "AGRITRUST-000000-0000" seededWorld
                  ltac:(discriminate))).
  split; reflexivity.
Defined.

(** A code that is a name every object inherits is taken for a code of
    the index: the page looks for its batch. *)
Example fetchData_inherited_name :
  fst (fetchData quietHost (Some "constructor") seededWorld)
  = FetchError "Batch data not found for this product.".
Proof. reflexivity. Qed.

(** *** The three states of the log line *)

Lemma logAnswer_cases (log : list LogEntry) (vcDigest expectedCid : string) :
  (logAnswer log vcDigest expectedCid = {| exists_ := false; consistent := false |}
   /\ forall e, e ∈ log -> digest e <> vcDigest)
  \/ (exists i e, firstMatch log vcDigest i e
      /\ ((cid e = expectedCid
           /\ logAnswer log vcDigest expectedCid = {| exists_ := true; consistent := true |})
          \/ (cid e <> expectedCid
              /\ logAnswer log vcDigest expectedCid
                 = {| exists_ := true; consistent := false |}))).
Proof.
  unfold logAnswer.
  destruct (find (fun e => String.eqb (digest e) vcDigest) log) as [entry |] eqn:Hfind.
  - right. apply find_digest_Some in Hfind as [i Hi]. exists i, entry. split; [exact Hi |].
    destruct (String.eqb (cid entry) expectedCid) eqn:Hcid; cbn [negb].
    + left. apply String.eqb_eq in Hcid. auto.
    + right. apply String.eqb_neq in Hcid. auto.
  - left. split; [reflexivity |]. apply find_digest_None. exact Hfind.
Qed.

Lemma firstMatch_unique (log : list LogEntry) (vcDigest : string) (i j : nat) (e e' : LogEntry) :
  firstMatch log vcDigest i e -> firstMatch log vcDigest j e' -> e = e'.
Proof.
  intros Hi Hj.
  assert (Some e = Some e') as [= ->]; [| reflexivity].
  rewrite <- (proj2 (find_digest_Some log vcDigest e) (ex_intro _ i Hi)).
  apply find_digest_Some. eauto.
Qed.

(** X7.  The log line of the claims page tells three states apart, each
    decided by the first log entry that carries the credential digest of
    the index entry: not found when there is none, found and consistent
    when that entry stores the content digest of the index entry, found but
    inconsistent when it stores another one.  A code that is no entry of
    the index but a name that every object inherits has no digests: the
    line then says not found. *)
Theorem fetchData_log_message (host : Host) (code : option string) (w : World)
    (fetchedBatch : Value) (fetchedClaims : list Value) (status : VerificationStatus) :
  fst (fetchData host code w) = FetchDone fetchedBatch fetchedClaims status ->
  exists c,
    code = Some c
    /\ ((exists mapping,
           codes (store w) !! c = Some mapping
           /\ (logMessage status = notFound
               <-> forall e, e ∈ logOf w -> digest e <> cm_vcDigest mapping)
           /\ (logMessage status = foundConsistent
               <-> exists i e, firstMatch (logOf w) (cm_vcDigest mapping) i e
                               /\ cid e = cm_cid mapping)
           /\ (logMessage status = foundInconsistent
               <-> exists i e, firstMatch (logOf w) (cm_vcDigest mapping) i e
                               /\ cid e <> cm_cid mapping))
        \/ (codes (store w) !! c = None /\ inheritedName c = true
            /\ logMessage status = notFound))
    /\ (logMessage status = notFound \/ logMessage status = foundConsistent
        \/ logMessage status = foundInconsistent).
Proof.
  intros Hdone.
  destruct (fetchData_Done host _ _ _ _ _ Hdone) as (c & -> & _ & Hrun).
  destruct (fetchBody_Done host _ _ _ _ _ _ Hrun)
    as (found & Hmapping & _ & _ & _ & _ & _ & Hcheck & Hmsg).
  exists c. split; [reflexivity |].
  apply getCodeMapping_Ok_inv in Hmapping as [_ Hfound].
  rewrite Hmsg.
  destruct found as [mapping |].
  - assert (Hlookup : codes (store w) !! c = Some mapping).
    { destruct (codes (store w) !! c) as [m |]; [congruence |].
      destruct (inheritedName c); discriminate. }
    cbn [foundVcDigest foundCid] in Hcheck.
    rewrite checkTransparencyLogOf_strings, checkTransparencyLog_run in Hcheck.
    injection Hcheck as Hcheck.
    destruct (logAnswer_cases (logOf w) (cm_vcDigest mapping) (cm_cid mapping))
      as [[Hanswer Hnone] | (i & e & Hfirst & [[Hcid Hanswer] | [Hcid Hanswer]])];
      rewrite Hanswer in Hcheck; injection Hcheck as <- <-; cbn.
    + split; [| left; reflexivity]. left. exists mapping. split; [exact Hlookup |].
      split; [split; [intros _; exact Hnone | reflexivity] |].
      split.
      { split; [discriminate |]. intros (j & e & (Hj & Hd & _) & _). exfalso.
        apply (Hnone e); [apply list_elem_of_lookup; eauto | exact Hd]. }
      split; [discriminate |]. intros (j & e & (Hj & Hd & _) & _). exfalso.
      apply (Hnone e); [apply list_elem_of_lookup; eauto | exact Hd].
    + split; [| right; left; reflexivity]. left. exists mapping. split; [exact Hlookup |].
      split.
      { split; [discriminate |]. intros Hnone. exfalso. destruct Hfirst as (Hi & Hd & _).
        apply (Hnone e); [apply list_elem_of_lookup; eauto | exact Hd]. }
      split; [split; [intros _; eauto | reflexivity] |].
      split; [discriminate |]. intros (j & e' & Hj & Hne). exfalso.
      rewrite (firstMatch_unique _ _ _ _ _ _ Hj Hfirst) in Hne. contradiction.
    + split; [| right; right; reflexivity]. left. exists mapping. split; [exact Hlookup |].
      split.
      { split; [discriminate |]. intros Hnone. exfalso. destruct Hfirst as (Hi & Hd & _).
        apply (Hnone e); [apply list_elem_of_lookup; eauto | exact Hd]. }
      split.
      { split; [discriminate |]. intros (j & e' & Hj & Heq). exfalso.
        rewrite (firstMatch_unique _ _ _ _ _ _ Hj Hfirst) in Heq. contradiction. }
      split; [intros _; eauto | reflexivity].
  - destruct (codes (store w) !! c) as [m |] eqn:Hlookup; [discriminate |].
    destruct (inheritedName c) eqn:Hinherited; [| discriminate].
    cbn [foundVcDigest foundCid] in Hcheck.
    rewrite checkTransparencyLogOf_undefined in Hcheck. injection Hcheck as <- <-.
    cbn [andb negb].
    split; [| left; reflexivity]. right. repeat split; reflexivity.
Qed.

Lemma fetchData_log_message_witness :
  exists status fetchedBatch fetchedClaims,
    fst (fetchData quietHost (Some "AGRITRUST-231115-1234")
           (snd (handleFinalSubmit quietHost applesForm seededWorld)))
    = FetchDone fetchedBatch fetchedClaims status
    /\ (logMessage status = notFound \/ logMessage status = foundConsistent
        \/ logMessage status = foundInconsistent).
Proof.
  eexists _, _, _. split.
  - vm_compute. reflexivity.
  - destruct (fetchData_log_message quietHost (Some "AGRITRUST-231115-1234")
                (snd (handleFinalSubmit quietHost applesForm seededWorld)) _ _ _
                ltac:(vm_compute; reflexivity))
      as (c & _ & _ & Hcases).
    exact Hcases.
Defined.

(** A code that is an inherited name gets through to the verification
    when a stored batch has no identifier. *)
Example fetchData_inherited_name_done :
  exists status,
    fst (fetchData quietHost (Some "constructor")
           {| store := {| farmers := []; batches := [JObj []]; claims := [];
                          codes := ∅; transparencyLog := []; drafts := ∅ |};
              dateReads := 0; uuidReads := 0; randomReads := 0; writes := 0 |})
    = FetchDone (VObj []) [] status
    /\ logMessage status = notFound.
Proof. eexists. split; [vm_compute; reflexivity | reflexivity]. Qed.

(** *** From submission to lookup *)

Lemma bind_Ok_run {A B : Type} (m : M A) (k : A -> M B) (w w1 : World) (a : A) :
  m w = (Ok a, w1) -> bind m k w = k a w1.
Proof. intros H. unfold bind. rewrite H. reflexivity. Qed.

Lemma propEq_present (k : string) (expected x : Value) :
  present x = true -> exists b, propEq k expected x = Ok b.
Proof.
  intros Hx. unfold propEq. destruct (get_present x k Hx) as [v ->]. cbn. eauto.
Qed.






(** The claims page fails on a code whose batch was submitted by a farmer
    identifier that does not print: what the stored batch holds is
    converted to text when the credential is issued again. *)
Example fetchData_unprintable_farmer :
  fst (fetchData quietHost (Some "AGRITRUST-231115-1234")
         {| store := {| farmers := [];
                        batches := [JObj [("id", JStr "b1");
                                          ("farmerId", JObj [("toString", JNum 1)])]];
                        claims := [];
                        codes := {[ "AGRITRUST-231115-1234" :=
                                      {| cm_cid := "c"; cm_vcDigest := "d";
                                         cm_batchId := "b1" |} ]};
                        transparencyLog := []; drafts := ∅ |};
            dateReads := 0; uuidReads := 0; randomReads := 0; writes := 0 |})
  = FetchError "Cannot convert object to primitive value".
Proof. vm_compute. reflexivity. Qed.

(** ** More on the submission workflow *)

Section WorkflowMore.

Variable host : Host.

(** *** Which code is generated *)

Lemma codeAttempts_first_free (j remaining : nat) (year month day : string) (w : World) :
  (j < remaining)%nat ->
  codes (store w) !!
    ("AGRITRUST-" +:+ year +:+ month +:+ day +:+ "-"
       +:+ numberToString (1000 + randoms host (randomReads w + j) mod 9000)) = None ->
  (forall i, (i < j)%nat ->
     is_Some (codes (store w) !!
                ("AGRITRUST-" +:+ year +:+ month +:+ day +:+ "-"
                   +:+ numberToString (1000 + randoms host (randomReads w + i) mod 9000)))) ->
  codeAttempts host remaining year month day w
  = (Ok ("AGRITRUST-" +:+ year +:+ month +:+ day +:+ "-"
           +:+ numberToString (1000 + randoms host (randomReads w + j) mod 9000)),
     {| store := store w; dateReads := dateReads w; uuidReads := uuidReads w;
        randomReads := randomReads w + S j; writes := writes w |}).
Proof.
  revert remaining w. induction j as [| j IH]; intros remaining w Hlt Hfree Htaken;
    (destruct remaining as [| n]; [lia |]); rewrite codeAttempts_step; cbv zeta.
  - rewrite Nat.add_0_r in Hfree. rewrite Hfree.
    rewrite Nat.add_0_r, Nat.add_1_r. reflexivity.
  - destruct (Htaken 0%nat ltac:(lia)) as [mapping Hmapping].
    rewrite Nat.add_0_r in Hmapping. rewrite Hmapping.
    rewrite (IH n); cbn [store dateReads uuidReads randomReads writes].
    + replace (S (randomReads w) + j)%nat with (randomReads w + S j)%nat by lia.
      replace (S (randomReads w) + S j)%nat with (randomReads w + S (S j))%nat by lia.
      reflexivity.
    + lia.
    + replace (S (randomReads w) + j)%nat with (randomReads w + S j)%nat by lia. exact Hfree.
    + intros i Hi.
      replace (S (randomReads w) + i)%nat with (randomReads w + S i)%nat by lia.
      apply Htaken. lia.
Qed.

End WorkflowMore.

(** X9.  The generation loop returns the first candidate that the index
    does not hold, provided it comes within the first 100 attempts, and
    draws exactly as many random numbers as it made attempts; the store is
    not written and the storage is not called. *)
Theorem generateConsumerCode_first_free (host : Host) (w : World) (j : nat) :
  (j < 100)%nat ->
  codes (store w) !! candidateCode host w j = None ->
  (forall i, (i < j)%nat -> is_Some (codes (store w) !! candidateCode host w i)) ->
  generateConsumerCode host w
  = (Ok (candidateCode host w j),
     {| store := store w; dateReads := S (dateReads w); uuidReads := uuidReads w;
        randomReads := randomReads w + S j; writes := writes w |}).
Proof.
  intros Hj Hfree Htaken.
  unfold generateConsumerCode, bind, newDate.
  rewrite (codeAttempts_first_free host j 100);
    cbn [store dateReads uuidReads randomReads writes];
    [| exact Hj | exact Hfree | exact Htaken].
  reflexivity.
Qed.

Lemma generateConsumerCode_first_free_witness :
  fst (generateConsumerCode quietHost codeTakenWorld) = Ok "AGRITRUST-231115-1235".
Proof.
  rewrite (generateConsumerCode_first_free quietHost codeTakenWorld 1).
  - vm_compute. reflexivity.
  - lia.
  - vm_compute. reflexivity.
  - intros i Hi. assert (i = 0)%nat as -> by lia. vm_compute. eexists. reflexivity.
Defined.

(** *** A farmer who is not registered *)

Lemma bind_Throw_run {A B : Type} (m : M A) (k : A -> M B) (w w1 : World) (e : Exn) :
  m w = (Throw e, w1) -> bind m k w = (Throw e, w1).
Proof. intros H. unfold bind. rewrite H. reflexivity. Qed.

(** X10.  When the signed-in farmer identifier is not among the registered
    farmers, a submission with valid inputs aborts before anything is
    written: the store is unchanged, and the message is the one of the
    missing farmer unless the code generation had already failed. *)
Theorem submission_without_farmer
    (host : Host) (sub : Submission) (w : World) (userId' : string) :
  validateAllInputs sub = true ->
  userId sub = Some userId' ->
  userId' <> "" ->
  (forall f, f ∈ farmers (store w) -> id f <> userId') ->
  (fst (handleFinalSubmit host sub w) = Aborted farmerMissing
   \/ fst (handleFinalSubmit host sub w) = Aborted codeGenerationExhausted)
  /\ store (snd (handleFinalSubmit host sub w)) = store w.
Proof.
  intros Hvalid Huser Hnonempty Hmissing.
  apply String.eqb_neq in Hnonempty.
  assert (Hfind : find (fun f => String.eqb (id f) userId') (farmers (store w)) = None).
  { destruct (find _ _) as [f |] eqn:Hf; [| reflexivity].
    apply find_some in Hf as [Hin Heq]. apply String.eqb_eq in Heq.
    exfalso. apply (Hmissing f); [apply list_elem_of_In; exact Hin | exact Heq]. }
  unfold handleFinalSubmit. rewrite Hvalid, Huser, Hnonempty. cbn [negb].
  unfold submit.
  destruct (generateConsumerCode host w) as [[code | e] w1] eqn:Hgen.
  - pose proof (keepsStore_run _ _ _ _ (keepsStore_generateConsumerCode host) Hgen) as Hs1.
    assert (Hfarmer : getFarmerById userId' w1 = (Ok None, w1)).
    { unfold getFarmerById, getFarmers, bind, getStore, ret. rewrite Hs1, Hfind. reflexivity. }
    rewrite (bind_Ok_run _ _ _ _ _ Hgen), (bind_Ok_run _ _ _ _ _ Hfarmer).
    unfold throw. cbn [fst snd message]. split; [left; reflexivity | exact Hs1].
  - pose proof (keepsStore_run _ _ _ _ (keepsStore_generateConsumerCode host) Hgen) as Hs1.
    rewrite (bind_Throw_run _ _ _ _ _ Hgen).
    cbn [fst snd]. split; [| exact Hs1]. right.
    unfold generateConsumerCode in Hgen.
    apply bind_Throw_inv in Hgen as [Hgen | (date & w2 & _ & Hgen)]; [discriminate |].
    apply bind_Throw_inv in Hgen as [Hgen | (c & w3 & _ & Hgen)].
    + exfalso. pose proof (keepsStore_codeAttempts host 100) as _.
      assert (Hno : forall n y m d w0 e0 w0',
                codeAttempts host n y m d w0 <> (Throw e0, w0')).
      { clear. induction n as [| n IH]; intros y m d w0 e0 w0'.
        - cbn. discriminate.
        - rewrite codeAttempts_step. cbv zeta.
          destruct (codes (store w0) !! _); [apply IH | discriminate]. }
      eapply Hno. exact Hgen.
    + destruct (String.eqb c ""); [| discriminate].
      injection Hgen as <- _. reflexivity.
Qed.

Lemma submission_without_farmer_witness :
  fst (handleFinalSubmit quietHost applesForm initialWorld) = Aborted farmerMissing
  /\ store (snd (handleFinalSubmit quietHost applesForm initialWorld)) = store initialWorld.
Proof.
  destruct (submission_without_farmer quietHost applesForm initialWorld
              "20230115-greenacres-1234" eq_refl eq_refl ltac:(discriminate))
    as [Hout Hstore].
  - intros f Hf. inversion Hf.
  - split; [| exact Hstore]. vm_compute. reflexivity.
Defined.

(** *** Nothing stored is rewritten *)

Section Growth.

Variable host : Host.

Lemma extends_refl (s : Store) : extends s s.
Proof. repeat split; reflexivity. Qed.

Lemma extends_trans (s1 s2 s3 : Store) : extends s1 s2 -> extends s2 s3 -> extends s1 s3.
Proof.
  intros (Hf1 & Hb1 & Hc1 & Hl1) (Hf2 & Hb2 & Hc2 & Hl2).
  repeat split; [congruence | etrans; eassumption ..].
Qed.

Lemma extendsM_keepsStore {A : Type} (m : M A) : keepsStore m -> extendsM m.
Proof. intros H w. rewrite H. apply extends_refl. Qed.

Lemma extendsM_bind {A B : Type} (m : M A) (k : A -> M B) :
  extendsM m -> (forall a, extendsM (k a)) -> extendsM (bind m k).
Proof.
  intros Hm Hk w. unfold bind. specialize (Hm w).
  destruct (m w) as [[a | e] w1]; cbn [snd] in *; [| exact Hm].
  eapply extends_trans; [exact Hm | apply Hk].
Qed.

Lemma extendsM_attempt {A : Type} (s : Step) (m : M A) :
  extendsM m -> extendsM (attempt host s m).
Proof.
  intros Hm. unfold attempt. destruct (raises host s); [| exact Hm].
  apply extendsM_keepsStore, keepsStore_throw.
Qed.

Lemma extendsM_append (vcDigest cid : string) :
  extendsM (appendToTransparencyLog host vcDigest cid).
Proof.
  intros w. rewrite appendToTransparencyLog_spec. cbn [snd store].
  destruct (setItemFails host (writes w)); [apply extends_refl |].
  repeat split; cbn; try reflexivity. apply prefix_app_r. reflexivity.
Qed.

Lemma extendsM_addBatch (batch : Value) : extendsM (addBatch host batch).
Proof.
  intros w. rewrite addBatch_run. cbn [snd store].
  destruct (setItemFails host (writes w)); [apply extends_refl |].
  repeat split; cbn; try reflexivity. apply prefix_app_r. reflexivity.
Qed.

Lemma extendsM_addClaim (claim : Value) : extendsM (addClaim host claim).
Proof.
  intros w. rewrite addClaim_run. cbn [snd store].
  destruct (setItemFails host (writes w)); [apply extends_refl |].
  repeat split; cbn; try reflexivity. apply prefix_app_r. reflexivity.
Qed.

Lemma extendsM_addCodeMapping (c cid vcDigest batchId : string) :
  extendsM (addCodeMapping host c cid vcDigest batchId).
Proof.
  intros w. unfold addCodeMapping, bind, getStore, setLocalStorageItem. cbn [snd store].
  destruct (setItemFails host (writes w)); [apply extends_refl |].
  repeat split; reflexivity.
Qed.

Lemma extendsM_clearDraftBatch (farmerId : string) : extendsM (clearDraftBatch farmerId).
Proof. intros w. cbn. repeat split; reflexivity. Qed.

Lemma extendsM_forEach {A : Type} (f : nat -> A -> M unit) (l : list A) (i : nat) :
  (forall j x, extendsM (f j x)) -> extendsM (forEach f i l).
Proof.
  intros Hf. revert i. induction l as [| x l IH]; intros i; cbn [forEach].
  - apply extendsM_keepsStore, keepsStore_ret.
  - apply extendsM_bind; [apply Hf |]. intros _. apply IH.
Qed.

Lemma extendsM_submit (userId' : string) (batchData' : list (string * Value))
    (claims' : list (list (string * Value))) :
  extendsM (submit host userId' batchData' claims').
Proof.
  unfold submit.
  apply extendsM_bind; [apply extendsM_keepsStore, keepsStore_generateConsumerCode |].
  intros consumerCode.
  apply extendsM_bind; [apply extendsM_keepsStore, keepsStore_getFarmerById |].
  intros [farmer |]; [| apply extendsM_keepsStore, keepsStore_throw].
  apply extendsM_bind; [apply extendsM_keepsStore, keepsStore_uuidv4 |]. intros finalBatchId.
  apply extendsM_bind; [apply extendsM_keepsStore, keepsStore_buildFinalBatch |].
  intros finalBatch.
  apply extendsM_bind;
    [apply extendsM_keepsStore, keepsStore_mapM; intros x; apply keepsStore_finalizeClaim |].
  intros finalClaims.
  apply extendsM_bind;
    [apply extendsM_keepsStore, keepsStore_attempt, keepsStore_liftR |].
  intros cid.
  apply extendsM_bind; [apply extendsM_keepsStore, keepsStore_attempt, keepsStore_issue |].
  intros issued.
  apply extendsM_bind; [apply extendsM_attempt, extendsM_append |]. intros _.
  apply extendsM_bind; [apply extendsM_attempt, extendsM_addBatch |]. intros _.
  apply extendsM_bind;
    [apply extendsM_forEach; intros j x; apply extendsM_attempt, extendsM_addClaim |].
  intros _.
  apply extendsM_bind; [apply extendsM_attempt, extendsM_addCodeMapping |]. intros _.
  apply extendsM_bind; [apply extendsM_attempt, extendsM_clearDraftBatch |]. intros _.
  apply extendsM_keepsStore, keepsStore_ret.
Qed.

(** The log: every step but the append keeps it. *)

Lemma keepsLog_keepsStore {A : Type} (m : M A) : keepsStore m -> keepsLog m.
Proof. intros H w. unfold logOf. rewrite H. reflexivity. Qed.

Lemma keepsLog_bind {A B : Type} (m : M A) (k : A -> M B) :
  keepsLog m -> (forall a, keepsLog (k a)) -> keepsLog (bind m k).
Proof.
  intros Hm Hk w. unfold bind. specialize (Hm w).
  destruct (m w) as [[a | e] w1]; cbn [snd] in *; [| exact Hm].
  rewrite Hk. exact Hm.
Qed.

Lemma keepsLog_attempt {A : Type} (s : Step) (m : M A) :
  keepsLog m -> keepsLog (attempt host s m).
Proof.
  intros Hm. unfold attempt. destruct (raises host s); [| exact Hm].
  apply keepsLog_keepsStore, keepsStore_throw.
Qed.

Lemma keepsLog_forEach {A : Type} (f : nat -> A -> M unit) (l : list A) (i : nat) :
  (forall j x, keepsLog (f j x)) -> keepsLog (forEach f i l).
Proof.
  intros Hf. revert i. induction l as [| x l IH]; intros i; cbn [forEach].
  - apply keepsLog_keepsStore, keepsStore_ret.
  - apply keepsLog_bind; [apply Hf |]. intros _. apply IH.
Qed.

Lemma logStepM_keepsLog {A : Type} (m : M A) : keepsLog m -> logStepM m.
Proof. intros H w. left. apply H. Qed.

Lemma logStepM_bind_l {A B : Type} (m : M A) (k : A -> M B) :
  keepsLog m -> (forall a, logStepM (k a)) -> logStepM (bind m k).
Proof.
  intros Hm Hk w. unfold bind. specialize (Hm w).
  destruct (m w) as [[a | e] w1]; cbn [snd] in *.
  - rewrite <- Hm. apply Hk.
  - left. exact Hm.
Qed.

Lemma logStepM_bind_r {A B : Type} (m : M A) (k : A -> M B) :
  logStepM m -> (forall a, keepsLog (k a)) -> logStepM (bind m k).
Proof.
  intros Hm Hk w. unfold bind. specialize (Hm w).
  destruct (m w) as [[a | e] w1]; cbn [snd] in *; [| exact Hm].
  rewrite Hk. exact Hm.
Qed.

Lemma logStepM_append (vcDigest cid : string) :
  logStepM (attempt host SAppend (appendToTransparencyLog host vcDigest cid)).
Proof.
  unfold attempt. destruct (raises host SAppend).
  - apply logStepM_keepsLog, keepsLog_keepsStore, keepsStore_throw.
  - intros w. rewrite appendToTransparencyLog_spec. unfold logOf at 2. cbn [snd store].
    destruct (setItemFails host (writes w)); [left; reflexivity |].
    right. exists (newLogEntry host w vcDigest cid).
    split; [reflexivity |]. split; reflexivity.
Qed.

Lemma keepsLog_addBatch (batch : Value) : keepsLog (addBatch host batch).
Proof.
  intros w. rewrite addBatch_run. unfold logOf. cbn [snd store].
  destruct (setItemFails host (writes w)); reflexivity.
Qed.

Lemma keepsLog_addClaim (claim : Value) : keepsLog (addClaim host claim).
Proof.
  intros w. rewrite addClaim_run. unfold logOf. cbn [snd store].
  destruct (setItemFails host (writes w)); reflexivity.
Qed.

Lemma keepsLog_addCodeMapping (c cid vcDigest batchId : string) :
  keepsLog (addCodeMapping host c cid vcDigest batchId).
Proof.
  intros w. unfold addCodeMapping, bind, getStore, setLocalStorageItem, logOf.
  cbn [snd store]. destruct (setItemFails host (writes w)); reflexivity.
Qed.

Lemma logStepM_submit (userId' : string) (batchData' : list (string * Value))
    (claims' : list (list (string * Value))) :
  logStepM (submit host userId' batchData' claims').
Proof.
  unfold submit.
  apply logStepM_bind_l; [apply keepsLog_keepsStore, keepsStore_generateConsumerCode |].
  intros consumerCode.
  apply logStepM_bind_l; [apply keepsLog_keepsStore, keepsStore_getFarmerById |].
  intros [farmer |]; [| apply logStepM_keepsLog, keepsLog_keepsStore, keepsStore_throw].
  apply logStepM_bind_l; [apply keepsLog_keepsStore, keepsStore_uuidv4 |]. intros finalBatchId.
  apply logStepM_bind_l; [apply keepsLog_keepsStore, keepsStore_buildFinalBatch |].
  intros finalBatch.
  apply logStepM_bind_l;
    [apply keepsLog_keepsStore, keepsStore_mapM; intros x; apply keepsStore_finalizeClaim |].
  intros finalClaims.
  apply logStepM_bind_l;
    [apply keepsLog_keepsStore, keepsStore_attempt, keepsStore_liftR |].
  intros cid.
  apply logStepM_bind_l; [apply keepsLog_keepsStore, keepsStore_attempt, keepsStore_issue |].
  intros issued.
  apply logStepM_bind_r; [apply logStepM_append |]. intros _.
  apply keepsLog_bind; [apply keepsLog_attempt, keepsLog_addBatch |]. intros _.
  apply keepsLog_bind;
    [apply keepsLog_forEach; intros j x; apply keepsLog_attempt, keepsLog_addClaim |].
  intros _.
  apply keepsLog_bind; [apply keepsLog_attempt, keepsLog_addCodeMapping |]. intros _.
  apply keepsLog_bind; [apply keepsLog_attempt; intros w; reflexivity |]. intros _.
  apply keepsLog_keepsStore, keepsStore_ret.
Qed.

End Growth.

(** X11.  A submission never rewrites what is stored, whatever its
    outcome: the farmers are untouched, batches, claims and log entries
    are only added behind the existing ones, and the log gains at most one
    entry, which carries the next index and the digest of the entry before
    it; a chained log stays chained. *)
Theorem handleFinalSubmit_extends (host : Host) (sub : Submission) (w : World) :
  extends (store w) (store (snd (handleFinalSubmit host sub w)))
  /\ logStep (logOf w) (logOf (snd (handleFinalSubmit host sub w)))
  /\ (chained (logOf w) -> chained (logOf (snd (handleFinalSubmit host sub w)))).
Proof.
  assert (H : extends (store w) (store (snd (handleFinalSubmit host sub w)))
              /\ logStep (logOf w) (logOf (snd (handleFinalSubmit host sub w)))).
  { unfold handleFinalSubmit.
    destruct (negb (validateAllInputs sub)); [split; [apply extends_refl | left; reflexivity] |].
    destruct (userId sub) as [userId' |]; [| split; [apply extends_refl | left; reflexivity]].
    destruct (String.eqb userId' ""); [split; [apply extends_refl | left; reflexivity] |].
    pose proof (extendsM_submit host userId' (batchData sub) (claimsState sub) w) as He.
    pose proof (logStepM_submit host userId' (batchData sub) (claimsState sub) w) as Hl.
    destruct (submit host userId' (batchData sub) (claimsState sub) w) as [[c | e] w'];
      split; assumption. }
  destruct H as [He Hl]. split; [exact He |]. split; [exact Hl |].
  intros Hchained. destruct Hl as [-> | (e & -> & Hindex & Hprev)]; [exact Hchained |].
  apply chained_snoc; assumption.
Qed.

(** ** The shape of a consumer code *)

Lemma civil_ranges (day : Z) :
  1 <= snd (fst (civil day)) <= 12 /\ 1 <= snd (civil day) <= 31.
Proof.
  unfold civil. cbv zeta. cbn [fst snd].
  set (doe := day + 719468 - (day + 719468) / 146097 * 146097).
  assert (Hdoe : 0 <= doe <= 146096) by (subst doe; Z.div_mod_to_equations; lia).
  clearbody doe.
  set (yoe := (doe - doe / 1460 + doe / 36524 - doe / 146096) / 365).
  assert (Hyoe : 0 <= yoe <= 399) by (subst yoe; Z.div_mod_to_equations; lia).
  set (doy := doe - (365 * yoe + yoe / 4 - yoe / 100)).
  assert (Hdoy : 0 <= doy <= 365) by (subst doy yoe; Z.div_mod_to_equations; lia).
  clearbody doy. clear Hyoe. clearbody yoe.
  destruct (Z.ltb_spec ((5 * doy + 2) / 153) 10); Z.div_mod_to_equations; lia.
Qed.

Lemma substring_append_skip (p s : string) (m : nat) :
  substring (String.length p) m (p +:+ s) = substring 0 m s.
Proof. induction p as [| c p IH]; cbn; [reflexivity | exact IH]. Qed.

Lemma length_append (p s : string) :
  String.length (p +:+ s) = (String.length p + String.length s)%nat.
Proof.
  induction p as [| c p IH]; [reflexivity |].
  rewrite append_cons. cbn. f_equal. exact IH.
Qed.

Lemma digits_prefix (fuel : nat) (n : Z) (acc : string) :
  exists p, digits fuel n acc = p +:+ acc.
Proof.
  revert n acc. induction fuel as [| fuel IH]; intros n acc; cbn [digits].
  - exists "". reflexivity.
  - cbv zeta. destruct (n <? 10).
    + exists (String (digit (n mod 10)) ""). reflexivity.
    + destruct (IH (n / 10) (String (digit (n mod 10)) acc)) as [p ->].
      exists (p +:+ String (digit (n mod 10)) "").
      clear. induction p as [| c p IHp]; [reflexivity |].
      rewrite !append_cons. f_equal. exact IHp.
Qed.

Lemma isDigit_digit (d : Z) : 0 <= d <= 9 -> isDigit (digit d) = true.
Proof.
  intros Hd.
  assert (d = 0 \/ d = 1 \/ d = 2 \/ d = 3 \/ d = 4 \/ d = 5 \/ d = 6 \/ d = 7 \/ d = 8 \/ d = 9)
    as H by lia.
  repeat (destruct H as [-> | H]; [reflexivity |]). subst d. reflexivity.
Qed.

(** The last two characters of the decimal numeral of a number of at
    least two digits are digits. *)
Lemma sliceLast_decimal (n : Z) :
  10 <= n ->
  exists a b, sliceLast 2 (numberToString n) = String a (String b "")
              /\ isDigit a = true /\ isDigit b = true.
Proof.
  intros Hn. unfold numberToString.
  destruct (Z.ltb_spec n 0) as [Hneg | _]; [lia |].
  unfold decimal.
  assert (Hlog : 1 <= Z.log2 n).
  { apply Z.log2_le_pow2; lia. }
  destruct (Z.to_nat (Z.log2 n)) as [| fuel] eqn:Hfuel; [lia |].
  cbn [digits]. cbv zeta.
  destruct (Z.ltb_spec n 10) as [Hlt | _]; [lia |].
  set (d0 := digit (n mod 10)). set (d1 := digit (n / 10 mod 10)).
  assert (Hshape : exists p, (if n / 10 <? 10 then String d1 (String d0 "")
                              else digits fuel (n / 10 / 10) (String d1 (String d0 "")))
                             = p +:+ String d1 (String d0 "")).
  { destruct (n / 10 <? 10); [exists ""; reflexivity | apply digits_prefix]. }
  destruct Hshape as [p ->].
  exists d1, d0. split.
  - unfold sliceLast. rewrite length_append. cbn [String.length].
    replace (String.length p + 2 - 2)%nat with (String.length p) by lia.
    rewrite substring_append_skip. reflexivity.
  - subst d0 d1. split; apply isDigit_digit.
    + pose proof (Z.mod_pos_bound (n / 10) 10). lia.
    + pose proof (Z.mod_pos_bound n 10). lia.
Qed.

Lemma padStart_two_digits (n : Z) :
  0 <= n < 100 ->
  String.length (padStart 2 "0" (numberToString n)) = 2%nat
  /\ allDigits (padStart 2 "0" (numberToString n)) = true.
Proof.
  intros Hn.
  assert (Hall : forallb twoDigitsOk (seq 0 100) = true) by (vm_compute; reflexivity).
  rewrite forallb_forall in Hall.
  specialize (Hall (Z.to_nat n)).
  unfold twoDigitsOk in Hall. rewrite Z2Nat.id in Hall by lia.
  cbv zeta in Hall. apply andb_prop in Hall as [Hlen Hdigits].
  - apply Nat.eqb_eq in Hlen. auto.
  - apply in_seq. lia.
Qed.

Lemma random_suffix_four_digits (r : Z) :
  String.length (numberToString (1000 + r mod 9000)) = 4%nat
  /\ allDigits (numberToString (1000 + r mod 9000)) = true.
Proof.
  assert (Hr : 0 <= r mod 9000 < 9000) by (apply Z.mod_pos_bound; lia).
  assert (Hall : forallb fourDigitsOk (seq 0 (Z.to_nat 9000)) = true)
    by (vm_compute; reflexivity).
  rewrite forallb_forall in Hall.
  specialize (Hall (Z.to_nat (r mod 9000))).
  unfold fourDigitsOk in Hall. rewrite Z2Nat.id in Hall by lia.
  cbv zeta in Hall. apply andb_prop in Hall as [Hlen Hdigits].
  - apply Nat.eqb_eq in Hlen. auto.
  - apply in_seq. lia.
Qed.

Lemma length_two_inv (s : string) :
  String.length s = 2%nat -> exists a b, s = String a (String b "").
Proof.
  destruct s as [| a [| b [| c s]]]; cbn; intros H; try discriminate. eauto.
Qed.

Lemma length_four_inv (s : string) :
  String.length s = 4%nat ->
  exists a b c d, s = String a (String b (String c (String d ""))).
Proof.
  destruct s as [| a [| b [| c [| d [| e s]]]]]; cbn; intros H; try discriminate.
  eauto 6.
Qed.

Lemma codeAttempts_shape (host : Host) (remaining : nat) (year month day : string)
    (w w' : World) (c : string) :
  codeAttempts host remaining year month day w = (Ok c, w') ->
  c = "" \/ exists r, c = "AGRITRUST-" +:+ year +:+ month +:+ day +:+ "-"
                          +:+ numberToString (1000 + r mod 9000).
Proof.
  revert w. induction remaining as [| n IH]; intros w.
  - intros [= <- _]. left. reflexivity.
  - rewrite codeAttempts_step. cbv zeta.
    destruct (codes (store w) !! _).
    + apply IH.
    + intros [= <- _]. right. eexists. reflexivity.
Qed.

(** X12.  In every year of at least two digits the consumer code that the
    workflow generates has the shape [AGRITRUST-], six digits, a hyphen,
    four digits. *)
Theorem generated_code_format (host : Host) (w w' : World) (code : string) :
  generateConsumerCode host w = (Ok code, w') ->
  10 <= YearFromTime (clock host (dateReads w) + localTZA host) ->
  matchesConsumerCode code = true.
Proof.
  intros Hgen Hyear.
  pose proof (generateConsumerCode_nonempty host _ _ _ Hgen) as Hnonempty.
  unfold generateConsumerCode in Hgen.
  apply bind_Ok_inv in Hgen as (date & w1 & Hdate & Hgen).
  injection Hdate as <- <-.
  apply bind_Ok_inv in Hgen as (c & w2 & Hloop & Hgen).
  destruct (String.eqb c "") eqn:Hc; [discriminate |]. injection Hgen as <- _.
  apply codeAttempts_shape in Hloop as [-> | [r ->]]; [discriminate |].
  set (localTime := clock host (dateReads w) + localTZA host) in *.
  destruct (sliceLast_decimal _ Hyear) as (y1 & y2 & -> & Hy1 & Hy2).
  pose proof (civil_ranges (Day localTime)) as [Hmonth Hday].
  destruct (padStart_two_digits (MonthFromTime localTime + 1)) as [Hmlen Hmdig];
    [unfold MonthFromTime; lia |].
  destruct (padStart_two_digits (DateFromTime localTime)) as [Hdlen Hddig];
    [unfold DateFromTime; lia |].
  destruct (random_suffix_four_digits r) as [Hrlen Hrdig].
  destruct (length_two_inv _ Hmlen) as (m1 & m2 & Hm). rewrite Hm in *.
  destruct (length_two_inv _ Hdlen) as (d1 & d2 & Hd). rewrite Hd in *.
  destruct (length_four_inv _ Hrlen) as (r1 & r2 & r3 & r4 & Hr). rewrite Hr in *.
  cbn in Hmdig, Hddig, Hrdig. cbv [String.append]. unfold matchesConsumerCode. cbn.
  rewrite Hy1, Hy2. cbn.
  apply andb_prop in Hmdig as [-> Hmdig]. apply andb_prop in Hmdig as [-> _].
  apply andb_prop in Hddig as [-> Hddig]. apply andb_prop in Hddig as [-> _].
  cbn. rewrite Hrdig. reflexivity.
Qed.

Lemma generated_code_format_witness :
  matchesConsumerCode "AGRITRUST-231115-1234" = true.
Proof.
  refine (generated_code_format quietHost seededWorld _ "AGRITRUST-231115-1234" _ _).
  - vm_compute. reflexivity.
  - vm_compute. discriminate.
Defined.

(** ** The data layer on its own *)

(** *** The log: appending and checking *)

Lemma find_app_one {A : Type} (p : A -> bool) (l : list A) (x : A) :
  find p (l ++ [x]) = match find p l with
                      | Some y => Some y
                      | None => if p x then Some x else None
                      end.
Proof.
  induction l as [| a l IH]; cbn; [reflexivity |].
  destruct (p a); [reflexivity | exact IH].
Qed.

(** X13.  Appending [(vcDigest, cid)] changes the answers of the log check
    for that digest only, and only when the storage accepts the write: the
    check of another digest answers as before, and when an older entry
    already carries the digest, that entry keeps deciding and the answer
    is as before; when the write is accepted, the check of this digest
    finds an entry afterwards, and with no older entry of the digest the
    answer is consistent exactly for the content digest that was appended;
    when the write is rejected, every check answers as before. *)
Theorem check_after_append (host : Host) (w : World) (vcDigest contentId : string) :
  (forall other expectedCid, other <> vcDigest ->
     fst (checkTransparencyLog other expectedCid
            (snd (appendToTransparencyLog host vcDigest contentId w)))
     = fst (checkTransparencyLog other expectedCid w))
  /\ (forall expectedCid older,
        older ∈ logOf w -> digest older = vcDigest ->
        fst (checkTransparencyLog vcDigest expectedCid
               (snd (appendToTransparencyLog host vcDigest contentId w)))
        = fst (checkTransparencyLog vcDigest expectedCid w))
  /\ (setItemFails host (writes w) = false ->
      (forall expectedCid answer,
         fst (checkTransparencyLog vcDigest expectedCid
                (snd (appendToTransparencyLog host vcDigest contentId w))) = Ok answer ->
         exists_ answer = true)
      /\ (forall expectedCid,
            (forall older, older ∈ logOf w -> digest older <> vcDigest) ->
            fst (checkTransparencyLog vcDigest expectedCid
                   (snd (appendToTransparencyLog host vcDigest contentId w)))
            = Ok {| exists_ := true; consistent := String.eqb contentId expectedCid |}))
  /\ (setItemFails host (writes w) = true ->
      forall anyDigest expectedCid,
        fst (checkTransparencyLog anyDigest expectedCid
               (snd (appendToTransparencyLog host vcDigest contentId w)))
        = fst (checkTransparencyLog anyDigest expectedCid w)).
Proof.
  rewrite appendToTransparencyLog_spec. cbn [snd].
  set (entry := newLogEntry host w vcDigest contentId).
  set (w' := {| store := _; dateReads := S (dateReads w) |}).
  assert (Hlog : logOf w' = if setItemFails host (writes w) then logOf w
                            else (logOf w ++ [entry])%list).
  { unfold logOf, w'. cbn [store]. destruct (setItemFails host (writes w)); reflexivity. }
  assert (Hanswer : forall d x,
            logAnswer (logOf w') d x
            = match find (fun e => String.eqb (digest e) d) (logOf w) with
              | Some y => logAnswer (logOf w) d x
              | None => if setItemFails host (writes w)
                        then {| exists_ := false; consistent := false |}
                        else if String.eqb vcDigest d
                             then {| exists_ := true; consistent := String.eqb contentId x |}
                             else {| exists_ := false; consistent := false |}
              end).
  { intros d x. unfold logAnswer. rewrite Hlog.
    destruct (setItemFails host (writes w)).
    - destruct (find _ (logOf w)) as [y |]; reflexivity.
    - rewrite find_app_one.
      destruct (find _ (logOf w)) as [y |]; [reflexivity |].
      cbn [digest entry newLogEntry]. destruct (String.eqb vcDigest d); [| reflexivity].
      cbn [cid entry newLogEntry]. destruct (String.eqb contentId x); reflexivity. }
  split; [| split; [| split]].
  - intros other x Hne. rewrite !checkTransparencyLog_run. cbn [fst]. rewrite Hanswer.
    unfold logAnswer. destruct (find _ (logOf w)) as [y |]; [reflexivity |].
    destruct (setItemFails host (writes w)); [reflexivity |].
    destruct (String.eqb vcDigest other) eqn:Heq; [| reflexivity].
    apply String.eqb_eq in Heq. congruence.
  - intros x older Hin Hd. rewrite !checkTransparencyLog_run. cbn [fst]. rewrite Hanswer.
    destruct (find _ (logOf w)) as [y |] eqn:Hfind; [reflexivity |].
    exfalso. apply (proj1 (find_digest_None _ _) Hfind older Hin Hd).
  - intros Haccepted. split.
    + intros x answer. rewrite checkTransparencyLog_run. cbn [fst]. rewrite Hanswer, Haccepted.
      intros [= <-]. unfold logAnswer.
      destruct (find _ (logOf w)) as [y |].
      * destruct (negb _); reflexivity.
      * rewrite String.eqb_refl. reflexivity.
    + intros x Hnone. rewrite checkTransparencyLog_run. cbn [fst]. rewrite Hanswer, Haccepted.
      rewrite (proj2 (find_digest_None _ _) Hnone), String.eqb_refl. reflexivity.
  - intros Hrejected d x. rewrite !checkTransparencyLog_run. cbn [fst].
    rewrite Hanswer, Hrejected. unfold logAnswer.
    destruct (find _ (logOf w)) as [y |]; reflexivity.
Qed.

(** *** A credential whose signature was replaced *)

(** X14.  On an issued credential whose [proof.signatureValue] was
    replaced by any value, the verifier returns a boolean, and it returns
    [true] exactly when the value put there is the signature that was
    issued. *)
Theorem validate_detects_signature_change
    (timestamp uuid cid farmerId batchId : string) (issued : Issued) (v : Value) :
  String.eqb timestamp "" = false ->
  issueVerifiableCredentialAt timestamp uuid cid farmerId batchId = Ok issued ->
  exists accepted,
    validateVcSignature (withSignature (vcObject issued) v) = Ok accepted
    /\ (accepted = true
        <-> v = optGet (optGet (vcObject issued) "proof") "signatureValue").
Proof.
  intros Hts Hissue. unfold issueVerifiableCredentialAt in Hissue.
  set (credential := VObj _) in Hissue.
  destruct (sha256OfJson credential) as [d | e]; [| discriminate].
  cbn [bindR] in Hissue. injection Hissue as <-. cbn [vcObject]. subst credential.
  set (signature := sha256 _).
  unfold withSignature, validateVcSignature. cbn.
  destruct (truthy v) eqn:Hv; cbn.
  - rewrite Hts. cbn. fold signature. eexists. split; [reflexivity |].
    destruct v as [| | | | s | |]; cbn; try (split; discriminate).
    split.
    + intros H. apply String.eqb_eq in H. congruence.
    + intros [= ->]. apply String.eqb_refl.
  - exists false. split; [reflexivity |]. split; [discriminate |].
    intros ->. cbn in Hv. fold signature in Hv.
    unfold signature in Hv. rewrite sha256_nonempty in Hv. discriminate.
Qed.

Lemma validate_detects_signature_change_witness :
  exists issued accepted,
    issueVerifiableCredentialAt "2023-11-14T22:13:20.000Z" "u" "c" "f" "b" = Ok issued
    /\ validateVcSignature (withSignature (vcObject issued) (VStr "forged")) = Ok accepted.
Proof.
  destruct (issueVerifiableCredentialAt_ok "2023-11-14T22:13:20.000Z" "u" "c" "f" "b")
    as [issued Hissued].
  destruct (validate_detects_signature_change "2023-11-14T22:13:20.000Z" "u" "c" "f" "b"
              issued (VStr "forged") eq_refl Hissued)
    as (accepted & Haccepted & _).
  exists issued, accepted. split; [exact Hissued | exact Haccepted].
Defined.

(** *** Farmers *)

(** X15.  Registration does not replace: after [addFarmer(f)] an
    identifier that was registered before still resolves to the farmer it
    resolved to; when the storage accepted the write, the list of farmers
    has [f] behind the others, the identifier of [f] resolves to [f] only
    if it was not registered before, and every other identifier is still
    unknown; when the storage rejected the write, the farmers are the ones
    from before and every identifier resolves as before. *)
Theorem getFarmerById_after_add (host : Host) (w : World) (f : Farmer) (farmerId : string) :
  exists w',
    addFarmer host f w = (Ok tt, w')
    /\ farmers (store w')
       = (if setItemFails host (writes w) then farmers (store w)
          else farmers (store w) ++ [f])%list
    /\ fst (getFarmerById farmerId w')
       = Ok (match find (fun g => String.eqb (id g) farmerId) (farmers (store w)) with
             | Some g => Some g
             | None => if setItemFails host (writes w) then None
                       else if String.eqb (id f) farmerId then Some f else None
             end)
    /\ fst (getFarmerById farmerId w)
       = Ok (find (fun g => String.eqb (id g) farmerId) (farmers (store w))).
Proof.
  rewrite addFarmer_run. eexists. split; [reflexivity |].
  unfold getFarmerById, getFarmers, bind, getStore, ret. cbn [fst store].
  destruct (setItemFails host (writes w)).
  - split; [reflexivity |]. split; [| reflexivity].
    destruct (find _ _); reflexivity.
  - unfold withFarmer. cbn [farmers]. split; [reflexivity |]. split; [| reflexivity].
    rewrite find_app_one. reflexivity.
Qed.

(** *** Claims of a batch *)

Lemma filterR_app_one (p : Value -> Result bool) (l : list Value) (x : Value) :
  filterR p (l ++ [x])
  = bindR (filterR p l) (fun kept =>
    bindR (p x) (fun b => Ok (if b then kept ++ [x] else kept)%list)).
Proof.
  induction l as [| a l IH]; cbn.
  - destruct (p x) as [[|] | e]; reflexivity.
  - destruct (p a) as [b | e]; cbn; [| reflexivity].
    rewrite IH. destruct (filterR p l) as [kept | e]; cbn; [| reflexivity].
    destruct (p x) as [[|] | e]; cbn; destruct b; reflexivity.
Qed.

Lemma filterR_readable (k : string) (expected : Value) (l : list Value) :
  (exists kept, filterR (propEq k expected) l = Ok kept)
  <-> Forall (fun v => present v = true) l.
Proof.
  induction l as [| a l IH]; cbn.
  - split; [constructor | eauto].
  - split.
    + intros [kept Hkept].
      destruct (propEq k expected a) as [b | e] eqn:Ha; [| discriminate].
      cbn in Hkept. destruct (filterR (propEq k expected) l) as [rest | e]; [| discriminate].
      constructor; [| apply IH; eauto].
      unfold propEq in Ha. destruct a; cbn in Ha; try discriminate; reflexivity.
    + intros H. inversion H as [| ? ? Ha Hl]; subst.
      destruct (propEq_present k expected a Ha) as [b ->]. cbn.
      apply IH in Hl as [rest ->]. cbn. eauto.
Qed.

Lemma getClaimsByBatchId_run (batchId : Value) (w : World) :
  getClaimsByBatchId batchId w
  = (filterR (propEq "batchId" batchId) (map toValue (claims (store w))), w).
Proof. reflexivity. Qed.

(** X16.  [getClaimsByBatchId] returns a list exactly when no stored claim
    is [null], and raises otherwise, whatever the batch identifier asked
    for.  After [addClaim(c)] for a claim object [c] it returns what it
    returned before when the storage rejected the write, and otherwise
    what it returned before followed by [c] as it is read back, without
    the properties whose value is [undefined], when the [batchId] read
    back is the identifier asked for. *)
Theorem getClaimsByBatchId_after_add (host : Host) (w : World)
    (props : list (string * Value)) (batchId : Value) :
  ((exists kept, fst (getClaimsByBatchId batchId w) = Ok kept)
   <-> Forall (fun j => present (toValue j) = true) (claims (store w)))
  /\ (forall kept,
        fst (getClaimsByBatchId batchId w) = Ok kept ->
        fst (getClaimsByBatchId batchId (snd (addClaim host (VObj props) w)))
        = Ok (if setItemFails host (writes w) then kept
              else if strictEq (lookupProp "batchId" (storedProps props)) batchId
                   then kept ++ [VObj (storedProps props)] else kept)%list)
  /\ (forall k s, lookupProp k props = VStr s -> lookupProp k (storedProps props) = VStr s).
Proof.
  rewrite !getClaimsByBatchId_run. cbn [fst].
  split; [rewrite filterR_readable, Forall_map; reflexivity |].
  split; [| intros k s; apply lookupProp_storedProps].
  intros kept Hkept. rewrite addClaim_run. cbn [snd store].
  destruct (setItemFails host (writes w)); [exact Hkept |].
  unfold withClaims. cbn [claims]. rewrite map_app. cbn [map].
  rewrite toValue_toJsonElement_obj, filterR_app_one, Hkept. reflexivity.
Qed.

(** *** Drafts *)



(** ** Farmer identifiers and the login page *)

(** *** Strings built from pieces *)



Lemma dropDigits_Some (n : nat) (s rest : string) :
  dropDigits n s = Some rest ->
  exists a, s = a +:+ rest /\ String.length a = n /\ allDigits a = true.
Proof.
  revert s. induction n as [| n IH]; intros s H.
  - exists "". destruct s; cbn in H; injection H as <-; auto.
  - destruct s as [| x s]; cbn [dropDigits] in H; [discriminate |].
    destruct (isDigit x) eqn:Hx; [| discriminate].
    destruct (IH s H) as (a & -> & Hlen & Ha).
    exists (String x a). rewrite append_cons. cbn [String.length allDigits].
    rewrite Hx, Ha, Hlen. auto.
Qed.

Lemma dropChar_Some (c : ascii) (s rest : string) :
  dropChar c s = Some rest -> s = String c rest.
Proof.
  destruct s as [| a s]; cbn; [discriminate |].
  destruct (Ascii.eqb a c) eqn:Hac; [| discriminate].
  apply Ascii.eqb_eq in Hac. intros [= <-]. subst a. reflexivity.
Qed.

Lemma dropLower_split (s : string) :
  exists run, s = run +:+ dropLower s /\ allLower run = true.
Proof.
  induction s as [| c s (run & Hs & Hrun)].
  - exists "". auto.
  - cbn [dropLower]. destruct (isLower c) eqn:Hc.
    + exists (String c run). rewrite append_cons, <- Hs. cbn [allLower].
      rewrite Hc, Hrun. auto.
    + exists "". auto.
Qed.

Lemma isLower_not_hyphen (c : ascii) : isLower c = true -> Ascii.eqb c "-" = false.
Proof.
  intros Hc. destruct (Ascii.eqb c "-") eqn:Heq; [| reflexivity].
  apply Ascii.eqb_eq in Heq. subst c. discriminate Hc.
Qed.

Lemma isDigit_not_hyphen (c : ascii) : isDigit c = true -> Ascii.eqb c "-" = false.
Proof.
  intros Hc. destruct (Ascii.eqb c "-") eqn:Heq; [| reflexivity].
  apply Ascii.eqb_eq in Heq. subst c. discriminate Hc.
Qed.

Lemma isLower_not_upper (c : ascii) : isLower c = true -> isUpper c = false.
Proof.
  unfold isLower, isUpper. cbv zeta. intros Hc.
  apply andb_prop in Hc as [Hlo _]. apply N.leb_le in Hlo.
  apply andb_false_iff. right. apply N.leb_gt. lia.
Qed.

Lemma allLower_noChar (s : string) : allLower s = true -> noChar "-" s = true.
Proof.
  induction s as [| c s IH]; [reflexivity |].
  cbn [allLower noChar]. intros H. apply andb_prop in H as [Hc Hs].
  rewrite (isLower_not_hyphen c Hc), (IH Hs). reflexivity.
Qed.

Lemma allDigits_noChar (s : string) : allDigits s = true -> noChar "-" s = true.
Proof.
  induction s as [| c s IH]; [reflexivity |].
  cbn [allDigits noChar]. intros H. apply andb_prop in H as [Hc Hs].
  rewrite (isDigit_not_hyphen c Hc), (IH Hs). reflexivity.
Qed.

Lemma splitOn_whole (c : ascii) (s : string) : noChar c s = true -> splitOn c s = [s].
Proof.
  induction s as [| a s IH]; [reflexivity |].
  cbn [noChar splitOn]. intros H. apply andb_prop in H as [Ha Hs].
  apply negb_true_iff in Ha. rewrite Ha, (IH Hs). reflexivity.
Qed.

Lemma splitOn_append (c : ascii) (a rest : string) :
  noChar c a = true -> splitOn c (a +:+ String c rest) = a :: splitOn c rest.
Proof.
  induction a as [| x a IH]; intros H.
  - cbn [String.append splitOn]. cbv [String.append]. cbn [splitOn].
    rewrite Ascii.eqb_refl. reflexivity.
  - cbn [noChar] in H. apply andb_prop in H as [Hx Ha].
    apply negb_true_iff in Hx.
    rewrite append_cons. cbn [splitOn]. rewrite Hx, (IH Ha). reflexivity.
Qed.

Lemma splitBeforeUpper_lower (s : string) :
  allLower s = true -> splitBeforeUpper s = [s].
Proof.
  induction s as [| a s IH]; [reflexivity |].
  intros H. cbn [allLower] in H. apply andb_prop in H as [_ Hs].
  cbn [splitBeforeUpper]. destruct s as [| b s]; [reflexivity |].
  assert (Hb : isUpper b = false).
  { cbn [allLower] in Hs. apply andb_prop in Hs as [Hb _].
    exact (isLower_not_upper b Hb). }
  rewrite Hb, (IH Hs). reflexivity.
Qed.

(** *** The format that the login form accepts *)



Lemma matchesFarmerId_inv (s : string) :
  matchesFarmerId s = true ->
  exists date run rand,
    s = date +:+ String "-" (run +:+ String "-" rand)
    /\ String.length date = 8%nat /\ allDigits date = true
    /\ run <> "" /\ allLower run = true
    /\ String.length rand = 4%nat /\ allDigits rand = true.
Proof.
  unfold matchesFarmerId. intros H.
  destruct (dropDigits 8 s) as [afterDate |] eqn:H1; [| discriminate].
  destruct (dropChar "-" afterDate) as [fromName |] eqn:H2; [| discriminate].
  destruct (dropLower1 fromName) as [afterName |] eqn:H3; [| discriminate].
  destruct (dropChar "-" afterName) as [fromRand |] eqn:H4; [| discriminate].
  destruct (dropDigits 4 fromRand) as [rest |] eqn:H5; [| discriminate].
  apply String.eqb_eq in H. subst rest.
  apply dropDigits_Some in H1 as (date & -> & Hdl & Hdate).
  apply dropChar_Some in H2 as ->.
  apply dropChar_Some in H4.
  apply dropDigits_Some in H5 as (rand & Hrand & Hrl & Hdigits).
  destruct fromName as [| c fromName]; [discriminate |].
  cbn [dropLower1] in H3. destruct (isLower c) eqn:Hc; [| discriminate].
  injection H3 as <-.
  destruct (dropLower_split fromName) as (run & Hsplit & Hrun).
  exists date, (String c run), rand.
  rewrite append_cons. rewrite Hsplit at 1. rewrite H4, Hrand.
  replace (rand +:+ "") with rand
    by (clear; induction rand as [| x r IH]; [reflexivity | rewrite append_cons, <- IH; reflexivity]).
  cbn [allLower]. rewrite Hc, Hrun. repeat split; auto; discriminate.
Qed.

Lemma isLower_isAscii (c : ascii) : isLower c = true -> isAscii c = true.
Proof.
  unfold isLower, isAscii. intros H. apply andb_prop in H as [_ H].
  apply N.leb_le in H. apply N.ltb_lt. lia.
Qed.

(** X18.  An identifier that the login form accepts has the shape of
    eight digits, a hyphen, a nonempty run of lowercase letters, a hyphen
    and four digits; from it [deriveFarmerInfoFromId] takes the run with
    its first letter in upper case as the name, and the eight digits cut
    into year, month and day, ten characters in all, as the date of
    joining. *)
Theorem deriveFarmerInfoFromId_of_accepted (host : Host) (farmerId : string) :
  matchesFarmerId farmerId = true ->
  exists date first rest rand,
    farmerId = date +:+ "-" +:+ String first rest +:+ "-" +:+ rand
    /\ String.length date = 8%nat /\ allDigits date = true
    /\ allLower (String first rest) = true
    /\ String.length rand = 4%nat /\ allDigits rand = true
    /\ deriveFarmerInfoFromId host farmerId
       = (String (toUpperCase first) rest,
          substring 0 4 date +:+ "-" +:+ substring 4 2 date +:+ "-" +:+ substring 6 2 date)
    /\ capitalize host (String first rest) = String (toUpperCase first) rest
    /\ String.length (snd (deriveFarmerInfoFromId host farmerId)) = 10%nat.
Proof.
  intros H.
  destruct (matchesFarmerId_inv farmerId H)
    as (date & run & rand & -> & Hdl & Hdate & Hne & Hrun & Hrl & Hrand).
  destruct run as [| first rest]; [contradiction Hne; reflexivity |].
  exists date, first, rest, rand.
  assert (Hcapital : capitalize host (String first rest) = String (toUpperCase first) rest).
  { cbn [capitalize]. cbn [allLower] in Hrun. apply andb_prop in Hrun as [Hfirst _].
    rewrite (isLower_isAscii first Hfirst). reflexivity. }
  assert (Hderive :
    deriveFarmerInfoFromId host (date +:+ String "-" (String first rest +:+ String "-" rand))
    = (String (toUpperCase first) rest,
       substring 0 4 date +:+ "-" +:+ substring 4 2 date +:+ "-" +:+ substring 6 2 date)).
  { unfold deriveFarmerInfoFromId.
    rewrite (splitOn_append "-" date _ (allDigits_noChar date Hdate)).
    rewrite (splitOn_append "-" (String first rest) _ (allLower_noChar _ Hrun)).
    rewrite (splitOn_whole "-" rand (allDigits_noChar rand Hrand)).
    cbv zeta. rewrite (splitBeforeUpper_lower _ Hrun). cbn [map join].
    rewrite Hcapital. reflexivity. }
  split; [reflexivity |]. split; [exact Hdl |]. split; [exact Hdate |].
  split; [exact Hrun |]. split; [exact Hrl |]. split; [exact Hrand |].
  split; [exact Hderive |]. split; [exact Hcapital |].
  rewrite Hderive. cbn [snd].
  destruct date as [| d1 [| d2 [| d3 [| d4 [| d5 [| d6 [| d7 [| d8 [| d9 date]]]]]]]]];
    cbn in Hdl; try discriminate. reflexivity.
Qed.

Lemma deriveFarmerInfoFromId_of_accepted_witness :
  exists date first rest rand,
    "20231115-ravi-4821" = date +:+ "-" +:+ String first rest +:+ "-" +:+ rand
    /\ String.length date = 8%nat /\ allDigits date = true
    /\ allLower (String first rest) = true
    /\ String.length rand = 4%nat /\ allDigits rand = true
    /\ deriveFarmerInfoFromId quietHost "20231115-ravi-4821"
       = (String (toUpperCase first) rest,
          substring 0 4 date +:+ "-" +:+ substring 4 2 date +:+ "-" +:+ substring 6 2 date)
    /\ capitalize quietHost (String first rest) = String (toUpperCase first) rest
    /\ String.length (snd (deriveFarmerInfoFromId quietHost "20231115-ravi-4821")) = 10%nat.
Proof.
  apply (deriveFarmerInfoFromId_of_accepted quietHost "20231115-ravi-4821").
  vm_compute. reflexivity.
Defined.

Example deriveFarmerInfoFromId_ravi :
  deriveFarmerInfoFromId quietHost "20231115-ravi-4821" = ("Ravi", "2023-11-15").
Proof. vm_compute. reflexivity. Qed.

(** Beyond ASCII the first letter is mapped by the platform, which the
    form does not accept in an identifier. *)
Example matchesFarmerId_rejects_beyond_ascii :
  matchesFarmerId ("20231115-" +:+ String (ascii_of_N 195) (String (ascii_of_N 169) "mile-4821"))
  = false.
Proof. reflexivity. Qed.

(** ** Registration of a farmer *)

Lemma find_farmer_None (farmerId : string) (l : list Farmer) :
  find (fun f => String.eqb (id f) farmerId) l = None <-> ~ In farmerId (map id l).
Proof.
  induction l as [| f l IH]; cbn [find map In].
  - tauto.
  - destruct (String.eqb (id f) farmerId) eqn:Hf.
    + apply String.eqb_eq in Hf. split; [discriminate | tauto].
    + apply String.eqb_neq in Hf. tauto.
Qed.

Lemma find_farmer_Some (farmerId : string) (l : list Farmer) :
  In farmerId (map id l) ->
  exists f, find (fun f => String.eqb (id f) farmerId) l = Some f.
Proof.
  intros Hin. destruct (find _ l) as [f |] eqn:Hfind; [eauto |].
  apply find_farmer_None in Hfind. contradiction.
Qed.

Lemma getFarmerById_run (farmerId : string) (w : World) :
  getFarmerById farmerId w
  = (Ok (find (fun f => String.eqb (id f) farmerId) (farmers (store w))), w).
Proof. reflexivity. Qed.

Section Registration.

Variable host : Host.

Lemma idAttempts_step (remaining : nat) (stem current : string) (w : World) :
  idAttempts host (S remaining) stem current w
  = match find (fun f => String.eqb (id f) current) (farmers (store w)) with
    | None => (Ok current, w)
    | Some _ =>
        idAttempts host remaining stem
          (stem +:+ numberToString (1000 + randoms host (randomReads w) mod 9000))
          {| store := store w; dateReads := dateReads w; uuidReads := uuidReads w;
             randomReads := S (randomReads w); writes := writes w |}
    end.
Proof.
  cbn [idAttempts]. unfold bind at 1. rewrite getFarmerById_run.
  destruct (find _ _); reflexivity.
Qed.

(** The loop reads and draws; whatever it returns is the identifier it
    started from or the stem with a suffix drawn. *)
Lemma idAttempts_inv (remaining : nat) (stem current : string) (w w' : World)
    (r : Result string) :
  idAttempts host remaining stem current w = (r, w') ->
  store w' = store w /\ dateReads w' = dateReads w /\ writes w' = writes w
  /\ exists v, r = Ok v
       /\ (v = current \/ exists k, v = stem +:+ numberToString (1000 + k mod 9000)).
Proof.
  revert current w. induction remaining as [| n IH]; intros current w.
  - intros [= <- <-]. eauto 7.
  - rewrite idAttempts_step. destruct (find _ _).
    + intros H. apply IH in H as (Hs & Hd & Hw & v & -> & Hv). cbn in Hs, Hd, Hw.
      repeat split; auto. exists v. split; [reflexivity |]. right.
      destruct Hv as [-> | Hv]; eauto.
    + intros [= <- <-]. eauto 7.
Qed.

(** Which identifier the loop returns: the first of its candidates that
    is free, or the last one when the draws are used up. *)
Lemma idAttempts_first_free (j : nat) :
  forall (candidate : nat -> string) (remaining : nat) (stem current : string) (w : World),
  current = candidate 0%nat ->
  (forall i, candidate (S i)
             = stem +:+ numberToString (1000 + randoms host (randomReads w + i) mod 9000)) ->
  (forall i, (i < j)%nat -> In (candidate i) (map id (farmers (store w)))) ->
  (j <= remaining)%nat ->
  j = remaining \/ ~ In (candidate j) (map id (farmers (store w))) ->
  idAttempts host remaining stem current w
  = (Ok (candidate j),
     {| store := store w; dateReads := dateReads w; uuidReads := uuidReads w;
        randomReads := randomReads w + j; writes := writes w |}).
Proof.
  induction j as [| j IH]; intros candidate remaining stem current w -> Hcand Htaken Hle Hj.
  - rewrite Nat.add_0_r. destruct remaining as [| n].
    + destruct w; reflexivity.
    + destruct Hj as [Hj | Hfree]; [discriminate |].
      rewrite idAttempts_step. apply find_farmer_None in Hfree. rewrite Hfree.
      destruct w; reflexivity.
  - destruct remaining as [| n]; [lia |].
    rewrite idAttempts_step.
    destruct (find_farmer_Some _ _ (Htaken 0%nat ltac:(lia))) as [f ->].
    rewrite (IH (fun i => candidate (S i)) n stem);
      cbn [store dateReads uuidReads randomReads writes].
    + f_equal. f_equal. lia.
    + cbv beta. rewrite Hcand, Nat.add_0_r. reflexivity.
    + intros i. cbv beta. rewrite Hcand.
      replace (S (randomReads w) + i)%nat with (randomReads w + S i)%nat by lia.
      reflexivity.
    + intros i Hi. apply Htaken. lia.
    + lia.
    + destruct Hj as [Hj | Hfree]; [left; lia | right; exact Hfree].
Qed.

Lemma register_loop (sanitizedName' : string) (w : World) (j : nat) :
  (forall i, (i < j)%nat ->
     In (candidateFarmerId host w sanitizedName' i) (map id (farmers (store w)))) ->
  (j <= 10)%nat ->
  j = 10%nat \/ ~ In (candidateFarmerId host w sanitizedName' j) (map id (farmers (store w))) ->
  idAttempts host 10 (farmerIdStem host w sanitizedName')
    (candidateFarmerId host w sanitizedName' 0)
    {| store := store w; dateReads := S (dateReads w); uuidReads := uuidReads w;
       randomReads := S (randomReads w); writes := writes w |}
  = (Ok (candidateFarmerId host w sanitizedName' j),
     {| store := store w; dateReads := S (dateReads w); uuidReads := uuidReads w;
        randomReads := S (randomReads w) + j; writes := writes w |}).
Proof.
  intros Htaken Hle Hj.
  apply (idAttempts_first_free j (candidateFarmerId host w sanitizedName'));
    cbn [store randomReads]; auto.
  intros i. unfold candidateFarmerId.
  replace (S (randomReads w) + i)%nat with (randomReads w + S i)%nat by lia.
  reflexivity.
Qed.

(** [register] up to the end of its loop. *)
Lemma register_run (sanitizedName' : string) (w : World) :
  register host sanitizedName' w
  = bind (idAttempts host 10 (farmerIdStem host w sanitizedName')
            (candidateFarmerId host w sanitizedName' 0))
      (fun newFarmerId =>
         taken <- getFarmerById newFarmerId ;;
         match taken with
         | Some _ => throw (Error noUniqueFarmerId)
         | None =>
             createdAt' <- nowISO host ;;
             updatedAt' <- nowISO host ;;
             addFarmer host
                       {| id := newFarmerId;
                          name := fst (deriveFarmerInfoFromId host newFarmerId);
                          dateOfJoining := snd (deriveFarmerInfoFromId host newFarmerId);
                          location := {| village := "Unknown"; district := "Unknown";
                                         state := "Unknown"; gps := None |};
                          createdAt := createdAt';
                          updatedAt := updatedAt' |} ;;
             ret newFarmerId
         end)
      {| store := store w; dateReads := S (dateReads w); uuidReads := uuidReads w;
         randomReads := S (randomReads w); writes := writes w |}.
Proof.
  unfold register. unfold bind at 1. cbn [newDate]. unfold bind at 1.
  cbn [randomBelow store dateReads uuidReads randomReads].
  unfold candidateFarmerId, farmerIdStem. rewrite Nat.add_0_r. reflexivity.
Qed.

(** What [register] does once the loop has returned an identifier. *)
Lemma register_tail (newFarmerId : string) (w : World) :
  (taken <- getFarmerById newFarmerId ;;
   match taken with
   | Some _ => throw (Error noUniqueFarmerId)
   | None =>
       createdAt' <- nowISO host ;;
       updatedAt' <- nowISO host ;;
       addFarmer host
                 {| id := newFarmerId;
                    name := fst (deriveFarmerInfoFromId host newFarmerId);
                    dateOfJoining := snd (deriveFarmerInfoFromId host newFarmerId);
                    location := {| village := "Unknown"; district := "Unknown";
                                   state := "Unknown"; gps := None |};
                    createdAt := createdAt';
                    updatedAt := updatedAt' |} ;;
       ret newFarmerId
   end) w
  = match find (fun f => String.eqb (id f) newFarmerId) (farmers (store w)) with
    | Some _ => (Throw (Error noUniqueFarmerId), w)
    | None =>
        (Ok newFarmerId,
         {| store := if setItemFails host (writes w) then store w
                     else withFarmer (store w)
                            (registeredFarmer host (dateReads w) newFarmerId);
            dateReads := S (S (dateReads w)); uuidReads := uuidReads w;
            randomReads := randomReads w; writes := S (writes w) |})
    end.
Proof.
  unfold bind at 1. rewrite getFarmerById_run.
  destruct (find _ _); reflexivity.
Qed.

(** Every run of [register] either raises and leaves the store as it was,
    or returns an identifier that was free, which is the stem followed by
    a suffix drawn, and has asked the storage once to store a farmer under
    it. *)
Lemma register_inv (sanitizedName' : string) (w w' : World) (r : Result string) :
  register host sanitizedName' w = (r, w') ->
  (r = Throw (Error noUniqueFarmerId) /\ store w' = store w)
  \/ exists newFarmerId k,
       r = Ok newFarmerId
       /\ newFarmerId
          = farmerIdStem host w sanitizedName' +:+ numberToString (1000 + k mod 9000)
       /\ ~ In newFarmerId (map id (farmers (store w)))
       /\ store w'
          = (if setItemFails host (writes w) then store w
             else withFarmer (store w) (registeredFarmer host (S (dateReads w)) newFarmerId)).
Proof.
  rewrite register_run. unfold bind at 1.
  destruct (idAttempts host 10 _ _ _) as [loopResult w1] eqn:Hloop.
  apply idAttempts_inv in Hloop as (Hs & Hd & Hw & v & -> & Hv). cbn in Hs, Hd, Hw.
  rewrite register_tail. rewrite Hs, Hd, Hw.
  destruct (find _ _) eqn:Hfind.
  - intros [= <- <-]. left. auto.
  - intros [= <- <-]. right. apply find_farmer_None in Hfind.
    destruct Hv as [-> | [k ->]].
    + exists (candidateFarmerId host w sanitizedName' 0),
             (randoms host (randomReads w + 0)).
      cbn [store]. auto.
    + exists (farmerIdStem host w sanitizedName' +:+ numberToString (1000 + k mod 9000)), k.
      cbn [store]. auto.
Qed.

End Registration.



(** On a storage that is full the page still reports the farmer signed
    in, and no farmer is stored. *)
Example registration_on_full_storage :
  fst (handleGenerateNewFarmerId fullStorageHost raviForm nameTakenWorld)
  = LoggedIn "20231115-ravi-1235"
  /\ store (snd (handleGenerateNewFarmerId fullStorageHost raviForm nameTakenWorld))
     = store nameTakenWorld.
Proof. vm_compute. split; reflexivity. Qed.

(** X20.  When all eleven candidates are registered, registration ends
    with the message that no unique identifier could be generated and the
    store is what it was. *)
Theorem registration_exhausted (host : Host) (form : RegistrationForm) (w : World) :
  farmerNameIsBlank form = false ->
  (forall i, (i <= 10)%nat -> In (candidateFarmerId host w (sanitizedName form) i) (farmerIds w)) ->
  fst (handleGenerateNewFarmerId host form w) = GeneralError noUniqueFarmerId
  /\ store (snd (handleGenerateNewFarmerId host form w)) = store w.
Proof.
  intros Hblank Htaken.
  unfold handleGenerateNewFarmerId. rewrite Hblank.
  rewrite register_run.
  rewrite (bind_Ok_run _ _ _ _ _
             (register_loop host (sanitizedName form) w 10
                (fun i Hi => Htaken i ltac:(lia)) ltac:(lia) (or_introl eq_refl))).
  rewrite register_tail. cbn [store dateReads uuidReads randomReads writes].
  destruct (find_farmer_Some _ _ (Htaken 10%nat ltac:(lia))) as [f Hf].
  unfold farmerIds in Hf. rewrite Hf. cbn [fst snd store message]. auto.
Qed.

Lemma registration_exhausted_witness :
  fst (handleGenerateNewFarmerId stuckRandomHost raviForm nameTakenWorld)
  = GeneralError noUniqueFarmerId
  /\ store (snd (handleGenerateNewFarmerId stuckRandomHost raviForm nameTakenWorld))
     = store nameTakenWorld.
Proof.
  apply (registration_exhausted stuckRandomHost raviForm nameTakenWorld eq_refl).
  intros i _.
  change (candidateFarmerId stuckRandomHost nameTakenWorld (sanitizedName raviForm) i)
    with (candidateFarmerId stuckRandomHost nameTakenWorld (sanitizedName raviForm) 0).
  vm_compute. right. left. reflexivity.
Defined.

(** X21.  Registration keeps the identifiers of the farmers distinct: if
    no two registered farmers share an identifier before, none do after,
    however the handler ends.  The farmers that were registered stay in
    place, and batches, claims, code index, log and drafts are not
    touched. *)
Theorem registration_keeps_ids_distinct (host : Host) (form : RegistrationForm) (w : World) :
  NoDup (farmerIds w) ->
  NoDup (farmerIds (snd (handleGenerateNewFarmerId host form w)))
  /\ farmers (store w) `prefix_of` farmers (store (snd (handleGenerateNewFarmerId host form w)))
  /\ batches (store (snd (handleGenerateNewFarmerId host form w))) = batches (store w)
  /\ claims (store (snd (handleGenerateNewFarmerId host form w))) = claims (store w)
  /\ codes (store (snd (handleGenerateNewFarmerId host form w))) = codes (store w)
  /\ transparencyLog (store (snd (handleGenerateNewFarmerId host form w)))
     = transparencyLog (store w)
  /\ drafts (store (snd (handleGenerateNewFarmerId host form w))) = drafts (store w).
Proof.
  intros Hnodup. unfold handleGenerateNewFarmerId.
  destruct (farmerNameIsBlank form).
  - cbn [snd]. repeat split; auto.
  - destruct (register host (sanitizedName form) w) as [r w'] eqn:Hrun.
    apply register_inv in Hrun
      as [[-> Hstore] | (newFarmerId & k & -> & _ & Hfree & Hstore)]; cbn [snd].
    + unfold farmerIds. rewrite Hstore. repeat split; auto.
    + unfold farmerIds. rewrite Hstore.
      destruct (setItemFails host (writes w)); [repeat split; auto |].
      cbn [withFarmer farmers batches claims codes transparencyLog drafts].
      repeat split; auto.
      * rewrite map_app. cbn [map id registeredFarmer].
        apply NoDup_app. split; [exact Hnodup |]. split.
        -- intros x Hx [Heq | []]%list_elem_of_In. subst x.
           apply Hfree. apply list_elem_of_In. exact Hx.
        -- apply NoDup_singleton.
      * apply prefix_app_r. reflexivity.
Qed.

Lemma registration_keeps_ids_distinct_witness :
  NoDup (farmerIds (snd (handleGenerateNewFarmerId quietHost raviForm nameTakenWorld))).
Proof.
  apply (registration_keeps_ids_distinct quietHost raviForm nameTakenWorld).
  vm_compute. apply NoDup_cons. split.
  - intros [Heq | []]%list_elem_of_In. discriminate Heq.
  - apply NoDup_singleton.
Defined.

(** *** Signing in after registration *)





(** Registered into a full storage, the farmer is told at the next login
    that the identifier is not found. *)
Example login_after_rejected_registration :
  fst (handleFarmerLogin {| farmerIdInput := "20231115-ravi-1235"; farmerIdIsBlank := false |}
         (snd (handleGenerateNewFarmerId fullStorageHost raviForm nameTakenWorld)))
  = Ok (FarmerIdError farmerIdNotFound).
Proof. vm_compute. reflexivity. Qed.

(** ** Reading a nested field of the form *)

Lemma get_truthy (v : Value) (k : string) :
  truthy v = true -> get v k = Ok (optGet v k).
Proof. destruct v; cbn; intros H; try discriminate; reflexivity. Qed.

Lemma descend_falsy (v : Value) (parts : list string) :
  truthy v = false -> descend v parts = v.
Proof. intros H. destruct parts; cbn [descend]; [| rewrite H]; reflexivity. Qed.

Lemma readsObjects_falsy (v : Value) (parts : list string) :
  truthy v = false -> readsObjects v parts = true.
Proof. intros H. destruct parts; cbn [readsObjects]; [| rewrite H]; reflexivity. Qed.

Lemma getNestedStep_descend (parts : list string) (v : Value) :
  fold_left getNestedStep parts (Ok v) = Ok (descend v parts).
Proof.
  revert v. induction parts as [| part parts IH]; intros v; [reflexivity |].
  cbn [fold_left descend]. unfold getNestedStep at 2. cbn [bindR].
  destruct (truthy v) eqn:Hv.
  - rewrite (get_truthy v part Hv). apply IH.
  - rewrite IH. rewrite (descend_falsy v parts Hv). reflexivity.
Qed.

Lemma getNestedValue_descend (obj : Value) (path : string) :
  getNestedValue obj path = Ok (descend obj (splitOn "." path)).
Proof. apply getNestedStep_descend. Qed.

(** X23.  [getNestedValue] on form data, where the descent reads
    properties of objects only and none under a name that every object
    inherits: it does not raise, and a value that is [undefined], [null]
    or otherwise falsy stops the descent and is itself the result.  For a
    first segment [k] without a dot that no object inherits, on an object
    the path [k] gives the own property [k], and the path [k.rest] goes on
    below that property only when it is truthy; a property that holds [0]
    or the empty string is returned as it is. *)
Theorem getNestedValue_guarded (obj : Value) (k rest : string) :
  noChar "." k = true ->
  inheritedName k = false ->
  (forall path, readsObjects obj (splitOn "." path) = true ->
     getNestedValue obj path = Ok (descend obj (splitOn "." path)))
  /\ (truthy obj = false ->
      forall path, readsObjects obj (splitOn "." path) = true
                   /\ getNestedValue obj path = Ok obj)
  /\ (forall props, obj = VObj props ->
        readsObjects obj (splitOn "." k) = true
        /\ getNestedValue obj k = Ok (lookupProp k props))
  /\ (forall props, obj = VObj props ->
        readsObjects (lookupProp k props) (splitOn "." rest) = true ->
        readsObjects obj (splitOn "." (k +:+ "." +:+ rest)) = true
        /\ getNestedValue obj (k +:+ "." +:+ rest)
           = if truthy (lookupProp k props)
             then getNestedValue (lookupProp k props) rest
             else Ok (lookupProp k props)).
Proof.
  intros Hk Hinherited.
  split; [intros path _; apply getNestedValue_descend |].
  split; [| split].
  - intros Hobj path. split; [apply readsObjects_falsy; exact Hobj |].
    rewrite getNestedValue_descend, (descend_falsy obj _ Hobj). reflexivity.
  - intros props ->. rewrite getNestedValue_descend, (splitOn_whole "." k Hk).
    cbn [readsObjects descend truthy optGet]. rewrite Hinherited. split; reflexivity.
  - intros props -> Hrest. rewrite !getNestedValue_descend.
    change ("." +:+ rest) with (String "." rest).
    rewrite (splitOn_append "." k rest Hk).
    cbn [readsObjects descend truthy optGet]. rewrite Hinherited, Hrest.
    split; [reflexivity |].
    destruct (truthy (lookupProp k props)) eqn:Hchild; [reflexivity |].
    rewrite (descend_falsy _ _ Hchild). reflexivity.
Qed.

Lemma getNestedValue_guarded_witness :
  getNestedValue (VObj [("location", VObj [("village", VStr "")])]) "location.village.name"
  = Ok (VStr "").
Proof.
  destruct (getNestedValue_guarded
              (VObj [("location", VObj [("village", VStr "")])])
              "location" "village.name" eq_refl eq_refl)
    as (_ & _ & _ & Hnested).
  destruct (Hnested _ eq_refl eq_refl) as [_ Hvalue].
  exact Hvalue.
Defined.
